(** * PufferLib emulation layer: a shallow embedding of [pufferlib/emulation.py]

    The development follows the Python module function by function.

    - Python [dict]s are insertion ordered and the order of the flat leaf map
      fixes the layout of the flat vector, so a [dict] is an association list
      with the assignment [d[k] = v] written out ([dset]: overwrite in place,
      or append).
    - Exceptions are values of [exn]; fallible code returns [result].
    - NumPy arrays are a shape, a dtype and the row-major element list.
      Elements are finite numbers, written as rationals: an integer element
      is the rational [z # 1]; infinities and NaN are not represented. The
      promotion of an int64 to float64 in a concatenation rounds to 53
      significant bits ([round_to_bits]). The casts of [astype] are exact on
      the values that the target dtype holds: the cast to int64 truncates
      (NumPy's result for a value outside the int64 range depends on the
      platform and is not modelled), the casts to a floating dtype keep the
      value.
    - [gym.spaces.Dict] sorts the keys of a plain [dict] that it is given
      ([gym_spaces_Dict]); a schema that is handed to the module is taken as
      it is, with its children in their order.
    - The collaborators that are outside the module (the environment, the
      postprocessor, gym's [contains] and [sample], [utils._get_dtype_bounds],
      the compiled [cext.unflatten]) are the fields of the classes [Runtime],
      [GymEnvironment] and [PettingZooEnvironment]; the adapters are stated
      for every instance of them. *)

From Stdlib Require Import String Ascii DecimalString.
From Stdlib Require DecimalFacts DecimalNat.
From Stdlib Require Import List Permutation Bool Arith ZArith QArith Qround Lia.
Import ListNotations.

Local Open Scope string_scope.
Local Open Scope list_scope.
Local Open Scope nat_scope.

Set Implicit Arguments.
Set Warnings "-register-all".


(* ------------------------------------------------------------------------- *)
(** ** Exceptions and results *)

Inductive exn : Type :=
| APIUsageError (msg : string)
| InvalidAgentError (agent : string) (agents : list string)
| ValueError (msg : string)
| TypeError (msg : string)
| IndexError (msg : string)
| AttributeError (msg : string)
| KeyError (key : string).

Inductive result (A : Type) : Type :=
| Ok (a : A)
| Raise (e : exn).

Arguments Ok {A} a.
Arguments Raise {A} e.

Definition bind {A B : Type} (r : result A) (k : A -> result B) : result B :=
  match r with
  | Ok a => k a
  | Raise e => Raise e
  end.

Notation "x <- e ;; k" := (bind e (fun x => k))
  (at level 61, e at next level, right associativity).
Notation "' p <- e ;; k" := (bind e (fun p => k))
  (at level 61, p pattern, e at next level, right associativity).

(** A [for] loop whose body may raise: the state is threaded left to right
    and the first exception leaves the loop. *)
Fixpoint for_each {A S : Type} (body : S -> A -> result S) (l : list A) (s : S)
  : result S :=
  match l with
  | [] => Ok s
  | x :: rest => s' <- body s x ;; for_each body rest s'
  end.

(* ------------------------------------------------------------------------- *)
(** ** Python dictionaries with string keys *)

Definition dict (V : Type) : Type := list (string * V).

Definition dkeys {V : Type} (d : dict V) : list string := map fst d.
Definition dvalues {V : Type} (d : dict V) : list V := map snd d.

(** [k in l] for a list of strings. *)
Definition mem (k : string) (l : list string) : bool :=
  existsb (String.eqb k) l.

Fixpoint dget {V : Type} (k : string) (d : dict V) : option V :=
  match d with
  | [] => None
  | (k', v) :: rest => if String.eqb k k' then Some v else dget k rest
  end.

(** [d[k] = v]: an existing key keeps its position, a new key goes last. *)
Fixpoint dset {V : Type} (k : string) (v : V) (d : dict V) : dict V :=
  match d with
  | [] => [(k, v)]
  | (k', v') :: rest =>
      if String.eqb k k' then (k', v) :: rest else (k', v') :: dset k v rest
  end.

(** In-place mutation of the object stored under [k] (as in
    [d[k][j] = x], which changes the inner dictionary [d[k]]). *)
Fixpoint dmodify {V : Type} (k : string) (f : V -> V) (d : dict V) : dict V :=
  match d with
  | [] => []
  | (k', v') :: rest =>
      if String.eqb k k' then (k', f v') :: rest else (k', v') :: dmodify k f rest
  end.

(** A sequence of assignments, and the dictionary built from pairs
    ([dict(pairs)], [OrderedDict(pairs)], a dict comprehension). *)
Definition dupdate {V : Type} (kvs : list (string * V)) (d : dict V) : dict V :=
  fold_left (fun acc kv => dset (fst kv) (snd kv) acc) kvs d.

Definition dict_of {V : Type} (kvs : list (string * V)) : dict V := dupdate kvs [].

(** [sorted(d.items())]: the items in the order of their keys, strings
    being compared character by character. *)
Fixpoint insert_sorted {V : Type} (kv : string * V) (l : list (string * V))
  : list (string * V) :=
  match l with
  | [] => [kv]
  | kv' :: rest =>
      if String.leb (fst kv) (fst kv')
      then kv :: l
      else kv' :: insert_sorted kv rest
  end.

Definition sorted_items {V : Type} (d : dict V) : dict V :=
  fold_right insert_sorted [] d.

(** The representation invariant of a dictionary: keys are unique. *)
Definition wf_dict {V : Type} (d : dict V) : Prop := NoDup (dkeys d).

(** Python's [d1 == d2] on plain dictionaries ignores the order: same keys,
    equal values. *)
Definition dict_eq {V : Type} (d1 d2 : dict V) : Prop :=
  forall k, dget k d1 = dget k d2.

(** [set(l1) == set(l2)] *)
Definition set_eqb (l1 l2 : list string) : bool :=
  forallb (fun x => mem x l2) l1 && forallb (fun x => mem x l1) l2.

(** The keys in the order of their first assignment: what a dictionary
    retains of a sequence of keys assigned one after the other. *)
Fixpoint new_keys (seen l : list string) : list string :=
  match l with
  | [] => []
  | k :: rest =>
      if mem k seen then new_keys seen rest else k :: new_keys (seen ++ [k]) rest
  end.

Definition first_occurrences (l : list string) : list string := new_keys [] l.

(* ------------------------------------------------------------------------- *)
(** ** Padding a partial agent population *)

Section Padding.

Variables Obs Info : Type.

(** [{agent: data[agent] if agent in data else pad_value for agent in agents}] *)
Definition pad_agent_data {V : Type} (data : dict V) (agents : list string)
  (pad_value : V) : dict V :=
  dict_of (map (fun agent =>
                  (agent, match dget agent data with
                          | Some v => v
                          | None => pad_value
                          end)) agents).

Definition pad_to_const_num_agents (agents : list string)
  (obs : dict Obs) (rewards : dict Q) (dones : dict bool)
  (infos : dict (dict Info)) (pad_obs : Obs)
  : dict Obs * dict Q * dict bool * dict (dict Info) :=
  let padded_obs := pad_agent_data obs agents pad_obs in
  let rewards := pad_agent_data rewards agents 0%Q in
  let dones := pad_agent_data dones agents false in
  let infos := pad_agent_data infos agents [] in
  (padded_obs, rewards, dones, infos).

End Padding.

(* ------------------------------------------------------------------------- *)
(** ** Teams *)

Definition teams_t : Type := dict (list string).

(** [{item for team in teams.values() for item in team}] *)
Definition team_members (teams : teams_t) : list string :=
  concat (dvalues teams).

Definition check_teams (possible_agents : list string) (teams : teams_t)
  : result unit :=
  if negb (set_eqb possible_agents (team_members teams))
  then Raise (ValueError "Invalid teams")
  else Ok tt.

Section Teams.

Variable V : Type.

(** The body of the loop over [teams.items()] for one [agent_data]. *)
Definition group_team (agent_data : dict V) (team_data : dict (dict V))
  (item : string * list string) : dict (dict V) :=
  let (team_id, team) := item in
  let team_data := dset team_id [] team_data in
  fold_left (fun team_data agent_id =>
               match dget agent_id agent_data with
               | Some x => dmodify team_id (dset agent_id x) team_data
               | None => team_data
               end) team team_data.

(** The body of the loop over [args]. *)
Definition group_one (debug : bool) (teams : teams_t)
  (grouped_data : list (dict (dict V))) (agent_data : dict V)
  : result (list (dict (dict V))) :=
  if debug && negb (set_eqb (dkeys agent_data) (team_members teams))
  then Raise (ValueError "Invalid teams")
  else
    let team_data := fold_left (group_team agent_data) teams [] in
    Ok (grouped_data ++ [team_data]).

(** [group_into_teams] returns the one grouped mapping when it is called
    with one mapping, and the list of them otherwise. *)
Inductive grouped : Type :=
| GroupedOne (team_data : dict (dict V))
| GroupedMany (grouped_data : list (dict (dict V))).

Definition group_into_teams (debug : bool) (teams : teams_t)
  (args : list (dict V)) : result grouped :=
  grouped_data <- for_each (group_one debug teams) args [] ;;
  if length grouped_data =? 1
  then match grouped_data with
       | g :: _ => Ok (GroupedOne g)
       | [] => Raise (IndexError "list index out of range")
       end
  else Ok (GroupedMany grouped_data).

Definition ungroup_from_teams (team_data : dict (dict V)) : dict V :=
  fold_left (fun agent_data team =>
               fold_left (fun agent_data item =>
                            dset (fst item) (snd item) agent_data)
                         team agent_data)
            (dvalues team_data) [].

End Teams.

(* ------------------------------------------------------------------------- *)
(** ** The NumPy fragment used by the module *)

Inductive dtype : Type := int64 | float32 | float64.

(** [np.result_type]: the dtype of a concatenation. *)
Definition promote (a b : dtype) : dtype :=
  match a, b with
  | int64, int64 => int64
  | float32, float32 => float32
  | _, _ => float64
  end.

Record ndarray : Type := mk_ndarray {
  shape : list nat;
  dtype_of : dtype;
  data : list Q
}.

(** [np.prod(shape)] *)
Definition np_prod (shape : list nat) : nat := fold_right Nat.mul 1 shape.

Definition size (a : ndarray) : nat := np_prod (shape a).

(** Truncation toward zero: Python's [int(x)] and the cast to an integer
    dtype of a value within the range of that dtype. *)
Definition Qtrunc (q : Q) : Z :=
  if Qle_bool 0 q then Qfloor q else Qceiling q.

Definition cast (typ : dtype) (q : Q) : Q :=
  match typ with
  | int64 => inject_Z (Qtrunc q)
  | float32 | float64 => q
  end.

(** [a.astype(typ)] *)
Definition astype (a : ndarray) (typ : dtype) : ndarray :=
  mk_ndarray (shape a) typ (map (cast typ) (data a)).

(** [a.ravel()] *)
Definition ravel (a : ndarray) : ndarray :=
  mk_ndarray [size a] (dtype_of a) (data a).

(** [a.reshape(newshape)], the shape given as one tuple *)
Definition reshape (a : ndarray) (newshape : list nat) : result ndarray :=
  if np_prod newshape =? size a
  then Ok (mk_ndarray newshape (dtype_of a) (data a))
  else Raise (ValueError "cannot reshape array").

(** [a * 0]: every element of the model is a finite number, and its product
    with zero is zero (an infinite or NaN element would give NaN). *)
Definition times_zero (a : ndarray) : ndarray :=
  mk_ndarray (shape a) (dtype_of a) (map (fun _ => 0%Q) (data a)).

(** The values found at the leaves of a sample: NumPy arrays and bare Python
    numbers. *)
Inductive pyval : Type :=
| PyInt (z : Z)
| PyFloat (q : Q)
| NdArray (a : ndarray).

(** [np.array([e])] for a bare number [e]; an array is returned as it is. *)
Definition np_array1 (e : pyval) : ndarray :=
  match e with
  | PyInt z => mk_ndarray [1] int64 [inject_Z z]
  | PyFloat q => mk_ndarray [1] float64 [q]
  | NdArray a => a
  end.

(** Equality of two shapes. *)
Fixpoint shape_eqb (s1 s2 : list nat) : bool :=
  match s1, s2 with
  | [], [] => true
  | a :: s1', b :: s2' => (a =? b) && shape_eqb s1' s2'
  | _, _ => false
  end.

(** The conversion of an integer to a floating dtype whose significand has
    [bits] bits (53 for float64): an integer of at most [bits] bits keeps its
    value; a longer one is rounded to the nearest number with a significand
    of [bits] bits, a tie going to the even significand. An int64 is far
    below the largest float64, so the conversion never overflows. *)
Definition round_to_bits (bits z : Z) : Z :=
  let a := Z.abs z in
  if (a <? 2 ^ bits)%Z then z
  else
    let e := (Z.log2 a + 1 - bits)%Z in
    let q := (a / 2 ^ e)%Z in
    let r := (a mod 2 ^ e)%Z in
    let half := (2 ^ (e - 1))%Z in
    let q' := if (half <? r)%Z || ((r =? half)%Z && Z.odd q)
              then (q + 1)%Z else q in
    (Z.sgn z * (q' * 2 ^ e))%Z.

(** The conversion of an element of an array of dtype [src] to the common
    dtype [dst] of a concatenation. The only promotions of the three dtypes
    that change the representation are int64 to float64, which rounds, and
    float32 to float64, which is exact. *)
Definition promote_element (src dst : dtype) (q : Q) : Q :=
  match src, dst with
  | int64, float64 => inject_Z (round_to_bits 53 (Qtrunc q))
  | _, _ => q
  end.

(** [np.concatenate(arrs)], along the first axis: the arrays have at least
    one dimension and agree on the other dimensions; the elements are
    converted to the common dtype. *)
Definition np_concatenate (arrs : list ndarray) : result ndarray :=
  match arrs with
  | [] => Raise (ValueError "need at least one array to concatenate")
  | a :: rest =>
      match shape a with
      | [] => Raise (ValueError "zero-dimensional arrays cannot be concatenated")
      | _ :: tail =>
          if forallb (fun b => match shape b with
                               | [] => false
                               | _ :: tail' => shape_eqb tail' tail
                               end) rest
          then
            let typ := fold_left (fun t b => promote t (dtype_of b)) rest
                         (dtype_of a) in
            Ok (mk_ndarray
                  (list_sum (map (fun b => hd 0 (shape b)) arrs) :: tail)
                  typ
                  (concat (map (fun b => map (promote_element (dtype_of b) typ)
                                             (data b)) arrs)))
          else Raise (ValueError "all the input array dimensions except for the concatenation axis must match exactly")
      end
  end.

(** [x[start:stop]]: a slice along the first axis. *)
Definition getitem_slice (x : pyval) (start stop : nat) : result ndarray :=
  match x with
  | NdArray a =>
      match shape a with
      | [] => Raise (IndexError "too many indices for array")
      | d0 :: rest =>
          let lo := Nat.min start d0 in
          let hi := Nat.max lo (Nat.min stop d0) in
          let row := np_prod rest in
          Ok (mk_ndarray ((hi - lo) :: rest) (dtype_of a)
                (firstn ((hi - lo) * row) (skipn (lo * row) (data a))))
      end
  | _ => Raise (TypeError "object is not subscriptable")
  end.

Fixpoint chunks (row n : nat) (l : list Q) : list (list Q) :=
  match n with
  | 0 => []
  | S n' => firstn row l :: chunks row n' (skipn row l)
  end.

(** [x[:, start:stop]]: a slice along the second axis. *)
Definition getitem_slice1 (x : pyval) (start stop : nat) : result ndarray :=
  match x with
  | NdArray a =>
      match shape a with
      | b :: d1 :: rest =>
          let lo := Nat.min start d1 in
          let hi := Nat.max lo (Nat.min stop d1) in
          let inner := np_prod rest in
          Ok (mk_ndarray (b :: (hi - lo) :: rest) (dtype_of a)
                (concat (map (fun r => firstn ((hi - lo) * inner)
                                         (skipn (lo * inner) r))
                             (chunks (d1 * inner) b (data a)))))
      | _ => Raise (IndexError "too many indices for array")
      end
  | _ => Raise (TypeError "object is not subscriptable")
  end.

(** [a[i]]: a scalar of a one-dimensional array comes back as a
    zero-dimensional array. *)
Definition getitem_index (a : ndarray) (i : nat) : result ndarray :=
  match shape a with
  | [] => Raise (IndexError "too many indices for array")
  | d0 :: rest =>
      if i <? d0
      then let row := np_prod rest in
           Ok (mk_ndarray rest (dtype_of a)
                 (firstn row (skipn (i * row) (data a))))
      else Raise (IndexError "index out of bounds")
  end.

(** [int(v)] *)
Definition py_int (v : pyval) : result Z :=
  match v with
  | PyInt z => Ok z
  | PyFloat q => Ok (Qtrunc q)
  | NdArray a =>
      match data a with
      | [q] => Ok (Qtrunc q)
      | _ => Raise (TypeError "only size-1 arrays can be converted to Python scalars")
      end
  end.

(** [x.shape[0]] *)
Definition shape0 (x : pyval) : result nat :=
  match x with
  | NdArray a =>
      match shape a with
      | [] => Raise (IndexError "tuple index out of range")
      | d0 :: _ => Ok d0
      end
  | _ => Raise (AttributeError "object has no attribute shape")
  end.

(* ------------------------------------------------------------------------- *)
(** ** Schemas (gym spaces) and samples *)

Inductive bound : Type := NegInf | Finite (q : Q) | PosInf.

Inductive leaf_space : Type :=
| Box (low high : bound) (shp : list nat) (typ : dtype)
| Discrete (n : Z)
| MultiDiscrete (nvec : list Z).

Inductive space : Type :=
| Leaf (l : leaf_space)
| Tuple (spaces : list space)
| Dict (spaces : list (string * space)).

(** [subspace.shape] and [subspace.dtype] *)
Definition space_shape (s : leaf_space) : list nat :=
  match s with
  | Box _ _ shp _ => shp
  | Discrete _ => []
  | MultiDiscrete nvec => [length nvec]
  end.

Definition space_dtype (s : leaf_space) : dtype :=
  match s with
  | Box _ _ _ typ => typ
  | Discrete _ => int64
  | MultiDiscrete _ => int64
  end.

Definition is_discrete (s : leaf_space) : bool :=
  match s with Discrete _ => true | _ => false end.

(** A nested sample: tuples, dictionaries, and leaf values. *)
Inductive pyobj : Type :=
| PyLeaf (v : pyval)
| PyTuple (elems : list pyobj)
| PyDict (items : list (string * pyobj)).

(** [f'{idx}'] *)
Definition str_of_nat (n : nat) : string :=
  NilZero.string_of_uint (Nat.to_uint n).

(* ------------------------------------------------------------------------- *)
(** ** Loops over the children of a container *)

(** [for idx, elem in enumerate(elems): body] with the loop state [s]. *)
Definition enumerate_fold {A St : Type} (body : St -> nat -> A -> St)
  : list A -> nat -> St -> St :=
  fix loop (l : list A) (idx : nat) (s : St) : St :=
    match l with
    | [] => s
    | x :: rest => loop rest (S idx) (body s idx x)
    end.

(** The lists [f idx elem], for the children in order, one after the other. *)
Definition enumerate_flat_map {A B : Type} (f : nat -> A -> list B)
  : list A -> nat -> list B :=
  fix loop (l : list A) (idx : nat) : list B :=
    match l with
    | [] => []
    | x :: rest => f idx x ++ loop rest (S idx)
    end.

(** A generator expression whose element may raise and moves a cursor:
    the results in order, and the final cursor. *)
Definition collect {A B : Type} (f : A -> nat -> result (B * nat))
  : list A -> nat -> result (list B * nat) :=
  fix loop (l : list A) (idx : nat) : result (list B * nat) :=
    match l with
    | [] => Ok ([], idx)
    | x :: rest =>
        r <- f x idx ;;
        rs <- loop rest (snd r) ;;
        Ok (fst r :: fst rs, snd rs)
    end.

(* ------------------------------------------------------------------------- *)
(** ** [flatten_space] *)

Definition tuple_key (key : string) (idx : nat) : string :=
  (key ++ "T" ++ str_of_nat idx ++ ".")%string.

Definition dict_key (key k : string) : string :=
  (key ++ "D" ++ k ++ ".")%string.

Definition leaf_key (key : string) : string := (key ++ "V")%string.

Fixpoint flatten_space_helper (current : space) (key : string)
  (flat : dict leaf_space) {struct current} : dict leaf_space :=
  match current with
  | Tuple elems =>
      enumerate_fold
        (fun flat idx elem => flatten_space_helper elem (tuple_key key idx) flat)
        elems 0 flat
  | Dict items =>
      fold_left
        (fun flat kv => flatten_space_helper (snd kv) (dict_key key (fst kv)) flat)
        items flat
  | Leaf l => dset (leaf_key key) l flat
  end.

Definition flatten_space (s : space) : dict leaf_space :=
  flatten_space_helper s "" [].

(** The flat keys as the specification words them: the depth-first pre-order
    list of paths, [T{index}.] for a tuple child, [D{key}.] for a mapping
    child, [V] at a leaf. *)
Definition under {V : Type} (prefix : string) (kv : string * V) : string * V :=
  ((prefix ++ fst kv)%string, snd kv).

Fixpoint spec_items (s : space) : list (string * leaf_space) :=
  match s with
  | Leaf l => [("V", l)]
  | Tuple elems =>
      enumerate_flat_map
        (fun idx elem => map (under (tuple_key "" idx)) (spec_items elem))
        elems 0
  | Dict items =>
      flat_map
        (fun kv => map (under (dict_key "" (fst kv))) (spec_items (snd kv)))
        items
  end.

Definition spec_keys (s : space) : list string := map fst (spec_items s).

(** The key format in the words of the specification, written out with no
    reference to the functions above: a path is the sequence of its
    components, [T], the decimal digits of the index and a dot for a tuple
    child, [D], the mapping key and a dot for a mapping child, and the
    letter [V] at the leaf; the paths are listed depth-first, the children
    of a container in their order. *)
Fixpoint path_items (s : space) : list (string * leaf_space) :=
  match s with
  | Leaf l => [("V", l)]
  | Tuple elems =>
      enumerate_flat_map
        (fun idx elem =>
           map (fun kl : string * leaf_space =>
                  (("T" ++ NilZero.string_of_uint (Nat.to_uint idx) ++ "."
                    ++ fst kl)%string, snd kl))
               (path_items elem))
        elems 0
  | Dict items =>
      flat_map
        (fun kv : string * space =>
           map (fun kl : string * leaf_space =>
                  (("D" ++ fst kv ++ "." ++ fst kl)%string, snd kl))
               (path_items (snd kv)))
        items
  end.

Definition path_keys (s : space) : list string := map fst (path_items s).

(** The structure of a schema: its containers, the number of children of
    every tuple and the keys of every mapping in their order, without the
    leaf descriptions. Two schemas are structurally identical when they have
    the same structure. *)
Inductive skeleton : Type :=
| SLeaf
| STuple (children : list skeleton)
| SDict (children : list (string * skeleton)).

Fixpoint skeleton_of (s : space) : skeleton :=
  match s with
  | Leaf _ => SLeaf
  | Tuple elems => STuple (map skeleton_of elems)
  | Dict items => SDict (map (fun kv => (fst kv, skeleton_of (snd kv))) items)
  end.

(* ------------------------------------------------------------------------- *)
(** ** Flattening a sample *)

(** [python_flatten]: the leaves in traversal order, a bare number wrapped
    into a length-1 array. *)
Fixpoint python_flatten_helper (current : pyobj) (flat : list ndarray)
  {struct current} : list ndarray :=
  match current with
  | PyTuple elems =>
      fold_left (fun flat elem => python_flatten_helper elem flat) elems flat
  | PyDict items =>
      fold_left (fun flat kv => python_flatten_helper (snd kv) flat) items flat
  | PyLeaf (NdArray a) => flat ++ [a]
  | PyLeaf v => flat ++ [np_array1 v]
  end.

Definition python_flatten (sample : pyobj) : list ndarray :=
  python_flatten_helper sample [].

(** Modelled from the spec: [cext.flatten], the compiled flattener that the
    module imports and whose result [concatenate] reads with [.values()], is
    not among the sources. The specification has it walk the sample
    depth-first in the order of the schema flattener; each leaf value is
    recorded as it is under the path key of its position. *)
Fixpoint flatten_helper (current : pyobj) (key : string) (flat : dict pyval)
  {struct current} : dict pyval :=
  match current with
  | PyTuple elems =>
      enumerate_fold
        (fun flat idx elem => flatten_helper elem (tuple_key key idx) flat)
        elems 0 flat
  | PyDict items =>
      fold_left
        (fun flat kv => flatten_helper (snd kv) (dict_key key (fst kv)) flat)
        items flat
  | PyLeaf v => dset (leaf_key key) v flat
  end.

Definition flatten (sample : pyobj) : dict pyval := flatten_helper sample "" [].

(** [concatenate] *)
Definition concatenate (flat_sample : dict pyval) : result pyval :=
  if length flat_sample =? 1
  then match dvalues flat_sample with
       | v :: _ => Ok v
       | [] => Raise (IndexError "list index out of range")
       end
  else a <- np_concatenate
              (map (fun e => match e with
                             | NdArray a => ravel a
                             | _ => np_array1 e
                             end) (dvalues flat_sample)) ;;
       Ok (NdArray a).

(* ------------------------------------------------------------------------- *)
(** ** [split] and [python_unflatten] *)

(** The body of the loop of [split]; the loop state is [(leaves, ptr)]. *)
Definition split_leaf (stacked_sample : pyval) (batched : bool) (batch : nat)
  (st : dict pyval * nat) (item : string * leaf_space)
  : result (dict pyval * nat) :=
  let (leaves, ptr) := st in
  let (key, subspace) := item in
  let shape := space_shape subspace in
  let typ := space_dtype subspace in
  let sz := np_prod shape in
  let shape := match shape with [] => [1] | _ => shape end in
  samp <- (if batched
           then s <- getitem_slice1 stacked_sample ptr (ptr + sz) ;;
                r <- reshape s (batch :: shape) ;;
                Ok (NdArray r)
           else s <- getitem_slice stacked_sample ptr (ptr + sz) ;;
                r <- reshape s shape ;;
                let samp := astype r typ in
                if is_discrete subspace
                then e <- getitem_index samp 0 ;;
                     z <- py_int (NdArray e) ;;
                     Ok (PyInt z)
                else Ok (NdArray samp)) ;;
  Ok (dset key samp leaves, ptr + sz).

Definition split (stacked_sample : pyval) (flat_space : dict leaf_space)
  (batched : bool) : result (dict pyval) :=
  batch <- (if batched then shape0 stacked_sample else Ok 0) ;;
  st <- for_each (split_leaf stacked_sample batched batch) flat_space ([], 0) ;;
  Ok (fst st).

(** [python_unflatten]: [idx] is the shared cursor, threaded through the
    recursive calls; [flat_sample] is read by position. *)
Definition getitem_list {A : Type} (l : list A) (i : nat) : result A :=
  match nth_error l i with
  | Some x => Ok x
  | None => Raise (IndexError "list index out of range")
  end.

Fixpoint unflatten_helper (flat_sample : list pyval) (sp : space) (idx : nat)
  {struct sp} : result (pyobj * nat) :=
  match sp with
  | Tuple subspaces =>
      r <- collect (fun subspace idx => unflatten_helper flat_sample subspace idx)
             subspaces idx ;;
      Ok (PyTuple (fst r), snd r)
  | Dict items =>
      r <- collect (fun (kv : string * space) idx =>
                      r <- unflatten_helper flat_sample (snd kv) idx ;;
                      Ok ((fst kv, fst r), snd r))
             items idx ;;
      Ok (PyDict (dict_of (fst r)), snd r)
  | Leaf (Discrete _) =>
      let idx := idx + 1 in
      v <- getitem_list flat_sample (idx - 1) ;;
      z <- py_int v ;;
      Ok (PyLeaf (PyInt z), idx)
  | Leaf _ =>
      let idx := idx + 1 in
      v <- getitem_list flat_sample (idx - 1) ;;
      Ok (PyLeaf v, idx)
  end.

Definition python_unflatten (flat_sample : list pyval) (sp : space)
  : result pyobj :=
  r <- unflatten_helper flat_sample sp 0 ;;
  Ok (fst r).

(* ------------------------------------------------------------------------- *)
(** ** [convert_to_multidiscrete] *)

Definition multidiscrete_leaf (lens : list Z) (e : leaf_space)
  : result (list Z) :=
  match e with
  | Discrete n => Ok (lens ++ [n])
  | MultiDiscrete nvec => Ok (lens ++ nvec)
  | _ => Raise (ValueError "Invalid action space")
  end.

Definition convert_to_multidiscrete (flat_space : dict leaf_space)
  : result leaf_space :=
  lens <- for_each multidiscrete_leaf (dvalues flat_space) [] ;;
  Ok (MultiDiscrete lens).

(* ------------------------------------------------------------------------- *)
(** ** Code that threads the adapter object: state and exceptions *)

Definition M (S A : Type) : Type := S -> S * result A.

Definition ret {S A : Type} (a : A) : M S A := fun s => (s, Ok a).

Definition raise {S A : Type} (e : exn) : M S A := fun s => (s, Raise e).

Definition lift {S A : Type} (r : result A) : M S A := fun s => (s, r).

Definition mbind {S A B : Type} (m : M S A) (k : A -> M S B) : M S B :=
  fun s =>
    match m s with
    | (s', Ok a) => k a s'
    | (s', Raise e) => (s', Raise e)
    end.

Definition get {S : Type} : M S S := fun s => (s, Ok s).

Definition modify {S : Type} (f : S -> S) : M S unit := fun s => (f s, Ok tt).

Notation "x <~ e ;; k" := (mbind e (fun x => k))
  (at level 61, e at next level, right associativity).
Notation "' p <~ e ;; k" := (mbind e (fun p => k))
  (at level 61, p pattern, e at next level, right associativity).
Notation "e ;;; k" := (mbind e (fun _ => k))
  (at level 61, right associativity).

Fixpoint mfor_each {S A : Type} (body : A -> M S unit) (l : list A) : M S unit :=
  match l with
  | [] => ret tt
  | x :: rest => body x ;;; mfor_each body rest
  end.

(** [d[k]] *)
Definition getitem {V : Type} (d : dict V) (k : string) : result V :=
  match dget k d with
  | Some v => Ok v
  | None => Raise (KeyError k)
  end.

(** Reading an attribute that a space query sets. *)
Definition getattr {A : Type} (name : string) (a : option A) : result A :=
  match a with
  | Some x => Ok x
  | None => Raise (AttributeError name)
  end.

(* ------------------------------------------------------------------------- *)
(** ** Collaborators *)

(** What the module uses and does not define: the process-wide [__debug__]
    flag, the compiled [cext.unflatten], gym's [sample] and [contains], and
    [utils._get_dtype_bounds]. [Info] is the type of the values of an info
    record. *)
Class Runtime : Type := {
  Info : Type;
  py_debug : bool;
  cext_unflatten : dict pyval -> pyobj;
  space_sample : space -> pyobj;
  space_contains : leaf_space -> pyval -> bool;
  get_dtype_bounds : dtype -> bound * bound
}.

(** The postprocessor capabilities. *)
Record postprocessor `{Runtime} : Type := {
  features : pyobj -> pyobj;
  actions : pyval -> pyval;
  rewards_dones_infos : Q -> bool -> dict Info -> Q * bool * dict Info
}.

(** The base class [Postprocessor]: every capability is the identity. *)
Definition Postprocessor `{Runtime} : postprocessor :=
  {| features := fun obs => obs;
     actions := fun a => a;
     rewards_dones_infos := fun r d i => (r, d, i) |}.

(** The single-agent environment. [env.seed(seed)], [env.reset()] and
    [env.reset(seed=seed)] act on the environment object and may raise after
    they have changed it: each gives the environment as the call leaves it,
    and the outcome of the call. *)
Class GymEnvironment `{Runtime} : Type := {
  GymEnv : Type;
  gym_observation_space : GymEnv -> space;
  gym_action_space : GymEnv -> space;
  gym_seed : GymEnv -> option Z -> GymEnv * result unit;
  gym_reset : GymEnv -> GymEnv * result pyobj;
  gym_reset_seed : GymEnv -> option Z -> GymEnv * result pyobj;
  gym_env_step : GymEnv -> pyobj -> GymEnv * (pyobj * Q * bool * dict Info)
}.

(** The multi-agent environment. *)
Class PettingZooEnvironment `{Runtime} : Type := {
  PzEnv : Type;
  env_possible_agents : PzEnv -> list string;
  env_agents : PzEnv -> list string;
  env_observation_space : PzEnv -> string -> space;
  env_action_space : PzEnv -> string -> space;
  env_reset : PzEnv -> option Z -> PzEnv * dict pyobj;
  env_step : PzEnv -> dict pyobj ->
             PzEnv * (dict pyobj * dict Q * dict bool * dict (dict Info))
}.

(* ------------------------------------------------------------------------- *)
(** ** Space synthesis *)

Section Synthesis.

Context `{R : Runtime}.

Definition make_object {A : Type} (object_instance : option A)
  (object_creator : option (unit -> A)) : result A :=
  match object_instance, object_creator with
  | Some _, Some _ | None, None =>
      Raise (ValueError "Exactly one of object_instance or object_creator must be provided")
  | Some instance, None => Ok instance
  | None, Some creator => Ok (creator tt)
  end.

(** [gym.spaces.Dict(spaces)] for a plain [dict] (not an [OrderedDict]):
    the constructor sorts the items by key. *)
Definition gym_spaces_Dict (spaces : dict space) : space :=
  Dict (sorted_items spaces).

(** [make_space_like]; every leaf value of [pyval] is of a supported type, so
    the final [raise] of the source is not reached. The mapping case hands a
    dict comprehension, a plain [dict], to [gym.spaces.Dict]. *)
Fixpoint make_space_like (ob : pyobj) : space :=
  match ob with
  | PyLeaf (NdArray a) =>
      let (mmin, mmax) := get_dtype_bounds (dtype_of a) in
      Leaf (Box mmin mmax (shape a) (dtype_of a))
  | PyTuple elems => Tuple (map make_space_like elems)
  | PyDict items =>
      gym_spaces_Dict
        (dict_of (map (fun kv => (fst kv, make_space_like (snd kv))) items))
  | PyLeaf _ => Leaf (Box NegInf PosInf [] float32)
  end.

Definition postprocess_and_flatten_reset (ob : pyobj) (pp : postprocessor)
  : result pyval :=
  let postprocessed_ob := features pp ob in
  concatenate (flatten postprocessed_ob).

Definition postprocess_and_flatten (ob : pyobj) (pp : postprocessor)
  (reward : Q) (done : bool) (info : dict Info)
  : result (pyval * Q * bool * dict Info) :=
  let '(reward, done, info) := rewards_dones_infos pp reward done info in
  let postprocessed_ob := features pp ob in
  flat_ob <- concatenate (flatten postprocessed_ob) ;;
  Ok (flat_ob, reward, done, info).

Definition make_flat_and_multidiscrete_atn_space (atn_space : space)
  : result (dict leaf_space * leaf_space) :=
  let flat_action_space := flatten_space atn_space in
  multidiscrete_space <- convert_to_multidiscrete flat_action_space ;;
  Ok (flat_action_space, multidiscrete_space).

Definition make_flat_and_box_obs_space (obs_space : space) (obs : pyobj)
  : result (dict leaf_space * leaf_space * pyval) :=
  let flat_observation_space := flatten_space obs_space in
  flat_observation <- concatenate (flatten obs) ;;
  match flat_observation with
  | NdArray a =>
      let (mmin, mmax) := get_dtype_bounds (dtype_of a) in
      let pad_obs := NdArray (times_zero a) in
      let box_obs_space := Box mmin mmax (shape a) (dtype_of a) in
      Ok (flat_observation_space, box_obs_space, pad_obs)
  | _ => Raise (AttributeError "dtype")
  end.

Definition make_featurized_obs_and_space (obs_space : space)
  (pp : postprocessor) : space * pyobj :=
  let obs_sample := space_sample obs_space in
  let featurized_obs := features pp obs_sample in
  let featurized_obs_space := make_space_like featurized_obs in
  (featurized_obs_space, featurized_obs).

Definition make_team_space (observation_space : string -> space)
  (agents : list string) : space :=
  gym_spaces_Dict
    (dict_of (map (fun agent => (agent, observation_space agent)) agents)).

(** The attributes that the space queries store on the adapter. [None] is an
    attribute that has not been assigned yet. *)
Record space_cache : Type := mk_cache {
  structured_observation_space : option space;
  flat_observation_space : option (dict leaf_space);
  box_observation_space : option leaf_space;
  pad_observation : option pyval;
  structured_action_space : option space;
  flat_action_space : option (dict leaf_space);
  multidiscrete_action_space : option leaf_space
}.

Definition empty_cache : space_cache :=
  mk_cache None None None None None None None.

(** The two assignments shared by both [observation_space] queries. *)
Definition cache_observation_space (obs_space : space) (pp : postprocessor)
  : M space_cache leaf_space :=
  fun c =>
    let (featurized, structured_obs) := make_featurized_obs_and_space obs_space pp in
    let c := mk_cache (Some featurized) (flat_observation_space c)
               (box_observation_space c) (pad_observation c)
               (structured_action_space c) (flat_action_space c)
               (multidiscrete_action_space c) in
    match make_flat_and_box_obs_space featurized structured_obs with
    | Ok (flat, box, pad) =>
        (mk_cache (structured_observation_space c) (Some flat) (Some box)
           (Some pad) (structured_action_space c) (flat_action_space c)
           (multidiscrete_action_space c), Ok box)
    | Raise e => (c, Raise e)
    end.

(** The assignments of the [action_space] queries; [keep] tells whether the
    merged description is stored as [multidiscrete_action_space] (the
    multi-agent adapter) or only returned (the single-agent adapter). *)
Definition cache_action_space (keep : bool) (atn_space : space)
  : M space_cache leaf_space :=
  fun c =>
    let c := mk_cache (structured_observation_space c)
               (flat_observation_space c) (box_observation_space c)
               (pad_observation c) (Some atn_space) (flat_action_space c)
               (multidiscrete_action_space c) in
    match make_flat_and_multidiscrete_atn_space atn_space with
    | Ok (flat, md) =>
        (mk_cache (structured_observation_space c)
           (flat_observation_space c) (box_observation_space c)
           (pad_observation c) (structured_action_space c) (Some flat)
           (if keep then Some md else multidiscrete_action_space c), Ok md)
    | Raise e => (c, Raise e)
    end.

End Synthesis.

(** [check_spaces]: [spaces] is a bound method of the adapter, so each query
    may assign the cached attributes; any exception of the query is turned
    into a [ValueError]. *)
Definition check_spaces {S V : Type} (contains : leaf_space -> V -> bool)
  (data : dict V) (spaces : string -> M S leaf_space) : M S unit :=
  mfor_each (fun kv : string * V =>
               fun s =>
                 match spaces (fst kv) s with
                 | (s', Ok sp) =>
                     if contains sp (snd kv)
                     then (s', Ok tt)
                     else (s', Raise (ValueError "Data not in space"))
                 | (s', Raise _) => (s', Raise (ValueError "Error checking space"))
                 end) data.

(* ------------------------------------------------------------------------- *)
(** ** The single-agent adapter *)

Module GymPufferEnv.
Section Adapter.

Context `{R : Runtime} `{E : !GymEnvironment}.

Record t : Type := mk {
  env : GymEnv;
  postprocessor_of : postprocessor;
  initialized : bool;
  done : bool;
  cache : space_cache
}.

Definition set_cache (c : space_cache) (self : t) : t :=
  mk (env self) (postprocessor_of self) (initialized self) (done self) c.

Definition set_env (e : GymEnv) (self : t) : t :=
  mk e (postprocessor_of self) (initialized self) (done self) (cache self).

Definition set_flags (i d : bool) (self : t) : t :=
  mk (env self) (postprocessor_of self) i d (cache self).

Definition on_cache {A : Type} (m : M space_cache A) : M t A :=
  fun self => let (c, r) := m (cache self) in (set_cache c self, r).

(** The [observation_space] property. *)
Definition observation_space : M t leaf_space :=
  self <~ get ;;
  on_cache (cache_observation_space (gym_observation_space (env self))
              (postprocessor_of self)).

(** The [action_space] property. *)
Definition action_space : M t leaf_space :=
  self <~ get ;;
  on_cache (cache_action_space false (gym_action_space (env self))).

Definition init (env : option GymEnv) (env_creator : option (unit -> GymEnv))
  (postprocessor_cls : GymEnv -> postprocessor) : result t :=
  e <- make_object env env_creator ;;
  let self := mk e (postprocessor_cls e) false true empty_cache in
  match (observation_space ;;; action_space) self with
  | (self, Ok _) => Ok self
  | (_, Raise e) => Raise e
  end.

(** [_seed_and_reset]: the environment object is shared with the adapter,
    so what a call has done to it stays done when a later call raises. *)
Definition _seed_and_reset (env : GymEnv) (seed : option Z)
  : GymEnv * result pyobj :=
  match gym_seed env seed with
  | (env, Ok _) => gym_reset env
  | (env, Raise _) =>
      match gym_reset_seed env seed with
      | (env, Ok obs) => (env, Ok obs)
      | (env, Raise _) => gym_reset env
      end
  end.

Definition reset (seed : option Z) : M t pyval :=
  modify (set_flags true false) ;;;
  self <~ get ;;
  ob <~ (fun self => let (e, r) := _seed_and_reset (env self) seed in
                     (set_env e self, r)) ;;
  lift (postprocess_and_flatten_reset ob (postprocessor_of self)).

Definition step (action : pyval) : M t (pyval * Q * bool * dict Info) :=
  self <~ get ;;
  if negb (initialized self)
  then raise (APIUsageError "step() called before reset()")
  else if done self
  then raise (APIUsageError "step() called after environment is done")
  else
    let action := actions (postprocessor_of self) action in
    (if py_debug
     then sp <~ action_space ;;
          if negb (space_contains sp action)
          then raise (ValueError "Action not in space")
          else ret tt
     else ret tt) ;;;
    self <~ get ;;
    flat <~ lift (getattr "flat_action_space" (flat_action_space (cache self))) ;;
    leaves <~ lift (split action flat false) ;;
    let action := cext_unflatten leaves in
    let (e, out) := gym_env_step (env self) action in
    let '(ob, reward, done, info) := out in
    modify (set_env e) ;;;
    modify (fun self => set_flags (initialized self) done self) ;;;
    r <~ lift (postprocess_and_flatten ob (postprocessor_of self) reward done info) ;;
    let '(processed_ob, single_reward, single_done, single_info) := r in
    (if py_debug
     then sp <~ observation_space ;;
          if negb (space_contains sp processed_ob)
          then raise (ValueError "Observation not in space")
          else ret tt
     else ret tt) ;;;
    ret (processed_ob, single_reward, single_done, single_info).

End Adapter.
End GymPufferEnv.

(* ------------------------------------------------------------------------- *)
(** ** The multi-agent adapter *)

Module PettingZooPufferEnv.
Section Adapter.

Context `{R : Runtime} `{E : !PettingZooEnvironment}.

Record t : Type := mk {
  env : PzEnv;
  initialized : bool;
  possible_agents : list string;
  teams : option teams_t;
  postprocessors : dict postprocessor;
  cache : space_cache
}.

Definition set_cache (c : space_cache) (self : t) : t :=
  mk (env self) (initialized self) (possible_agents self) (teams self)
    (postprocessors self) c.

Definition set_env (e : PzEnv) (self : t) : t :=
  mk e (initialized self) (possible_agents self) (teams self)
    (postprocessors self) (cache self).

Definition set_initialized (i : bool) (self : t) : t :=
  mk (env self) i (possible_agents self) (teams self)
    (postprocessors self) (cache self).

Definition on_cache {A : Type} (m : M space_cache A) : M t A :=
  fun self => let (c, r) := m (cache self) in (set_cache c self, r).

(** The [agents] and [done] properties. *)
Definition agents (self : t) : list string := env_agents (env self).

Definition done (self : t) : bool := length (agents self) =? 0.

Definition observation_space (agent : string) : M t leaf_space :=
  self <~ get ;;
  if negb (mem agent (possible_agents self))
  then raise (InvalidAgentError agent (possible_agents self))
  else
    obs_space <~ lift (match teams self with
                       | Some teams =>
                           team <- getitem teams agent ;;
                           Ok (make_team_space (env_observation_space (env self)) team)
                       | None => Ok (env_observation_space (env self) agent)
                       end) ;;
    pp <~ lift (getitem (postprocessors self) agent) ;;
    on_cache (cache_observation_space obs_space pp).

Definition action_space (agent : string) : M t leaf_space :=
  self <~ get ;;
  if negb (mem agent (possible_agents self))
  then raise (InvalidAgentError agent (possible_agents self))
  else
    atn_space <~ lift (match teams self with
                       | Some teams =>
                           team <- getitem teams agent ;;
                           Ok (make_team_space (env_action_space (env self)) team)
                       | None => Ok (env_action_space (env self) agent)
                       end) ;;
    on_cache (cache_action_space true atn_space).

Definition init (env : option PzEnv) (env_creator : option (unit -> PzEnv))
  (postprocessor_cls : PzEnv -> postprocessor) (teams : option teams_t)
  : result t :=
  e <- make_object env env_creator ;;
  let possible_agents := match teams with
                         | None => env_possible_agents e
                         | Some teams => dkeys teams
                         end in
  let postprocessors :=
    dict_of (map (fun agent => (agent, postprocessor_cls e)) possible_agents) in
  let self := mk e false possible_agents teams postprocessors empty_cache in
  first <- getitem_list possible_agents 0 ;;
  match (observation_space first ;;; action_space first) self with
  | (self, Ok _) => Ok self
  | (_, Raise e) => Raise e
  end.

Definition reset (seed : option Z) : M t (dict pyval) :=
  self <~ get ;;
  let (e, obs) := env_reset (env self) seed in
  modify (set_env e) ;;;
  modify (set_initialized true) ;;;
  obs <~ lift (match teams self with
               | Some teams =>
                   g <- group_into_teams py_debug teams [obs] ;;
                   match g with
                   | GroupedOne team_data =>
                       Ok (map (fun kv => (fst kv, PyDict (snd kv))) team_data)
                   | GroupedMany _ => Raise (TypeError "list indices must be integers")
                   end
               | None => Ok obs
               end) ;;
  lift (for_each (fun postprocessed_obs agent =>
                    ob <- getitem obs agent ;;
                    pp <- getitem (postprocessors self) agent ;;
                    flat_ob <- postprocess_and_flatten_reset ob pp ;;
                    Ok (dset agent flat_ob postprocessed_obs))
                 (possible_agents self) []).

Definition leaf_contains (sp : leaf_space) (v : pyobj) : bool :=
  match v with
  | PyLeaf x => space_contains sp x
  | _ => false
  end.

(** [step]. With a team configuration the call
    [ungroup_from_teams(self.teams, unpacked_actions)] passes two arguments
    to a function of one parameter and raises [TypeError], so the regrouping
    after [env.step] is only reached without teams, where it does nothing. *)
Definition step (acts : dict pyval)
  : M t (dict pyobj * dict Q * dict bool * dict (dict Info)) :=
  self <~ get ;;
  if negb (initialized self)
  then raise (APIUsageError "step() called before reset()")
  else if done self
  then raise (APIUsageError "step() called after environment is done")
  else
    (if py_debug
     then lift (for_each (fun (_ : unit) (item : string * pyval) =>
                            if negb (mem (fst item) (possible_agents self))
                            then Raise (InvalidAgentError (fst item) (agents self))
                            else Ok tt) acts tt)
     else ret tt) ;;;
    acts <~ lift (for_each (fun acts agent =>
                              pp <- getitem (postprocessors self) agent ;;
                              atn <- getitem acts agent ;;
                              Ok (dset agent (actions pp atn) acts))
                           (dkeys acts) acts) ;;
    (if py_debug then check_spaces space_contains acts action_space else ret tt) ;;;
    self <~ get ;;
    unpacked_actions <~
      lift (for_each (fun unpacked_actions (item : string * pyval) =>
                        if mem (fst item) (agents self)
                        then flat <- getattr "flat_action_space"
                                       (flat_action_space (cache self)) ;;
                             leaves <- split (snd item) flat false ;;
                             Ok (dset (fst item) (cext_unflatten leaves)
                                   unpacked_actions)
                        else Ok unpacked_actions) acts []) ;;
    match teams self with
    | Some _ =>
        raise (TypeError "ungroup_from_teams() takes 1 positional argument but 2 were given")
    | None =>
        let (e, out) := env_step (env self) unpacked_actions in
        let '(obs, rewards, dones, infos) := out in
        modify (set_env e) ;;;
        r <~ lift (for_each
                     (fun (st : dict pyobj * dict Q * dict bool * dict (dict Info))
                          agent =>
                        let '(obs, rewards, dones, infos) := st in
                        ob <- getitem obs agent ;;
                        pp <- getitem (postprocessors self) agent ;;
                        reward <- getitem rewards agent ;;
                        done <- getitem dones agent ;;
                        info <- getitem infos agent ;;
                        r <- postprocess_and_flatten ob pp reward done info ;;
                        let '(flat_ob, reward, done, info) := r in
                        Ok (dset agent (PyLeaf flat_ob) obs,
                            dset agent reward rewards,
                            dset agent done dones,
                            dset agent info infos))
                     (dkeys obs) (obs, rewards, dones, infos)) ;;
        let '(obs, rewards, dones, infos) := r in
        self <~ get ;;
        pad <~ lift (getattr "pad_observation" (pad_observation (cache self))) ;;
        let '(obs, rewards, dones, infos) :=
          pad_to_const_num_agents (env_possible_agents (env self))
            obs rewards dones infos (PyLeaf pad) in
        (if py_debug then check_spaces leaf_contains obs observation_space else ret tt) ;;;
        ret (obs, rewards, dones, infos)
    end.

End Adapter.
End PettingZooPufferEnv.

(* ------------------------------------------------------------------------- *)
(** ** Specification predicates *)

(** [out] is [data] padded over [agents] with [pad]: its keys are the agents
    in order, a present agent keeps its entry, a missing one gets [pad]. *)
Definition padded_from {V : Type} (data : dict V) (agents : list string)
  (pad : V) (out : dict V) : Prop :=
  dkeys out = first_occurrences agents /\
  (forall agent, In agent agents <-> dget agent out <> None) /\
  (forall agent v, In agent agents -> dget agent data = Some v ->
                   dget agent out = Some v) /\
  (forall agent, In agent agents -> dget agent data = None ->
                 dget agent out = Some pad).

(** The entries of [agent_data] for the members of [team], in team order. *)
Definition present {V : Type} (agent_data : dict V) (team : list string)
  : list (string * V) :=
  flat_map (fun agent_id =>
              match dget agent_id agent_data with
              | Some x => [(agent_id, x)]
              | None => []
              end) team.

(** The cardinalities that a categorical leaf contributes to the merged
    description; a leaf-range contributes none and is not categorical. *)
Definition is_categorical (e : leaf_space) : bool :=
  match e with
  | Discrete _ | MultiDiscrete _ => true
  | Box _ _ _ _ => false
  end.

Definition cardinalities (e : leaf_space) : list Z :=
  match e with
  | Discrete n => [n]
  | MultiDiscrete nvec => nvec
  | Box _ _ _ _ => []
  end.

(** A leaf value as a vector: its elements, their number and their dtype
    (a bare number is a length-1 vector). *)
Definition leaf_data (v : pyval) : list Q :=
  match v with
  | PyInt z => [inject_Z z]
  | PyFloat q => [q]
  | NdArray a => data a
  end.

Definition leaf_size (v : pyval) : nat :=
  match v with
  | NdArray a => size a
  | _ => 1
  end.

Definition leaf_dtype (v : pyval) : dtype :=
  match v with
  | PyInt _ => int64
  | PyFloat _ => float64
  | NdArray a => dtype_of a
  end.

Definition promote_all (t : dtype) (vs : list pyval) : dtype :=
  fold_left (fun t v => promote t (leaf_dtype v)) vs t.

(** The number of elements of a leaf, and of a whole flat leaf map. *)
Definition leaf_count (subspace : leaf_space) : nat :=
  np_prod (space_shape subspace).

Definition flat_size (flat_space : dict leaf_space) : nat :=
  list_sum (map leaf_count (dvalues flat_space)).

(** The shape in which [split] returns a leaf: a scalar shape [()] becomes
    [(1,)]. *)
Definition returned_shape (shp : list nat) : list nat :=
  match shp with
  | [] => [1]
  | _ => shp
  end.

(** What unbatched [split] decodes for one leaf from the elements [xs] of the
    flat vector, starting at [ptr]; and for the leaves of a map in order. *)
Definition decode_leaf (xs : list Q) (ptr : nat) (subspace : leaf_space)
  : pyval :=
  let chunk := firstn (leaf_count subspace) (skipn ptr xs) in
  match subspace with
  | Discrete _ => PyInt (Qtrunc (hd 0%Q chunk))
  | _ => NdArray (mk_ndarray (returned_shape (space_shape subspace))
                    (space_dtype subspace)
                    (map (cast (space_dtype subspace)) chunk))
  end.

Fixpoint decode (xs : list Q) (ptr : nat) (items : list (string * leaf_space))
  : list (string * pyval) :=
  match items with
  | [] => []
  | (key, subspace) :: rest =>
      (key, decode_leaf xs ptr subspace)
      :: decode xs (ptr + leaf_count subspace) rest
  end.

(** *** Conforming samples and the round trip *)

Definition forallb2 {A B : Type} (f : A -> B -> bool)
  : list A -> list B -> bool :=
  fix all2 (l1 : list A) (l2 : list B) : bool :=
    match l1, l2 with
    | [], [] => true
    | a :: l1', b :: l2' => f a b && all2 l1' l2'
    | _, _ => false
    end.

Definition dtype_eqb (a b : dtype) : bool :=
  match a, b with
  | int64, int64 | float32, float32 | float64, float64 => true
  | _, _ => false
  end.

Fixpoint nodupb (l : list string) : bool :=
  match l with
  | [] => true
  | k :: rest => negb (mem k rest) && nodupb rest
  end.

(** An element of an integer array is the rational [z # 1]. *)
Definition integral (q : Q) : bool := Pos.eqb (Qden q) 1.

Definition elements_ok (typ : dtype) (xs : list Q) : bool :=
  match typ with
  | int64 => forallb integral xs
  | float32 | float64 => true
  end.

(** The structural part of gym's [contains]: a leaf-range holds an array of
    its shape and dtype, a categorical leaf a plain integer, a
    vector-categorical leaf an integer vector of its length. The bounds of a
    leaf-range and the ranges of the categorical choices play no part in the
    layout and are not examined. *)
Definition leaf_conforms (l : leaf_space) (v : pyval) : bool :=
  match l, v with
  | Box _ _ shp typ, NdArray a =>
      shape_eqb (shape a) shp && dtype_eqb (dtype_of a) typ
      && (length (data a) =? np_prod shp) && elements_ok typ (data a)
  | Discrete _, PyInt _ => true
  | MultiDiscrete nvec, NdArray a =>
      shape_eqb (shape a) [length nvec] && dtype_eqb (dtype_of a) int64
      && (length (data a) =? np_prod [length nvec])
      && elements_ok int64 (data a)
  | _, _ => false
  end.

(** A sample conforms to a schema when it has the schema's structure (the
    same number of tuple children, the same mapping keys in the same order)
    and every leaf conforms. *)
Fixpoint conforms (s : space) (x : pyobj) {struct s} : bool :=
  match s, x with
  | Leaf l, PyLeaf v => leaf_conforms l v
  | Tuple elems, PyTuple xs => forallb2 (fun e x => conforms e x) elems xs
  | Dict items, PyDict xitems =>
      forallb2 (fun (kv : string * space) (kx : string * pyobj) =>
                  String.eqb (fst kv) (fst kx) && conforms (snd kv) (snd kx))
               items xitems
  | _, _ => false
  end.

(** The keys of every mapping container are distinct (it is backed by a
    dictionary). *)
Fixpoint wf_space (s : space) : bool :=
  match s with
  | Leaf _ => true
  | Tuple elems => forallb wf_space elems
  | Dict items =>
      nodupb (map fst items) && forallb (fun kv => wf_space (snd kv)) items
  end.

(** No two leaves of the schema have the same flat key. *)
Definition distinct_keys (s : space) : bool := nodupb (spec_keys s).

(** The (path, value) pairs of a sample, in the order of the traversal. *)
Fixpoint sample_items (x : pyobj) : list (string * pyval) :=
  match x with
  | PyLeaf v => [("V", v)]
  | PyTuple elems =>
      enumerate_flat_map
        (fun idx elem => map (under (tuple_key "" idx)) (sample_items elem))
        elems 0
  | PyDict items =>
      flat_map
        (fun kv => map (under (dict_key "" (fst kv))) (sample_items (snd kv)))
        items
  end.

Fixpoint sample_leaves (x : pyobj) : list pyval :=
  match x with
  | PyLeaf v => [v]
  | PyTuple elems => flat_map sample_leaves elems
  | PyDict items => flat_map (fun kv => sample_leaves (snd kv)) items
  end.

(** A leaf as the round trip returns it: an array of scalar shape [()] comes
    back with shape [(1,)]; and a sample with its leaves so returned. *)
Definition returned_leaf (v : pyval) : pyval :=
  match v with
  | NdArray a =>
      NdArray (mk_ndarray (returned_shape (shape a)) (dtype_of a) (data a))
  | _ => v
  end.

Fixpoint as_returned (x : pyobj) : pyobj :=
  match x with
  | PyLeaf v => PyLeaf (returned_leaf v)
  | PyTuple elems => PyTuple (map as_returned elems)
  | PyDict items => PyDict (map (fun kv => (fst kv, as_returned (snd kv))) items)
  end.

(** The schemas on which the flat form can be split again: two leaves or
    more, or one leaf that is an array with at least one dimension. *)
Definition splittable (s : space) : bool :=
  match spec_items s with
  | [] => false
  | [(_, l)] => match space_shape l with [] => false | _ => true end
  | _ => true
  end.

(** Flatten, concatenate, split without batch, unflatten: [python_unflatten]
    reads its first argument by position, so it is given the values of the
    leaf map that [split] returns, in their order. *)
Definition round_trip (s : space) (sample : pyobj) : result pyobj :=
  flat <- concatenate (flatten sample) ;;
  leaves <- split flat (flatten_space s) false ;;
  python_unflatten (dvalues leaves) s.

(** The leaves of a conforming sample, key by key. *)
Definition conforming_items (items : list (string * leaf_space))
  (sitems : list (string * pyval)) : Prop :=
  Forall2 (fun kl kv => fst kl = fst kv /\ leaf_conforms (snd kl) (snd kv) = true)
          items sitems.

(** *** The common dtype and the elements that promotion keeps *)

(** The dtype of a concatenation in words: the dtype of the arrays when they
    all have the same one, float64 when they differ. *)
Definition common_dtype (ts : list dtype) : dtype :=
  if forallb (dtype_eqb int64) ts then int64
  else if forallb (dtype_eqb float32) ts then float32
  else float64.

(** The elements of a leaf as they stand in a flat vector of dtype [typ]. *)
Definition promoted (typ : dtype) (v : pyval) : list Q :=
  map (promote_element (leaf_dtype v) typ) (leaf_data v).

(** An integer of the int64 range: [np.array([z])] of a bare Python integer
    has dtype int64 exactly for these. *)
Definition fits_int64 (z : Z) : bool :=
  ((- 2 ^ 63 <=? z) && (z <? 2 ^ 63))%Z.

Definition bare_int_fits (v : pyval) : bool :=
  match v with
  | PyInt z => fits_int64 z
  | _ => true
  end.

(** An integer that is a float64 number: its magnitude has at most 53
    significant bits (every integer up to 2^53 in magnitude, and the longer
    ones whose low bits are zero). *)
Definition float64_integer (z : Z) : bool :=
  let a := Z.abs z in
  ((a <? 2 ^ 53) || (a mod 2 ^ (Z.log2 a - 52) =? 0))%Z.

(** A leaf whose elements stand unchanged in a flat vector of dtype [typ]:
    nothing is asked of a floating leaf; the elements of an integer leaf are
    int64 numbers and, when the vector is float64, float64 numbers too. *)
Definition leaf_exact (typ : dtype) (v : pyval) : bool :=
  match leaf_dtype v with
  | int64 =>
      forallb (fun q => integral q && fits_int64 (Qtrunc q)
                        && match typ with
                           | float64 => float64_integer (Qtrunc q)
                           | _ => true
                           end)
              (leaf_data v)
  | _ => true
  end.

(** A sample whose leaves all stand unchanged in its flat vector. *)
Definition exact_sample (x : pyobj) : bool :=
  let vals := sample_leaves x in
  forallb (leaf_exact (common_dtype (map leaf_dtype vals))) vals.

(** *** The adapters *)

(** A computation of the single-agent adapter that only assigns the cached
    space attributes. *)
Definition gym_frame `{R : Runtime} `{E : !GymEnvironment} {A : Type}
  (m : M GymPufferEnv.t A) : Prop :=
  forall self self' r,
    m self = (self', r) ->
    GymPufferEnv.initialized self' = GymPufferEnv.initialized self /\
    GymPufferEnv.done self' = GymPufferEnv.done self /\
    GymPufferEnv.env self' = GymPufferEnv.env self /\
    GymPufferEnv.postprocessor_of self' = GymPufferEnv.postprocessor_of self.

(** The same for the multi-agent adapter. *)
Definition pz_frame `{R : Runtime} `{E : !PettingZooEnvironment} {A : Type}
  (m : M PettingZooPufferEnv.t A) : Prop :=
  forall self self' r,
    m self = (self', r) ->
    exists c, self' = PettingZooPufferEnv.set_cache c self.

(** A result, and a computation in every state, that is not a usage
    error. *)
Definition not_usage {A : Type} (r : result A) : Prop :=
  forall msg, r <> Raise (APIUsageError msg).

Definition no_usage_error {S A : Type} (m : M S A) : Prop :=
  forall s, not_usage (snd (m s)).

(** The first key of an actions mapping that is not a possible agent. *)
Definition first_unknown (possible_agents keys : list string) : option string :=
  find (fun k => negb (mem k possible_agents)) keys.

(** *** A concrete environment for the examples *)

(** A stand-in for gym's [sample]: the all-zero sample of a schema. *)
Fixpoint zero_sample (s : space) : pyobj :=
  match s with
  | Leaf (Box _ _ shp typ) =>
      PyLeaf (NdArray (mk_ndarray shp typ (repeat 0%Q (np_prod shp))))
  | Leaf (Discrete _) => PyLeaf (PyInt 0)
  | Leaf (MultiDiscrete nvec) =>
      PyLeaf (NdArray (mk_ndarray [length nvec] int64 (repeat 0%Q (length nvec))))
  | Tuple elems => PyTuple (map zero_sample elems)
  | Dict items => PyDict (map (fun kv => (fst kv, zero_sample (snd kv))) items)
  end.

Definition demo_runtime (debug : bool) : Runtime :=
  {| Info := Z;
     py_debug := debug;
     cext_unflatten := fun leaves =>
       match leaves with
       | [(_, v)] => PyLeaf v
       | _ => PyDict (map (fun kv => (fst kv, PyLeaf (snd kv))) leaves)
       end;
     space_sample := zero_sample;
     space_contains := fun _ _ => true;
     get_dtype_bounds := fun _ => (NegInf, PosInf) |}.

Definition demo_obs_space : space := Leaf (Box NegInf PosInf [2] float32).
Definition demo_atn_space : space := Leaf (Discrete 3).

(** A single-agent environment that counts its steps and ends the episode at
    the first step. *)
Definition demo_gym (debug : bool) : @GymEnvironment (demo_runtime debug) :=
  {| GymEnv := nat;
     gym_observation_space := fun _ => demo_obs_space;
     gym_action_space := fun _ => demo_atn_space;
     gym_seed := fun e _ => (e, Ok tt);
     gym_reset := fun e => (e, Ok (zero_sample demo_obs_space));
     gym_reset_seed := fun e _ => (e, Ok (zero_sample demo_obs_space));
     gym_env_step := fun e _ =>
       (S e, (zero_sample demo_obs_space, 1%Q, true, [])) |}.

(** A single-agent environment of the old seeding interface whose reset
    fails: its state is the seed that it was given last. *)
Definition failing_gym (debug : bool) : @GymEnvironment (demo_runtime debug) :=
  {| GymEnv := Z;
     gym_observation_space := fun _ => demo_obs_space;
     gym_action_space := fun _ => demo_atn_space;
     gym_seed := fun e seed => (match seed with Some z => z | None => e end, Ok tt);
     gym_reset := fun e => (e, Raise (ValueError "reset failed"));
     gym_reset_seed := fun e _ => (e, Raise (ValueError "reset failed"));
     gym_env_step := fun e _ =>
       (e, (zero_sample demo_obs_space, 1%Q, false, [])) |}.

(** A two-agent environment: its state is the list of active agents and the
    number of steps taken; the first step ends the episode for both. *)
Record demo_env : Type := mk_demo {
  demo_agents : list string;
  demo_steps : nat
}.

Definition demo_pz (debug : bool) : @PettingZooEnvironment (demo_runtime debug) :=
  {| PzEnv := demo_env;
     env_possible_agents := fun _ => ["a"; "b"];
     env_agents := demo_agents;
     env_observation_space := fun _ _ => demo_obs_space;
     env_action_space := fun _ _ => demo_atn_space;
     env_reset := fun e _ =>
       (mk_demo ["a"; "b"] (demo_steps e),
        [("a", zero_sample demo_obs_space); ("b", zero_sample demo_obs_space)]);
     env_step := fun e _ =>
       (mk_demo [] (S (demo_steps e)),
        ([("a", zero_sample demo_obs_space); ("b", zero_sample demo_obs_space)],
         [("a", 1%Q); ("b", 1%Q)],
         [("a", true); ("b", true)],
         [("a", []); ("b", [])])) |}.

(** *** Grouping, as a mapping over the teams *)

(** The grouped mapping of one per-agent mapping: one entry per team, holding
    the entries of the team's members that the mapping has. *)
Definition grouped_of {V : Type} (teams : teams_t) (agent_data : dict V)
  : dict (dict V) :=
  dict_of (map (fun item => (fst item, dict_of (present agent_data (snd item))))
               teams).

(** The agent set of a per-agent mapping is the set of the team members. *)
Definition same_agents {V : Type} (teams : teams_t) (agent_data : dict V)
  : bool :=
  set_eqb (dkeys agent_data) (team_members teams).

(** *** Mapping keys without a dot *)

Fixpoint dot_free (k : string) : bool :=
  match k with
  | EmptyString => true
  | String c rest => negb (Ascii.eqb c ".") && dot_free rest
  end.

(** No mapping key of the schema contains the character that ends a path
    component. *)
Fixpoint plain_keys (s : space) : bool :=
  match s with
  | Leaf _ => true
  | Tuple elems => forallb plain_keys elems
  | Dict items =>
      forallb (fun kv => dot_free (fst kv) && plain_keys (snd kv)) items
  end.

(** *** Batched decoding and well-formed samples *)

(** What batched [split] decodes for one leaf from the rows of a
    [batch] by [n] array: the same columns of every row, under the leading
    batch dimension, with the dtype of the array. *)
Definition decode_leaf_batched (batch n : nat) (typ : dtype) (xs : list Q)
  (ptr : nat) (subspace : leaf_space) : pyval :=
  NdArray (mk_ndarray (batch :: returned_shape (space_shape subspace)) typ
             (concat (map (fun row => firstn (leaf_count subspace) (skipn ptr row))
                          (chunks n batch xs)))).

Fixpoint decode_batched (batch n : nat) (typ : dtype) (xs : list Q) (ptr : nat)
  (items : list (string * leaf_space)) : list (string * pyval) :=
  match items with
  | [] => []
  | (key, subspace) :: rest =>
      (key, decode_leaf_batched batch n typ xs ptr subspace)
      :: decode_batched batch n typ xs (ptr + leaf_count subspace) rest
  end.




(* ========================================================================= *)
(** * Properties *)

(* ------------------------------------------------------------------------- *)
(** ** Dictionaries *)

Lemma mem_In (k : string) (l : list string) : mem k l = true <-> In k l.
Proof.
  unfold mem. rewrite existsb_exists. split.
  - intros [x [Hin Heq]]. apply String.eqb_eq in Heq. now subst.
  - intros Hin. exists k. split; [assumption | apply String.eqb_refl].
Qed.

Lemma mem_false (k : string) (l : list string) : mem k l = false <-> ~ In k l.
Proof.
  rewrite <- mem_In. destruct (mem k l); split; intros; congruence.
Qed.

Lemma mem_app (k : string) (l1 l2 : list string) :
  mem k (l1 ++ l2) = mem k l1 || mem k l2.
Proof. unfold mem. apply existsb_app. Qed.

Section DictFacts.

Variable V : Type.
Implicit Types (d : dict V) (k : string) (v : V) (kvs : list (string * V)).

Lemma dget_dset k k' v d :
  dget k (dset k' v d) = if String.eqb k k' then Some v else dget k d.
Proof.
  induction d as [|[k0 v0] d IH]; simpl.
  - reflexivity.
  - destruct (String.eqb k' k0) eqn:E; simpl.
    + apply String.eqb_eq in E. subst k0.
      destruct (String.eqb k k'); reflexivity.
    + rewrite IH. destruct (String.eqb k k0) eqn:E0; [|reflexivity].
      apply String.eqb_eq in E0. subst k0.
      rewrite String.eqb_sym in E. now rewrite E.
Qed.

Lemma dget_dset_same k v d : dget k (dset k v d) = Some v.
Proof. rewrite dget_dset. now rewrite String.eqb_refl. Qed.

Lemma dget_None k d : dget k d = None <-> ~ In k (dkeys d).
Proof.
  induction d as [|[k0 v0] d IH]; simpl.
  - tauto.
  - destruct (String.eqb k k0) eqn:E.
    + apply String.eqb_eq in E. subst. split; [discriminate | tauto].
    + apply String.eqb_neq in E. rewrite IH. split.
      * intros H [H0|H0]; [congruence | tauto].
      * tauto.
Qed.

Lemma dget_Some_In k v d : dget k d = Some v -> In (k, v) d.
Proof.
  induction d as [|[k0 v0] d IH]; simpl; [discriminate|].
  destruct (String.eqb k k0) eqn:E.
  - apply String.eqb_eq in E. intros [= ->]. subst. now left.
  - intros H. right. auto.
Qed.

Lemma dget_In_keys k d : dget k d <> None <-> In k (dkeys d).
Proof.
  rewrite dget_None. destruct (in_dec string_dec k (dkeys d)); tauto.
Qed.

Lemma dkeys_dset k v d :
  dkeys (dset k v d) = if mem k (dkeys d) then dkeys d else dkeys d ++ [k].
Proof.
  induction d as [|[k0 v0] d IH]; simpl; [reflexivity|].
  destruct (String.eqb k k0) eqn:E; simpl; [reflexivity|].
  rewrite IH. unfold dkeys. now destruct (mem k (map fst d)).
Qed.

Lemma dset_fresh k v d : ~ In k (dkeys d) -> dset k v d = d ++ [(k, v)].
Proof.
  induction d as [|[k0 v0] d IH]; simpl; intros H; [reflexivity|].
  destruct (String.eqb k k0) eqn:E.
  - apply String.eqb_eq in E. subst. tauto.
  - f_equal. apply IH. tauto.
Qed.

Lemma dmodify_dset k (f : V -> V) v d :
  dmodify k f (dset k v d) = dset k (f v) d.
Proof.
  induction d as [|[k0 v0] d IH]; simpl.
  - now rewrite String.eqb_refl.
  - destruct (String.eqb k k0) eqn:E; simpl; rewrite E; [reflexivity|].
    now rewrite IH.
Qed.

Lemma dset_dset k v v' d : dset k v' (dset k v d) = dset k v' d.
Proof.
  induction d as [|[k0 v0] d IH]; simpl.
  - now rewrite String.eqb_refl.
  - destruct (String.eqb k k0) eqn:E; simpl; rewrite E; [reflexivity|].
    now rewrite IH.
Qed.

Lemma dkeys_dupdate kvs : forall d,
  dkeys (dupdate kvs d) = dkeys d ++ new_keys (dkeys d) (map fst kvs).
Proof.
  unfold dupdate.
  induction kvs as [|[k v] kvs IH]; intros d; simpl.
  - now rewrite app_nil_r.
  - rewrite IH, dkeys_dset. destruct (mem k (dkeys d)); [reflexivity|].
    now rewrite <- app_assoc.
Qed.

Lemma dupdate_app kvs1 kvs2 d :
  dupdate (kvs1 ++ kvs2) d = dupdate kvs2 (dupdate kvs1 d).
Proof. unfold dupdate. apply fold_left_app. Qed.

Lemma dget_dupdate k kvs : forall d,
  dget k (dupdate kvs d) =
  match dget k (rev kvs) with
  | Some v => Some v
  | None => dget k d
  end.
Proof.
  induction kvs as [|[k0 v0] kvs IH] using rev_ind; intros d.
  - reflexivity.
  - rewrite dupdate_app, rev_app_distr. simpl.
    rewrite dget_dset. destruct (String.eqb k k0); [reflexivity | apply IH].
Qed.

Lemma dupdate_fresh kvs : forall d,
  NoDup (dkeys d ++ map fst kvs) -> dupdate kvs d = d ++ kvs.
Proof.
  induction kvs as [|[k v] kvs IH]; intros d H; simpl.
  - now rewrite app_nil_r.
  - unfold dupdate in *. simpl.
    assert (Hk : ~ In k (dkeys d)).
    { apply NoDup_remove_2 in H. intros Hin. apply H. apply in_or_app. now left. }
    rewrite dset_fresh by assumption. rewrite IH.
    + now rewrite <- app_assoc.
    + unfold dkeys. rewrite map_app. simpl. rewrite <- app_assoc. exact H.
Qed.

Lemma In_dupdate k v kvs : forall d,
  In (k, v) (dupdate kvs d) -> In (k, v) d \/ In (k, v) kvs.
Proof.
  induction kvs as [|[k0 v0] kvs IH] using rev_ind; intros d H.
  - now left.
  - rewrite dupdate_app in H. simpl in H.
    assert (Hs : forall d', In (k, v) (dset k0 v0 d') ->
                            In (k, v) d' \/ (k, v) = (k0, v0)).
    { clear. induction d' as [|[k1 v1] d' IH]; simpl.
      - intros [H|[]]. right. now symmetry.
      - destruct (String.eqb k0 k1) eqn:E; simpl.
        + apply String.eqb_eq in E. subst k1.
          intros [H|H]; [right; now symmetry | left; now right].
        + intros [H|H]; [left; now left|].
          destruct (IH H); [left; now right | now right]. }
    destruct (Hs _ H) as [H1|H1].
    + destruct (IH _ H1); [now left | right; apply in_or_app; now left].
    + right. apply in_or_app. right. left. now symmetry.
Qed.

End DictFacts.

Lemma new_keys_In (l : list string) : forall seen k,
  In k (new_keys seen l) <-> In k l /\ ~ In k seen.
Proof.
  induction l as [|x l IH]; intros seen k; simpl.
  - tauto.
  - destruct (mem x seen) eqn:E.
    + apply mem_In in E. rewrite IH. split.
      * tauto.
      * intros [[H|H] Hn]; [subst; tauto | tauto].
    + apply mem_false in E. simpl. rewrite IH. rewrite in_app_iff. simpl.
      destruct (string_dec x k) as [->|Hne].
      * tauto.
      * split.
        -- intros [H|[H Hn]]; [congruence|]. tauto.
        -- intros [[H|H] Hn]; [congruence|]. right. split; [assumption|].
           intros [H0|[H0|[]]]; congruence.
Qed.

Lemma new_keys_NoDup (l : list string) : forall seen, NoDup (new_keys seen l).
Proof.
  induction l as [|x l IH]; intros seen; simpl.
  - constructor.
  - destruct (mem x seen) eqn:E; [apply IH|].
    constructor; [|apply IH].
    rewrite new_keys_In. intros [_ H]. apply H. apply in_or_app. right. now left.
Qed.

Lemma new_keys_fresh (l : list string) : forall seen,
  NoDup (seen ++ l) -> new_keys seen l = l.
Proof.
  induction l as [|x l IH]; intros seen H; simpl; [reflexivity|].
  assert (Hx : ~ In x seen).
  { apply NoDup_remove_2 in H. intros Hin. apply H. apply in_or_app. now left. }
  apply mem_false in Hx. rewrite Hx. f_equal. apply IH.
  rewrite <- app_assoc. exact H.
Qed.

Lemma first_occurrences_In (l : list string) (k : string) :
  In k (first_occurrences l) <-> In k l.
Proof. unfold first_occurrences. rewrite new_keys_In. simpl. tauto. Qed.

Lemma first_occurrences_NoDup (l : list string) : NoDup (first_occurrences l).
Proof. apply new_keys_NoDup. Qed.

Lemma first_occurrences_id (l : list string) :
  NoDup l -> first_occurrences l = l.
Proof. intros H. now apply new_keys_fresh. Qed.

Lemma dict_of_keys (V : Type) (kvs : list (string * V)) :
  dkeys (dict_of kvs) = first_occurrences (map fst kvs).
Proof. unfold dict_of. now rewrite dkeys_dupdate. Qed.

Lemma dict_of_wf (V : Type) (kvs : list (string * V)) : wf_dict (dict_of kvs).
Proof. unfold wf_dict. rewrite dict_of_keys. apply first_occurrences_NoDup. Qed.

Lemma dict_of_fresh (V : Type) (kvs : list (string * V)) :
  NoDup (map fst kvs) -> dict_of kvs = kvs.
Proof. intros H. unfold dict_of. now rewrite dupdate_fresh. Qed.

Lemma nodupb_NoDup (l : list string) : nodupb l = true -> NoDup l.
Proof.
  induction l as [|k l IH]; simpl; intros H; constructor.
  - apply andb_true_iff in H. destruct H as [H _].
    apply mem_false. now destruct (mem k l).
  - apply IH. apply andb_true_iff in H. tauto.
Qed.

(* ------------------------------------------------------------------------- *)
(** ** Padding *)

Lemma dget_graph (V : Type) (f : string -> V) (k : string) (l : list string) :
  dget k (map (fun a => (a, f a)) l) = if mem k l then Some (f k) else None.
Proof.
  induction l as [|a l IH]; simpl; [reflexivity|].
  destruct (String.eqb k a) eqn:E; simpl.
  - apply String.eqb_eq in E. now subst.
  - exact IH.
Qed.

Lemma mem_rev (k : string) (l : list string) : mem k (rev l) = mem k l.
Proof.
  destruct (mem k l) eqn:E.
  - apply mem_In. apply in_rev. rewrite rev_involutive. now apply mem_In.
  - apply mem_false. rewrite <- in_rev. now apply mem_false.
Qed.

Lemma pad_agent_data_get (V : Type) (data : dict V) (agents : list string)
  (pad_value : V) (agent : string) :
  dget agent (pad_agent_data data agents pad_value) =
  if mem agent agents
  then Some (match dget agent data with Some v => v | None => pad_value end)
  else None.
Proof.
  unfold pad_agent_data, dict_of. rewrite dget_dupdate. simpl.
  rewrite <- map_rev, dget_graph, mem_rev.
  now destruct (mem agent agents).
Qed.

Lemma pad_agent_data_keys (V : Type) (data : dict V) (agents : list string)
  (pad_value : V) :
  dkeys (pad_agent_data data agents pad_value) = first_occurrences agents.
Proof.
  unfold pad_agent_data. rewrite dict_of_keys, map_map. simpl.
  now rewrite map_id.
Qed.

Lemma pad_agent_data_padded (V : Type) (data : dict V) (agents : list string)
  (pad_value : V) :
  padded_from data agents pad_value (pad_agent_data data agents pad_value).
Proof.
  unfold padded_from. split; [|split; [|split]].
  - apply pad_agent_data_keys.
  - intros agent. rewrite pad_agent_data_get, <- mem_In.
    destruct (mem agent agents); split; congruence.
  - intros agent v Hin Hv. rewrite pad_agent_data_get.
    apply mem_In in Hin. now rewrite Hin, Hv.
  - intros agent Hin Hv. rewrite pad_agent_data_get.
    apply mem_In in Hin. now rewrite Hin, Hv.
Qed.

(** C4. [pad_to_const_num_agents] returns four mappings whose keys are the
    possible agents, in their order; in each of them an agent missing from
    the input gets the pad value (the pad observation, reward 0, done false,
    the empty info record) and an agent present in the input keeps its
    entry. *)
Theorem pad_to_const_num_agents_correct :
  forall (Obs Info : Type) (agents : list string) (obs : dict Obs)
         (rewards : dict Q) (dones : dict bool) (infos : dict (dict Info))
         (pad_obs : Obs),
  exists padded_obs rewards' dones' infos',
    pad_to_const_num_agents agents obs rewards dones infos pad_obs
    = (padded_obs, rewards', dones', infos') /\
    padded_from obs agents pad_obs padded_obs /\
    padded_from rewards agents 0%Q rewards' /\
    padded_from dones agents false dones' /\
    padded_from infos agents [] infos'.
Proof.
  intros. unfold pad_to_const_num_agents.
  do 4 eexists. split; [reflexivity|].
  repeat split; apply pad_agent_data_padded.
Qed.

(** The scenario of the specification: possible agents p1, p2, p3 and an
    input with p1 and p3 only. *)
Example pad_three_agents :
  pad_to_const_num_agents ["p1"; "p2"; "p3"]
    [("p1", 11%Z); ("p3", 33%Z)]
    [("p1", 1%Q); ("p3", 3%Q)]
    [("p1", true); ("p3", false)]
    [("p1", [("k", 5%Z)]); ("p3", [])]
    0%Z
  = ([("p1", 11%Z); ("p2", 0%Z); ("p3", 33%Z)],
     [("p1", 1%Q); ("p2", 0%Q); ("p3", 3%Q)],
     [("p1", true); ("p2", false); ("p3", false)],
     [("p1", [("k", 5%Z)]); ("p2", []); ("p3", [])]).
Proof. reflexivity. Qed.

(* ------------------------------------------------------------------------- *)
(** ** Teams *)

Lemma set_eqb_spec (l1 l2 : list string) :
  set_eqb l1 l2 = true <-> (forall x, In x l1 <-> In x l2).
Proof.
  unfold set_eqb. rewrite andb_true_iff, !forallb_forall. split.
  - intros [H1 H2] x. split; intros H.
    + apply mem_In. now apply H1.
    + apply mem_In. now apply H2.
  - intros H. split; intros x Hx; apply mem_In; now apply H.
Qed.

Section TeamFacts.

Variable V : Type.
Implicit Types (agent_data : dict V) (teams : teams_t).

Lemma present_In agent_data team k v :
  In (k, v) (present agent_data team) <->
  In k team /\ dget k agent_data = Some v.
Proof.
  unfold present. rewrite in_flat_map. split.
  - intros [a [Ha Hin]]. destruct (dget a agent_data) eqn:E; simpl in Hin.
    + destruct Hin as [[= -> ->]|[]]. now split.
    + contradiction.
  - intros [Hk Hv]. exists k. split; [assumption|]. rewrite Hv. now left.
Qed.

Lemma group_team_inner agent_data team_id team : forall inner team_data,
  fold_left (fun team_data agent_id =>
               match dget agent_id agent_data with
               | Some x => dmodify team_id (dset agent_id x) team_data
               | None => team_data
               end) team (dset team_id inner team_data)
  = dset team_id (dupdate (present agent_data team) inner) team_data.
Proof.
  induction team as [|a team IH]; intros inner team_data; simpl.
  - reflexivity.
  - destruct (dget a agent_data) as [x|] eqn:E; simpl.
    + rewrite dmodify_dset. now rewrite IH.
    + apply IH.
Qed.

Lemma group_team_eq agent_data team_data item :
  group_team agent_data team_data item
  = dset (fst item) (dict_of (present agent_data (snd item))) team_data.
Proof.
  destruct item as [team_id team]. unfold group_team, dict_of. simpl.
  apply group_team_inner.
Qed.

Lemma group_all_eq agent_data teams : forall team_data,
  fold_left (group_team agent_data) teams team_data
  = dupdate (map (fun item => (fst item,
                               dict_of (present agent_data (snd item)))) teams)
            team_data.
Proof.
  induction teams as [|item teams IH]; intros team_data; simpl.
  - reflexivity.
  - rewrite IH, group_team_eq. reflexivity.
Qed.

Lemma ungroup_from_teams_eq (team_data : dict (dict V)) :
  ungroup_from_teams team_data = dict_of (concat (dvalues team_data)).
Proof.
  unfold ungroup_from_teams, dict_of.
  generalize (@nil (string * V)) as acc.
  induction (dvalues team_data) as [|team rest IH]; intros acc; simpl.
  - reflexivity.
  - rewrite dupdate_app. apply IH.
Qed.

(** What grouping one mapping returns when the debug check passes. *)
Lemma group_into_teams_one (debug : bool) teams agent_data :
  set_eqb (dkeys agent_data) (team_members teams) = true ->
  group_into_teams debug teams [agent_data]
  = Ok (GroupedOne
          (dict_of (map (fun item =>
                           (fst item, dict_of (present agent_data (snd item))))
                        teams))).
Proof.
  intros H. unfold group_into_teams. simpl. unfold group_one.
  rewrite H. rewrite andb_false_r. simpl.
  now rewrite group_all_eq.
Qed.

End TeamFacts.

(** C7. For a team configuration whose members are exactly the possible
    agents and a per-agent mapping whose keys are exactly the possible
    agents, grouping succeeds and ungrouping the grouped mapping gives back
    a dictionary equal to the mapping. *)
Theorem ungroup_group_inverse :
  forall (V : Type) (debug : bool) (teams : teams_t)
         (possible_agents : list string) (data : dict V),
    wf_dict teams ->
    set_eqb possible_agents (team_members teams) = true ->
    set_eqb (dkeys data) possible_agents = true ->
    exists team_data,
      group_into_teams debug teams [data] = Ok (GroupedOne team_data) /\
      dict_eq (ungroup_from_teams team_data) data /\
      wf_dict (ungroup_from_teams team_data).
Proof.
  intros V debug teams possible_agents data Hwf Hcover Hdata.
  rewrite set_eqb_spec in Hcover, Hdata.
  assert (Heq : set_eqb (dkeys data) (team_members teams) = true).
  { apply set_eqb_spec. intros x. now rewrite Hdata, Hcover. }
  eexists. split; [apply group_into_teams_one; exact Heq|].
  rewrite ungroup_from_teams_eq. split; [|apply dict_of_wf].
  set (grouped_items := map (fun item : string * list string =>
                         (fst item, dict_of (present data (snd item)))) teams).
  assert (Hfresh : dict_of grouped_items = grouped_items).
  { apply dict_of_fresh. unfold grouped_items. rewrite map_map. exact Hwf. }
  rewrite Hfresh.
  assert (Hvals : dvalues grouped_items
                  = map (fun team => dict_of (present data team)) (dvalues teams)).
  { unfold grouped_items, dvalues. now rewrite !map_map. }
  rewrite Hvals. clear Hfresh Hvals grouped_items.
  set (kvs := concat (map (fun team => dict_of (present data team)) (dvalues teams))).
  assert (Hsound : forall k v, In (k, v) kvs -> dget k data = Some v).
  { intros k v Hin. unfold kvs in Hin. apply in_concat in Hin.
    destruct Hin as [inner [Hinner Hin]]. apply in_map_iff in Hinner.
    destruct Hinner as [team [<- _]].
    apply In_dupdate in Hin. destruct Hin as [[]|Hin].
    now apply present_In in Hin. }
  assert (Hcomplete : forall k v, dget k data = Some v -> In k (dkeys kvs)).
  { intros k v Hv.
    assert (Hk : In k (team_members teams)).
    { apply Hcover, Hdata. apply dget_In_keys. congruence. }
    unfold team_members in Hk. apply in_concat in Hk.
    destruct Hk as [team [Hteam Hk]].
    unfold dkeys, kvs. rewrite concat_map, map_map. apply in_concat.
    exists (dkeys (dict_of (present data team))). split.
    - apply in_map_iff. now exists team.
    - rewrite dict_of_keys, first_occurrences_In.
      apply in_map_iff. exists (k, v). split; [reflexivity|].
      apply present_In. now split. }
  intros k. unfold dict_of. rewrite dget_dupdate. simpl.
  destruct (dget k (rev kvs)) as [v|] eqn:E.
  - apply dget_Some_In in E. apply in_rev in E. symmetry. now apply Hsound.
  - destruct (dget k data) as [v|] eqn:E'; [|reflexivity].
    exfalso. apply dget_None in E. apply E.
    unfold dkeys. rewrite map_rev. apply in_rev. rewrite rev_involutive.
    now apply (Hcomplete k v).
Qed.

Lemma ungroup_group_inverse_witness :
  let teams := [("red", ["a"; "b"]); ("blue", ["c"])] in
  let data := [("c", 3%Z); ("a", 1%Z); ("b", 2%Z)] in
  exists team_data,
    group_into_teams true teams [data] = Ok (GroupedOne team_data) /\
    dict_eq (ungroup_from_teams team_data) data /\
    wf_dict (ungroup_from_teams team_data).
Proof.
  apply (@ungroup_group_inverse Z true
           [("red", ["a"; "b"]); ("blue", ["c"])] ["a"; "b"; "c"]
           [("c", 3%Z); ("a", 1%Z); ("b", 2%Z)]).
  - unfold wf_dict. simpl.
    repeat constructor; simpl; intuition discriminate.
  - reflexivity.
  - reflexivity.
Defined.

(* ------------------------------------------------------------------------- *)
(** ** The discrete merge *)

Lemma multidiscrete_loop (l : list leaf_space) : forall lens,
  for_each multidiscrete_leaf l lens =
  if forallb is_categorical l
  then Ok (lens ++ flat_map cardinalities l)
  else Raise (ValueError "Invalid action space").
Proof.
  induction l as [|e l IH]; intros lens; simpl.
  - now rewrite app_nil_r.
  - destruct e as [low high shp typ|n|nvec]; simpl.
    + reflexivity.
    + rewrite IH. destruct (forallb is_categorical l); [|reflexivity].
      now rewrite <- app_assoc.
    + rewrite IH. destruct (forallb is_categorical l); [|reflexivity].
      now rewrite <- app_assoc.
Qed.

Lemma convert_to_multidiscrete_eq (flat_space : dict leaf_space) :
  convert_to_multidiscrete flat_space =
  if forallb is_categorical (dvalues flat_space)
  then Ok (MultiDiscrete (flat_map cardinalities (dvalues flat_space)))
  else Raise (ValueError "Invalid action space").
Proof.
  unfold convert_to_multidiscrete. rewrite multidiscrete_loop.
  now destruct (forallb is_categorical (dvalues flat_space)).
Qed.

(** C3. On a flat leaf map whose leaves are all categorical or
    vector-categorical, [convert_to_multidiscrete] returns the
    vector-categorical description whose cardinalities are the leaves'
    cardinalities, concatenated in the order of the map; it raises the
    invalid-action-space error exactly when some leaf of the map is of
    another kind. The map of [{a: Discrete(5), b: Discrete(3)}] merges to
    [5, 3]. *)
Theorem convert_to_multidiscrete_correct :
  (forall flat_space : dict leaf_space,
     convert_to_multidiscrete flat_space =
     if forallb is_categorical (dvalues flat_space)
     then Ok (MultiDiscrete (flat_map cardinalities (dvalues flat_space)))
     else Raise (ValueError "Invalid action space")) /\
  (forall flat_space : dict leaf_space,
     (exists e, convert_to_multidiscrete flat_space = Raise e) <->
     (exists leaf, In leaf (dvalues flat_space) /\ is_categorical leaf = false)) /\
  convert_to_multidiscrete
    (flatten_space (Dict [("a", Leaf (Discrete 5)); ("b", Leaf (Discrete 3))]))
  = Ok (MultiDiscrete [5%Z; 3%Z]).
Proof.
  assert (H : forall flat_space : dict leaf_space,
             convert_to_multidiscrete flat_space =
             if forallb is_categorical (dvalues flat_space)
             then Ok (MultiDiscrete (flat_map cardinalities (dvalues flat_space)))
             else Raise (ValueError "Invalid action space")).
  { intros flat_space. unfold convert_to_multidiscrete.
    rewrite multidiscrete_loop.
    now destruct (forallb is_categorical (dvalues flat_space)). }
  split; [exact H|]. split; [|reflexivity].
  intros flat_space. rewrite H.
  destruct (forallb is_categorical (dvalues flat_space)) eqn:E.
  - split.
    + intros [e He]. discriminate.
    + intros [leaf [Hin Hleaf]]. rewrite forallb_forall in E.
      rewrite (E _ Hin) in Hleaf. discriminate.
  - split.
    + intros _.
      assert (Hex : existsb (fun e => negb (is_categorical e))
                      (dvalues flat_space) = true).
      { clear H. induction (dvalues flat_space) as [|e l IH]; simpl in *.
        - discriminate.
        - destruct (is_categorical e); simpl in *; [now apply IH | reflexivity]. }
      apply existsb_exists in Hex. destruct Hex as [leaf [Hin Hleaf]].
      exists leaf. split; [assumption|]. now destruct (is_categorical leaf).
    + intros _. eexists. reflexivity.
Qed.

(* ------------------------------------------------------------------------- *)
(** ** [concatenate] *)

Lemma Qtrunc_inject_Z (z : Z) : Qtrunc (inject_Z z) = z.
Proof.
  unfold Qtrunc. destruct (Qle_bool 0 (inject_Z z)).
  - apply Qfloor_Z.
  - apply Qceiling_Z.
Qed.

Lemma integral_cast (q : Q) : integral q = true -> inject_Z (Qtrunc q) = q.
Proof.
  destruct q as [num den]. unfold integral. cbn [Qden].
  intros H. apply Pos.eqb_eq in H. subst den.
  change (num # 1) with (inject_Z num). now rewrite Qtrunc_inject_Z.
Qed.

Lemma wrapped_one_dimensional (vs : list pyval) :
  forallb (fun b => match shape b with
                    | [] => false
                    | _ :: tail' => shape_eqb tail' []
                    end)
    (map (fun e => match e with
                   | NdArray a => ravel a
                   | _ => np_array1 e
                   end) vs) = true.
Proof.
  induction vs as [|v vs IH]; simpl; [reflexivity|].
  rewrite IH. now destruct v.
Qed.

Lemma concat_leaf_data (typ : dtype) (vs : list pyval) :
  concat (map (fun b => map (promote_element (dtype_of b) typ) (data b))
              (map (fun e => match e with
                             | NdArray a => ravel a
                             | _ => np_array1 e
                             end) vs))
  = flat_map (promoted typ) vs.
Proof.
  induction vs as [|v vs IH]; simpl; [reflexivity|].
  rewrite IH. now destruct v.
Qed.

Lemma sum_leaf_size (vs : list pyval) :
  list_sum (map (fun b => hd 0 (shape b))
              (map (fun e => match e with
                             | NdArray a => ravel a
                             | _ => np_array1 e
                             end) vs))
  = list_sum (map leaf_size vs).
Proof.
  induction vs as [|v vs IH]; simpl; [reflexivity|].
  rewrite IH. now destruct v.
Qed.

Lemma promote_leaf_dtype (vs : list pyval) : forall t,
  fold_left (fun t b => promote t (dtype_of b))
    (map (fun e => match e with
                   | NdArray a => ravel a
                   | _ => np_array1 e
                   end) vs) t
  = promote_all t vs.
Proof.
  unfold promote_all.
  induction vs as [|v vs IH]; intros t; simpl; [reflexivity|].
  rewrite IH. now destruct v.
Qed.

Lemma np_concatenate_wrapped (v : pyval) (vs : list pyval) :
  np_concatenate (map (fun e => match e with
                                | NdArray a => ravel a
                                | _ => np_array1 e
                                end) (v :: vs))
  = let typ := promote_all (leaf_dtype v) vs in
    Ok (mk_ndarray [list_sum (map leaf_size (v :: vs))] typ
          (flat_map (promoted typ) (v :: vs))).
Proof.
  cbv zeta. rewrite <- sum_leaf_size, <- concat_leaf_data.
  rewrite <- promote_leaf_dtype.
  unfold np_concatenate. cbn [map].
  destruct v; cbn [shape ravel np_array1]; rewrite wrapped_one_dimensional;
    reflexivity.
Qed.

Lemma concatenate_many (key key' : string) (v v' : pyval) (rest : dict pyval) :
  let vals := dvalues ((key, v) :: (key', v') :: rest) in
  let typ := promote_all (leaf_dtype v) (dvalues ((key', v') :: rest)) in
  concatenate ((key, v) :: (key', v') :: rest) =
  Ok (NdArray (mk_ndarray [list_sum (map leaf_size vals)] typ
                 (flat_map (promoted typ) vals))).
Proof.
  cbv zeta. unfold concatenate.
  change (length ((key, v) :: (key', v') :: rest) =? 1) with false.
  cbv iota.
  change (dvalues ((key, v) :: (key', v') :: rest))
    with (v :: dvalues ((key', v') :: rest)).
  rewrite np_concatenate_wrapped. reflexivity.
Qed.

Lemma promoted_length (typ : dtype) (vs : list pyval) :
  length (flat_map (promoted typ) vs) = length (flat_map leaf_data vs).
Proof.
  induction vs as [|v vs IH]; simpl; [reflexivity|].
  rewrite !length_app, IH. unfold promoted. now rewrite length_map.
Qed.

Lemma common_dtype_promote (ts : list dtype) : forall t,
  fold_left promote ts t = common_dtype (t :: ts).
Proof.
  induction ts as [|t' ts IH]; intros t.
  - now destruct t.
  - cbn [fold_left]. rewrite IH. unfold common_dtype.
    destruct t, t'; reflexivity.
Qed.

Lemma promote_all_common (v : pyval) (vs : list pyval) :
  promote_all (leaf_dtype v) vs = common_dtype (map leaf_dtype (v :: vs)).
Proof.
  unfold promote_all. cbn [map]. rewrite <- common_dtype_promote.
  generalize (leaf_dtype v) as t.
  induction vs as [|v' vs IH]; intros t; simpl; [reflexivity | apply IH].
Qed.

Lemma sgn_abs (z : Z) : (Z.sgn z * Z.abs z = z)%Z.
Proof. destruct z; simpl; lia. Qed.

(** An integer that is a float64 number is not changed by the conversion. *)
Lemma round_to_bits_exact (z : Z) :
  float64_integer z = true -> round_to_bits 53 z = z.
Proof.
  unfold float64_integer, round_to_bits. cbv zeta.
  destruct (Z.abs z <? 2 ^ 53)%Z eqn:Hsmall; [reflexivity|].
  cbn [orb]. intros Hmod. apply Z.eqb_eq in Hmod. apply Z.ltb_ge in Hsmall.
  replace (Z.log2 (Z.abs z) + 1 - 53)%Z with (Z.log2 (Z.abs z) - 52)%Z by lia.
  set (a := Z.abs z) in *. set (e := (Z.log2 a - 52)%Z) in *.
  assert (He : (1 <= e)%Z).
  { assert (53 <= Z.log2 a)%Z; [|unfold e; lia].
    apply Z.log2_le_pow2; lia. }
  rewrite Hmod.
  assert (Hhalf : (0 < 2 ^ (e - 1))%Z) by (apply Z.pow_pos_nonneg; lia).
  assert (H1 : (2 ^ (e - 1) <? 0)%Z = false) by (apply Z.ltb_ge; lia).
  assert (H2 : (0 =? 2 ^ (e - 1))%Z = false) by (apply Z.eqb_neq; lia).
  rewrite H1, H2. cbn [orb andb].
  assert (Hpos : (0 < 2 ^ e)%Z) by (apply Z.pow_pos_nonneg; lia).
  pose proof (Z.div_mod a (2 ^ e)) as Hdiv.
  rewrite Hmod in Hdiv.
  replace (a / 2 ^ e * 2 ^ e)%Z with a by lia.
  apply sgn_abs.
Qed.

Lemma small_float64_integer (z : Z) :
  (Z.abs z <= 2 ^ 53)%Z -> float64_integer z = true.
Proof.
  intros H. unfold float64_integer. cbv zeta.
  destruct (Z.abs z <? 2 ^ 53)%Z eqn:Hlt; [reflexivity|].
  apply Z.ltb_ge in Hlt. assert (Heq : Z.abs z = (2 ^ 53)%Z) by lia.
  rewrite Heq. reflexivity.
Qed.

(** A leaf that is exact for the dtype of the flat vector stands in it
    with its own elements. *)
Lemma promoted_exact (typ : dtype) (v : pyval) :
  leaf_exact typ v = true -> promoted typ v = leaf_data v.
Proof.
  unfold leaf_exact, promoted.
  destruct (leaf_dtype v); [|intros _; destruct typ; apply map_id..].
  destruct typ; try (intros _; apply map_id).
  induction (leaf_data v) as [|q xs IH]; simpl; [reflexivity|].
  rewrite !andb_true_iff. intros [[[Hint Hfit] Hfloat] Hrest].
  rewrite IH by assumption. f_equal.
  rewrite round_to_bits_exact by assumption. now apply integral_cast.
Qed.

Lemma promoted_exact_all (typ : dtype) (vs : list pyval) :
  forallb (leaf_exact typ) vs = true ->
  flat_map (promoted typ) vs = flat_map leaf_data vs.
Proof.
  induction vs as [|v vs IH]; simpl; [reflexivity|].
  rewrite andb_true_iff. intros [Hv Hvs].
  now rewrite IH, promoted_exact.
Qed.

(** C6. [concatenate] on a flat sample with exactly one leaf returns the
    value of that leaf as it is, whatever its shape and without a copy of its
    elements; on an empty one [np.concatenate] raises. With two or more
    leaves (bare integers within int64, so that [np.array] gives them that
    dtype) it returns a one-dimensional array: its length is the total
    number of elements, its dtype the common dtype of the leaves, and its
    elements are the elements of the leaves in the order of the map, array
    leaves in row-major order and a bare number as one element, each
    converted to the common dtype. The conversion changes nothing when every
    leaf is exact for the common dtype (always when the leaves are all
    floating, and for integers that are float64 numbers, such as those up to
    2^53 in magnitude): the result then holds the very elements of the
    leaves. *)
Theorem concatenate_correct :
  forall flat_sample : dict pyval,
    match flat_sample with
    | [] =>
        concatenate flat_sample
        = Raise (ValueError "need at least one array to concatenate")
    | [(key, v)] => concatenate flat_sample = Ok v
    | _ =>
        let vals := dvalues flat_sample in
        let typ := common_dtype (map leaf_dtype vals) in
        forallb bare_int_fits vals = true ->
        concatenate flat_sample
        = Ok (NdArray (mk_ndarray [list_sum (map leaf_size vals)] typ
                         (flat_map (promoted typ) vals))) /\
        (forallb (leaf_exact typ) vals = true ->
         concatenate flat_sample
         = Ok (NdArray (mk_ndarray [list_sum (map leaf_size vals)] typ
                          (flat_map leaf_data vals))))
    end.
Proof.
  intros [|[key v] [|[key' v'] rest]]; [reflexivity | reflexivity |].
  cbv zeta. intros _.
  pose proof (concatenate_many key key' v v' rest) as Hcat. cbv zeta in Hcat.
  rewrite promote_all_common in Hcat.
  change (v :: dvalues ((key', v') :: rest))
    with (dvalues ((key, v) :: (key', v') :: rest)) in Hcat.
  split; [exact Hcat|].
  intros Hexact. rewrite Hcat. now rewrite (promoted_exact_all _ _ Hexact).
Qed.

(** A (2, 3) array, a bare integer and a bare float: six elements in
    row-major order, then the two numbers, in float64. *)
Lemma concatenate_correct_witness :
  let a := mk_ndarray [2; 3] float32 [1; 2; 3; 4; 5; 6]%Q in
  concatenate [("DaV", NdArray a); ("DbV", PyInt 7); ("DcV", PyFloat (1 # 2))]
  = Ok (NdArray (mk_ndarray [8] float64 [1; 2; 3; 4; 5; 6; 7; 1 # 2]%Q)).
Proof.
  cbv zeta.
  destruct (@concatenate_correct
              [("DaV", NdArray (mk_ndarray [2; 3] float32 [1; 2; 3; 4; 5; 6]%Q));
               ("DbV", PyInt 7); ("DcV", PyFloat (1 # 2))] eq_refl)
    as [_ Hexact].
  exact (Hexact eq_refl).
Defined.

(** An integer above 2^53 beside a floating leaf is rounded to the nearest
    float64 number: 2^53 + 1 becomes 2^53, and 2^53 + 3 becomes 2^53 + 4. *)
Example concatenate_rounds_large_integers :
  concatenate [("DaV", NdArray (mk_ndarray [1] float32 [3 # 2]%Q));
               ("DbV", PyInt (2 ^ 53 + 1)); ("DcV", PyInt (2 ^ 53 + 3))]
  = Ok (NdArray (mk_ndarray [3] float64
                   [3 # 2; inject_Z (2 ^ 53); inject_Z (2 ^ 53 + 4)]%Q)).
Proof. reflexivity. Qed.

(** A single leaf of shape (2, 3) comes back with its two dimensions. *)
Example concatenate_single_leaf_not_raveled :
  let a := mk_ndarray [2; 3] float32 [1; 2; 3; 4; 5; 6]%Q in
  concatenate (flatten (PyLeaf (NdArray a))) = Ok (NdArray a).
Proof. reflexivity. Qed.

(* ------------------------------------------------------------------------- *)
(** ** The schema flattener *)

Lemma append_assoc (a b c : string) :
  ((a ++ b) ++ c)%string = (a ++ (b ++ c))%string.
Proof. induction a as [|ch a IH]; simpl; [reflexivity | now rewrite IH]. Qed.

(** Induction over schemas, with the hypothesis for every child. *)
Lemma space_ind' (P : space -> Prop) :
  (forall l, P (Leaf l)) ->
  (forall elems, Forall P elems -> P (Tuple elems)) ->
  (forall items, Forall (fun kv => P (snd kv)) items -> P (Dict items)) ->
  forall s, P s.
Proof.
  intros HL HT HD. fix IH 1. intros [l|elems|items].
  - apply HL.
  - apply HT. induction elems as [|e elems IHe]; constructor; [apply IH | exact IHe].
  - apply HD. induction items as [|[k v] items IHi]; constructor;
      [apply IH | exact IHi].
Qed.

Lemma under_under (V : Type) (a b : string) (l : list (string * V)) :
  map (under a) (map (under b) l) = map (under (a ++ b)%string) l.
Proof.
  rewrite map_map. apply map_ext. intros [k v]. unfold under. simpl.
  now rewrite append_assoc.
Qed.

Lemma tuple_key_under (key : string) (idx : nat) :
  (key ++ tuple_key "" idx)%string = tuple_key key idx.
Proof. reflexivity. Qed.

Lemma dict_key_under (key k : string) :
  (key ++ dict_key "" k)%string = dict_key key k.
Proof. reflexivity. Qed.

(** The helper performs, on the shared dictionary, the assignments of the
    specification's path list under the accumulated prefix. *)
Lemma flatten_space_helper_spec (s : space) : forall key flat,
  flatten_space_helper s key flat = dupdate (map (under key) (spec_items s)) flat.
Proof.
  induction s as [l|elems IH|items IH] using space_ind'; intros key flat.
  - reflexivity.
  - simpl. generalize 0 as idx. revert flat.
    induction IH as [|elem elems Helem _ IHelems]; intros flat idx; simpl.
    + reflexivity.
    + rewrite IHelems, Helem, map_app, dupdate_app, under_under.
      now rewrite tuple_key_under.
  - simpl. revert flat.
    induction IH as [|[k value] items Hvalue _ IHitems]; intros flat; simpl.
    + reflexivity.
    + rewrite IHitems. simpl in Hvalue. rewrite Hvalue, map_app, dupdate_app.
      rewrite under_under. now rewrite dict_key_under.
Qed.

Lemma under_empty (V : Type) (l : list (string * V)) : map (under "") l = l.
Proof.
  rewrite <- (map_id l) at 2. apply map_ext. now intros [k v].
Qed.

Lemma flatten_space_spec (s : space) : flatten_space s = dict_of (spec_items s).
Proof.
  unfold flatten_space, dict_of. now rewrite flatten_space_helper_spec, under_empty.
Qed.

Lemma flatten_space_distinct (s : space) :
  NoDup (spec_keys s) -> flatten_space s = spec_items s.
Proof. intros H. rewrite flatten_space_spec. now apply dict_of_fresh. Qed.

(** The path list written out from the specification is the list of the
    assignments that the helper performs. *)
Lemma path_items_spec_items (s : space) : path_items s = spec_items s.
Proof.
  induction s as [l|elems IH|items IH] using space_ind'.
  - reflexivity.
  - simpl. generalize 0 as idx.
    induction IH as [|elem elems Helem _ IHelems]; intros idx; simpl.
    + reflexivity.
    + rewrite IHelems, Helem. f_equal. apply map_ext. intros [k l].
      unfold under, tuple_key, str_of_nat. simpl. now rewrite !append_assoc.
  - simpl. induction IH as [|[k value] items Hvalue _ IHitems]; simpl.
    + reflexivity.
    + rewrite IHitems. simpl in Hvalue. rewrite Hvalue. f_equal.
      apply map_ext. intros [k' l].
      unfold under, dict_key. simpl. now rewrite !append_assoc.
Qed.

Lemma keys_prefixed (V W : Type) (f : string -> string)
  (l1 : list (string * V)) (l2 : list (string * W)) :
  map fst l1 = map fst l2 ->
  map fst (map (fun kl : string * V => (f (fst kl), snd kl)) l1)
  = map fst (map (fun kl : string * W => (f (fst kl), snd kl)) l2).
Proof.
  intros H. rewrite !map_map. simpl.
  rewrite <- (map_map fst f l1), <- (map_map fst f l2). now rewrite H.
Qed.

(** The paths depend on the structure of the schema only. *)
Lemma path_keys_skeleton (s1 : space) : forall s2,
  skeleton_of s1 = skeleton_of s2 -> path_keys s1 = path_keys s2.
Proof.
  unfold path_keys.
  induction s1 as [l|elems IH|items IH] using space_ind';
    intros [l2|elems2|items2] Heq; simpl in Heq; try discriminate Heq.
  - reflexivity.
  - injection Heq as Heq. simpl. generalize 0 as idx. revert elems2 Heq.
    induction IH as [|elem elems Helem _ IHelems];
      intros [|elem2 elems2] Heq idx; simpl in Heq; try discriminate Heq.
    + reflexivity.
    + injection Heq as Hhead Htail. simpl. rewrite !map_app.
      rewrite (IHelems _ Htail (S idx)). f_equal.
      apply (keys_prefixed
               (fun k => ("T" ++ NilZero.string_of_uint (Nat.to_uint idx)
                          ++ "." ++ k)%string)).
      exact (Helem _ Hhead).
  - injection Heq as Heq. simpl. revert items2 Heq.
    induction IH as [|[k value] items Hvalue _ IHitems];
      intros [|[k2 value2] items2] Heq; simpl in Heq; try discriminate Heq.
    + reflexivity.
    + injection Heq as Hkey Hhead Htail. subst k2. simpl. rewrite !map_app.
      rewrite (IHitems _ Htail). f_equal.
      apply (keys_prefixed (fun k' => ("D" ++ k ++ "." ++ k')%string)).
      exact (Hvalue _ Hhead).
Qed.

(** C2. The ordered key sequence of [flatten_space] depends on the structure
    of the schema only: two calls on structurally identical schemas (the same
    containers, tuple lengths and mapping keys; the leaf descriptions may
    even differ) give the same keys in the same order. The keys are the
    paths of the depth-first pre-order traversal, [T{index}.] per tuple
    child, [D{key}.] per mapping child, [V] at a leaf, each at the position
    of its first occurrence; the map is the dictionary of the (path, leaf)
    pairs of that traversal, and the key sequence is the path list itself
    when no two paths are equal. *)
Theorem flatten_space_deterministic :
  forall s1 s2 : space,
    skeleton_of s1 = skeleton_of s2 ->
    dkeys (flatten_space s1) = dkeys (flatten_space s2) /\
    dkeys (flatten_space s1) = first_occurrences (path_keys s1) /\
    flatten_space s1 = dict_of (path_items s1) /\
    (NoDup (path_keys s1) -> dkeys (flatten_space s1) = path_keys s1).
Proof.
  intros s1 s2 Hsame.
  assert (Hkeys : forall s, dkeys (flatten_space s) = first_occurrences (path_keys s)).
  { intros s. unfold path_keys. rewrite path_items_spec_items, flatten_space_spec.
    apply dict_of_keys. }
  split; [now rewrite !Hkeys, (path_keys_skeleton _ _ Hsame)|].
  split; [apply Hkeys|].
  split; [now rewrite path_items_spec_items, flatten_space_spec|].
  intros H. rewrite Hkeys. now apply first_occurrences_id.
Qed.

(** Two schemas of the same structure and different leaves; the second tuple
    has twelve children, so an index of two digits occurs. *)
Lemma flatten_space_deterministic_witness :
  let s1 := Tuple [Leaf (Discrete 3);
                   Dict [("a", Leaf (MultiDiscrete [2%Z; 2%Z]));
                         ("b", Tuple (repeat (Leaf (Discrete 4)) 12))]] in
  let s2 := Tuple [Leaf (Box NegInf PosInf [2] float32);
                   Dict [("a", Leaf (Discrete 7));
                         ("b", Tuple (repeat (Leaf (Discrete 5)) 12))]] in
  dkeys (flatten_space s1) = dkeys (flatten_space s2) /\
  dkeys (flatten_space s1) = first_occurrences (path_keys s1) /\
  flatten_space s1 = dict_of (path_items s1) /\
  dkeys (flatten_space s1) = path_keys s1.
Proof.
  cbv zeta.
  destruct (@flatten_space_deterministic
              (Tuple [Leaf (Discrete 3);
                      Dict [("a", Leaf (MultiDiscrete [2%Z; 2%Z]));
                            ("b", Tuple (repeat (Leaf (Discrete 4)) 12))]])
              (Tuple [Leaf (Box NegInf PosInf [2] float32);
                      Dict [("a", Leaf (Discrete 7));
                            ("b", Tuple (repeat (Leaf (Discrete 5)) 12))]])
              eq_refl) as (H1 & H2 & H3 & H4).
  split; [exact H1|]. split; [exact H2|]. split; [exact H3|].
  apply H4. apply nodupb_NoDup. reflexivity.
Defined.

(** The format itself, on that schema: the literal keys. *)
Example path_keys_example :
  path_keys (Tuple [Leaf (Discrete 3);
                    Dict [("a", Leaf (MultiDiscrete [2%Z; 2%Z]));
                          ("b", Tuple (repeat (Leaf (Discrete 4)) 12))]])
  = ["T0.V"; "T1.Da.V"; "T1.Db.T0.V"; "T1.Db.T1.V"; "T1.Db.T2.V";
     "T1.Db.T3.V"; "T1.Db.T4.V"; "T1.Db.T5.V"; "T1.Db.T6.V"; "T1.Db.T7.V";
     "T1.Db.T8.V"; "T1.Db.T9.V"; "T1.Db.T10.V"; "T1.Db.T11.V"].
Proof. reflexivity. Qed.

Example flatten_space_keys_example :
  dkeys (flatten_space
           (Tuple [Leaf (Discrete 3);
                   Dict [("a", Leaf (MultiDiscrete [2%Z; 2%Z]));
                         ("b", Tuple [Leaf (Discrete 4)])]]))
  = ["T0.V"; "T1.Da.V"; "T1.Db.T0.V"].
Proof. reflexivity. Qed.

(* ------------------------------------------------------------------------- *)
(** ** [split] on a flat vector *)

Lemma np_prod_returned_shape (shp : list nat) :
  np_prod (returned_shape shp) = np_prod shp.
Proof. destruct shp; reflexivity. Qed.

Lemma firstn_1_skipn (A : Type) (d : A) (l : list A) (i : nat) :
  i < length l -> firstn 1 (skipn i l) = [hd d (skipn i l)].
Proof.
  intros H. destruct (skipn i l) as [|x rest] eqn:E.
  - assert (Hlen : length (skipn i l) = 0) by now rewrite E.
    rewrite length_skipn in Hlen. lia.
  - reflexivity.
Qed.

Section SplitVector.

Variables (n : nat) (typ : dtype) (xs : list Q).
Hypothesis xs_length : length xs = n.

Let vector : pyval := NdArray (mk_ndarray [n] typ xs).

Lemma getitem_slice_vector (ptr sz : nat) :
  ptr + sz <= n ->
  getitem_slice vector ptr (ptr + sz)
  = Ok (mk_ndarray [sz] typ (firstn sz (skipn ptr xs))).
Proof.
  intros H. unfold vector, getitem_slice. simpl.
  rewrite (Nat.min_l ptr n) by lia.
  rewrite (Nat.min_l (ptr + sz) n) by lia.
  rewrite (Nat.max_r ptr (ptr + sz)) by lia.
  replace (ptr + sz - ptr) with sz by lia.
  now rewrite !Nat.mul_1_r.
Qed.

Lemma split_leaf_vector (batch ptr : nat) (leaves : dict pyval)
  (key : string) (subspace : leaf_space) :
  ptr + leaf_count subspace <= n ->
  split_leaf vector false batch (leaves, ptr) (key, subspace)
  = Ok (dset key (decode_leaf xs ptr subspace) leaves,
        ptr + leaf_count subspace).
Proof.
  intros H. unfold split_leaf.
  fold (leaf_count subspace). fold (returned_shape (space_shape subspace)).
  rewrite getitem_slice_vector by assumption. cbn [bind].
  unfold reshape, size. cbn [shape np_prod fold_right].
  rewrite np_prod_returned_shape. fold (leaf_count subspace).
  rewrite Nat.mul_1_r, Nat.eqb_refl. cbn [bind].
  destruct subspace as [low high shp t|m|nvec]; cbn [is_discrete]; try reflexivity.
  unfold leaf_count in *. cbn [space_shape np_prod fold_right] in *.
  unfold decode_leaf, leaf_count. cbn [space_shape np_prod fold_right space_dtype].
  rewrite (@firstn_1_skipn _ 0%Q) by lia.
  cbn. now rewrite Qtrunc_inject_Z.
Qed.

Lemma split_loop_vector (batch : nat) (items : list (string * leaf_space)) :
  forall ptr leaves,
    ptr + flat_size items <= n ->
    for_each (split_leaf vector false batch) items (leaves, ptr)
    = Ok (dupdate (decode xs ptr items) leaves, ptr + flat_size items).
Proof.
  induction items as [|[key subspace] items IH]; intros ptr leaves H.
  - simpl. unfold flat_size. simpl. now rewrite Nat.add_0_r.
  - assert (Hsize : flat_size ((key, subspace) :: items)
                    = leaf_count subspace + flat_size items) by reflexivity.
    rewrite Hsize in *.
    cbn [for_each]. rewrite split_leaf_vector by lia. cbn [bind].
    rewrite IH by lia.
    cbn [decode]. unfold dupdate. cbn [fold_left fst snd].
    f_equal. f_equal. lia.
Qed.

Lemma split_vector (flat_space : dict leaf_space) :
  flat_size flat_space <= n ->
  split vector flat_space false = Ok (dict_of (decode xs 0 flat_space)).
Proof.
  intros H. unfold split. cbn [bind].
  now rewrite split_loop_vector.
Qed.

End SplitVector.

Lemma decode_leaf_firstn (xs : list Q) (m ptr : nat) (subspace : leaf_space) :
  ptr + leaf_count subspace <= m ->
  decode_leaf (firstn m xs) ptr subspace = decode_leaf xs ptr subspace.
Proof.
  intros H. unfold decode_leaf.
  rewrite skipn_firstn_comm, firstn_firstn.
  now rewrite (Nat.min_l (leaf_count subspace) (m - ptr)) by lia.
Qed.

Lemma decode_firstn (xs : list Q) (m : nat) (items : list (string * leaf_space)) :
  forall ptr,
    ptr + flat_size items <= m ->
    decode (firstn m xs) ptr items = decode xs ptr items.
Proof.
  induction items as [|[key subspace] items IH]; intros ptr H; [reflexivity|].
  assert (Hsize : flat_size ((key, subspace) :: items)
                  = leaf_count subspace + flat_size items) by reflexivity.
  rewrite Hsize in H.
  cbn [decode]. rewrite decode_leaf_firstn by lia.
  f_equal. apply IH. lia.
Qed.

(** C10. Unbatched [split] checks no length: on a flat vector with at least
    as many elements as the leaves of the map count together it succeeds, its
    result is decoded from the first that-many elements alone, and any other
    vector with the same first elements, whatever follows them, gives the
    same result. *)
Theorem split_no_length_validation :
  forall (flat_space : dict leaf_space) (n : nat) (typ : dtype) (xs : list Q),
    length xs = n ->
    flat_size flat_space <= n ->
    split (NdArray (mk_ndarray [n] typ xs)) flat_space false
    = Ok (dict_of (decode (firstn (flat_size flat_space) xs) 0 flat_space)) /\
    (forall (n' : nat) (typ' : dtype) (xs' : list Q),
        length xs' = n' ->
        flat_size flat_space <= n' ->
        firstn (flat_size flat_space) xs' = firstn (flat_size flat_space) xs ->
        split (NdArray (mk_ndarray [n'] typ' xs')) flat_space false
        = split (NdArray (mk_ndarray [n] typ xs)) flat_space false).
Proof.
  intros flat_space n typ xs Hlen Hn.
  assert (Hsplit : forall n' typ' xs',
             length xs' = n' -> flat_size flat_space <= n' ->
             split (NdArray (mk_ndarray [n'] typ' xs')) flat_space false
             = Ok (dict_of (decode (firstn (flat_size flat_space) xs') 0 flat_space))).
  { intros n' typ' xs' Hlen' Hn'.
    rewrite split_vector by assumption.
    now rewrite decode_firstn by lia. }
  split.
  - now apply Hsplit.
  - intros n' typ' xs' Hlen' Hn' Hsame.
    rewrite (Hsplit n' typ' xs'), (Hsplit n typ xs) by assumption.
    now rewrite Hsame.
Qed.

Lemma split_no_length_validation_witness :
  let flat_space := flatten_space
                      (Dict [("pos", Leaf (Box NegInf PosInf [2] float32));
                             ("hp", Leaf (Discrete 10))]) in
  let xs := [1; 2; 7; 99; 98]%Q in
  split (NdArray (mk_ndarray [5] float64 xs)) flat_space false
  = Ok (dict_of (decode (firstn (flat_size flat_space) xs) 0 flat_space)) /\
  split (NdArray (mk_ndarray [3] float64 [1; 2; 7]%Q)) flat_space false
  = split (NdArray (mk_ndarray [5] float64 xs)) flat_space false.
Proof.
  destruct (@split_no_length_validation
              (flatten_space
                 (Dict [("pos", Leaf (Box NegInf PosInf [2] float32));
                        ("hp", Leaf (Discrete 10))]))
              5 float64 [1; 2; 7; 99; 98]%Q eq_refl) as [H1 H2].
  - vm_compute. lia.
  - split; [exact H1|].
    apply (H2 3 float64 [1; 2; 7]%Q eq_refl).
    + vm_compute. lia.
    + reflexivity.
Defined.

(* ------------------------------------------------------------------------- *)
(** ** The round trip *)

Lemma shape_eqb_eq (s1 s2 : list nat) : shape_eqb s1 s2 = true -> s1 = s2.
Proof.
  revert s2. induction s1 as [|a s1 IH]; intros [|b s2]; simpl; try discriminate.
  - reflexivity.
  - rewrite andb_true_iff, Nat.eqb_eq. intros [-> H]. f_equal. now apply IH.
Qed.

Lemma dtype_eqb_eq (a b : dtype) : dtype_eqb a b = true -> a = b.
Proof. destruct a, b; simpl; congruence. Qed.

Lemma cast_elements_ok (typ : dtype) (xs : list Q) :
  elements_ok typ xs = true -> map (cast typ) xs = xs.
Proof.
  destruct typ; simpl; intros H; try apply map_id.
  induction xs as [|q xs IH]; simpl in *; [reflexivity|].
  apply andb_true_iff in H. destruct H as [Hq Hxs].
  now rewrite integral_cast, IH.
Qed.

(** What conformance gives for a leaf: either a plain integer under a
    categorical leaf, or an array of the leaf's shape and dtype whose
    elements survive the cast. *)
Lemma leaf_conforms_inv (l : leaf_space) (v : pyval) :
  leaf_conforms l v = true ->
  (exists n z, l = Discrete n /\ v = PyInt z) \/
  (exists a, v = NdArray a /\ is_discrete l = false /\
             shape a = space_shape l /\ dtype_of a = space_dtype l /\
             length (data a) = leaf_count l /\
             map (cast (space_dtype l)) (data a) = data a).
Proof.
  destruct l as [low high shp typ|n|nvec], v as [z|q|a]; simpl; try discriminate.
  - rewrite !andb_true_iff, Nat.eqb_eq. intros [[[Hs Ht] Hl] He].
    right. exists a. repeat split.
    + now apply shape_eqb_eq.
    + now apply dtype_eqb_eq.
    + exact Hl.
    + now apply cast_elements_ok.
  - intros _. left. now exists n, z.
  - rewrite !andb_true_iff, Nat.eqb_eq. intros [[[Hs Ht] Hl] He].
    right. exists a. repeat split.
    + now apply shape_eqb_eq.
    + now apply dtype_eqb_eq.
    + exact Hl.
    + now apply (cast_elements_ok int64).
Qed.

Lemma leaf_conforms_length (l : leaf_space) (v : pyval) :
  leaf_conforms l v = true ->
  length (leaf_data v) = leaf_count l /\ leaf_size v = leaf_count l.
Proof.
  intros H. destruct (leaf_conforms_inv _ _ H) as [(n & z & -> & ->)|(a & -> & _ & Hs & _ & Hl & _)].
  - split; reflexivity.
  - split; [exact Hl|]. simpl. unfold size, leaf_count. now rewrite Hs.
Qed.

Lemma firstn_skipn_middle (A : Type) (pre mid post : list A) :
  firstn (length mid) (skipn (length pre) (pre ++ mid ++ post)) = mid.
Proof.
  rewrite skipn_app, skipn_all, Nat.sub_diag. simpl.
  rewrite firstn_app, firstn_all, Nat.sub_diag. simpl. now rewrite app_nil_r.
Qed.

Lemma decode_leaf_conforms (l : leaf_space) (v : pyval) (pre post : list Q) :
  leaf_conforms l v = true ->
  decode_leaf (pre ++ leaf_data v ++ post) (length pre) l = returned_leaf v.
Proof.
  intros H. unfold decode_leaf.
  destruct (leaf_conforms_length _ _ H) as [Hlen _]. rewrite <- Hlen.
  rewrite firstn_skipn_middle.
  destruct (leaf_conforms_inv _ _ H) as [(n & z & -> & ->)|(a & -> & Hd & Hs & Ht & Hl & Hc)].
  - simpl. now rewrite Qtrunc_inject_Z.
  - unfold leaf_data, np_array1, returned_leaf. rewrite Hc, Hs, Ht.
    destruct l; simpl in Hd; [reflexivity | discriminate | reflexivity].
Qed.

Lemma conforming_items_keys items sitems :
  conforming_items items sitems -> map fst sitems = map fst items.
Proof.
  induction 1 as [|kl kv items sitems [Hk _] _ IH]; simpl; [reflexivity|].
  now rewrite Hk, IH.
Qed.

Lemma conforming_items_size items sitems :
  conforming_items items sitems ->
  length (flat_map leaf_data (dvalues sitems)) = flat_size items /\
  list_sum (map leaf_size (dvalues sitems)) = flat_size items.
Proof.
  induction 1 as [|kl kv items sitems [_ Hc] _ [IH1 IH2]]; [split; reflexivity|].
  destruct (leaf_conforms_length _ _ Hc) as [H1 H2].
  unfold flat_size in *. simpl. rewrite length_app, H1, H2, IH1, IH2. now split.
Qed.

Lemma decode_conforming items sitems :
  conforming_items items sitems ->
  forall pre post,
    decode (pre ++ flat_map leaf_data (dvalues sitems) ++ post) (length pre) items
    = map (fun kv => (fst kv, returned_leaf (snd kv))) sitems.
Proof.
  induction 1 as [|[k l] [k' v] items sitems [Hk Hc] _ IH]; intros pre post;
    [reflexivity|].
  simpl in Hk, Hc. subst k'. cbn [dvalues map snd flat_map decode fst].
  rewrite <- app_assoc. rewrite decode_leaf_conforms by assumption.
  f_equal.
  destruct (leaf_conforms_length _ _ Hc) as [Hlen _].
  rewrite <- Hlen, <- length_app.
  rewrite (app_assoc pre). apply IH.
Qed.

(** Induction over samples, with the hypothesis for every child. *)
Lemma pyobj_ind' (P : pyobj -> Prop) :
  (forall v, P (PyLeaf v)) ->
  (forall elems, Forall P elems -> P (PyTuple elems)) ->
  (forall items, Forall (fun kv => P (snd kv)) items -> P (PyDict items)) ->
  forall x, P x.
Proof.
  intros HL HT HD. fix IH 1. intros [v|elems|items].
  - apply HL.
  - apply HT. induction elems as [|e elems IHe]; constructor; [apply IH | exact IHe].
  - apply HD. induction items as [|[k v] items IHi]; constructor;
      [apply IH | exact IHi].
Qed.

Lemma flatten_helper_spec (x : pyobj) : forall key flat,
  flatten_helper x key flat = dupdate (map (under key) (sample_items x)) flat.
Proof.
  induction x as [v|elems IH|items IH] using pyobj_ind'; intros key flat.
  - reflexivity.
  - simpl. generalize 0 as idx. revert flat.
    induction IH as [|elem elems Helem _ IHelems]; intros flat idx; simpl.
    + reflexivity.
    + rewrite IHelems, Helem, map_app, dupdate_app, under_under.
      now rewrite tuple_key_under.
  - simpl. revert flat.
    induction IH as [|[k value] items Hvalue _ IHitems]; intros flat; simpl.
    + reflexivity.
    + rewrite IHitems. simpl in Hvalue. rewrite Hvalue, map_app, dupdate_app.
      rewrite under_under. now rewrite dict_key_under.
Qed.

Lemma flatten_spec (x : pyobj) : flatten x = dict_of (sample_items x).
Proof.
  unfold flatten, dict_of. now rewrite flatten_helper_spec, under_empty.
Qed.

Lemma dvalues_under (V : Type) (prefix : string) (l : list (string * V)) :
  dvalues (map (under prefix) l) = dvalues l.
Proof. unfold dvalues. now rewrite map_map. Qed.

Lemma sample_items_leaves (x : pyobj) : dvalues (sample_items x) = sample_leaves x.
Proof.
  induction x as [v|elems IH|items IH] using pyobj_ind'.
  - reflexivity.
  - simpl. generalize 0 as idx.
    induction IH as [|elem elems Helem _ IHelems]; intros idx; simpl.
    + reflexivity.
    + unfold dvalues in *. rewrite map_app, IHelems.
      f_equal. rewrite <- Helem. apply dvalues_under.
  - simpl.
    induction IH as [|[k value] items Hvalue _ IHitems]; simpl.
    + reflexivity.
    + unfold dvalues in *. rewrite map_app, IHitems.
      f_equal. simpl in Hvalue. rewrite <- Hvalue. apply dvalues_under.
Qed.

Lemma conforming_items_under (prefix : string) items sitems :
  conforming_items items sitems ->
  conforming_items (map (under prefix) items) (map (under prefix) sitems).
Proof.
  induction 1 as [|kl kv items sitems [Hk Hc] _ IH]; simpl; constructor.
  - simpl. now rewrite Hk.
  - exact IH.
Qed.

Lemma conforms_items (s : space) : forall x,
  conforms s x = true -> conforming_items (spec_items s) (sample_items x).
Proof.
  induction s as [l|elems IH|items IH] using space_ind'; intros x Hx.
  - destruct x as [v| |]; try discriminate. simpl in *.
    constructor; [now split | constructor].
  - destruct x as [|xs|]; try discriminate. simpl in *.
    generalize 0 as idx. revert xs Hx.
    induction IH as [|elem elems Helem _ IHelems]; intros [|x xs] Hx idx;
      simpl in *; try discriminate.
    + constructor.
    + apply andb_true_iff in Hx. destruct Hx as [Hx Hxs].
      apply Forall2_app.
      * apply conforming_items_under. now apply Helem.
      * now apply IHelems.
  - destruct x as [| |xitems]; try discriminate. simpl in *.
    revert xitems Hx.
    induction IH as [|[k value] items Hvalue _ IHitems]; intros [|[k' x] xitems] Hx;
      simpl in *; try discriminate.
    + constructor.
    + rewrite !andb_true_iff in Hx. destruct Hx as [[Hk Hx] Hxs].
      apply String.eqb_eq in Hk. subst k'.
      apply Forall2_app.
      * apply conforming_items_under. now apply Hvalue.
      * now apply IHitems.
Qed.

Lemma getitem_list_middle (A : Type) (pre post : list A) (v : A) :
  getitem_list (pre ++ v :: post) (length pre + 1 - 1) = Ok v.
Proof.
  unfold getitem_list. rewrite Nat.add_sub.
  rewrite nth_error_app2 by lia. now rewrite Nat.sub_diag.
Qed.

Lemma unflatten_helper_conforms (s : space) : forall x,
  wf_space s = true ->
  conforms s x = true ->
  forall pre post flat_sample,
    flat_sample = pre ++ map returned_leaf (sample_leaves x) ++ post ->
    unflatten_helper flat_sample s (length pre)
    = Ok (as_returned x, length pre + length (sample_leaves x)).
Proof.
  induction s as [l|elems IH|items IH] using space_ind';
    intros x Hwf Hx pre post flat_sample Hflat.
  - destruct x as [v| |]; try discriminate. simpl in Hx, Hflat. subst flat_sample.
    destruct (leaf_conforms_inv _ _ Hx) as [(n & z & -> & ->)|(a & -> & Hd & _)].
    + simpl. now rewrite getitem_list_middle.
    + destruct l; try discriminate; simpl; now rewrite getitem_list_middle.
  - destruct x as [|xs|]; try discriminate.
    cbn [unflatten_helper]. cbn [conforms wf_space] in Hx, Hwf.
    cbn [sample_leaves as_returned] in *.
    assert (Hloop :
      collect (fun subspace idx => unflatten_helper flat_sample subspace idx)
        elems (length pre)
      = Ok (map as_returned xs, length pre + length (flat_map sample_leaves xs))).
    { clear -IH Hwf Hx Hflat. revert xs pre post Hx Hflat.
      induction IH as [|elem elems Helem _ IHelems]; intros [|x xs] pre post Hx Hflat;
        simpl in Hx, Hwf; try discriminate.
      - simpl. now rewrite Nat.add_0_r.
      - apply andb_true_iff in Hx. destruct Hx as [Hx Hxs].
        apply andb_true_iff in Hwf. destruct Hwf as [Hwe Hwes].
        cbn [collect flat_map map] in *.
        rewrite (Helem x Hwe Hx pre
                   (map returned_leaf (flat_map sample_leaves xs) ++ post)).
        2:{ rewrite Hflat, map_app, <- app_assoc. reflexivity. }
        cbn [bind fst snd].
        replace (length pre + length (sample_leaves x))
          with (length (pre ++ map returned_leaf (sample_leaves x)))
          by (now rewrite length_app, length_map).
        rewrite (IHelems Hwes xs (pre ++ map returned_leaf (sample_leaves x)) post Hxs).
        2:{ rewrite Hflat, map_app, <- !app_assoc. reflexivity. }
        cbn [bind fst snd]. rewrite !length_app, length_map.
        f_equal. f_equal. lia. }
    rewrite Hloop. reflexivity.
  - destruct x as [| |xitems]; try discriminate.
    cbn [unflatten_helper]. cbn [conforms wf_space] in Hx, Hwf.
    cbn [sample_leaves as_returned] in *.
    apply andb_true_iff in Hwf. destruct Hwf as [Hnodup Hwf].
    assert (Hkeys : map fst xitems = map fst items).
    { clear -Hx. revert xitems Hx.
      induction items as [|[k v] items IHi]; intros [|[k' x] xitems] Hx;
        simpl in *; try discriminate; [reflexivity|].
      rewrite !andb_true_iff in Hx. destruct Hx as [[Hk _] Hxs].
      apply String.eqb_eq in Hk. subst. f_equal. now apply IHi. }
    assert (Hloop :
      collect (fun (kv : string * space) idx =>
                 r <- unflatten_helper flat_sample (snd kv) idx ;;
                 Ok ((fst kv, fst r), snd r))
        items (length pre)
      = Ok (map (fun kv => (fst kv, as_returned (snd kv))) xitems,
            length pre
            + length (flat_map (fun kv => sample_leaves (snd kv)) xitems))).
    { clear -IH Hwf Hx Hflat. revert xitems pre post Hx Hflat.
      induction IH as [|[k value] items Hvalue _ IHitems];
        intros [|[k' x] xitems] pre post Hx Hflat;
        simpl in Hx, Hwf; try discriminate.
      - simpl. now rewrite Nat.add_0_r.
      - rewrite !andb_true_iff in Hx. destruct Hx as [[Hk Hx] Hxs].
        apply String.eqb_eq in Hk. subst k'.
        apply andb_true_iff in Hwf. destruct Hwf as [Hwe Hwes].
        cbn [collect flat_map map fst snd] in *.
        rewrite (Hvalue x Hwe Hx pre
                   (map returned_leaf
                      (flat_map (fun kv => sample_leaves (snd kv)) xitems) ++ post)).
        2:{ rewrite Hflat, map_app, <- app_assoc. reflexivity. }
        cbn [bind fst snd].
        replace (length pre + length (sample_leaves x))
          with (length (pre ++ map returned_leaf (sample_leaves x)))
          by (now rewrite length_app, length_map).
        rewrite (IHitems Hwes xitems (pre ++ map returned_leaf (sample_leaves x))
                   post Hxs).
        2:{ rewrite Hflat, map_app, <- !app_assoc. reflexivity. }
        cbn [bind fst snd]. rewrite !length_app, length_map.
        f_equal. f_equal. lia. }
    rewrite Hloop. cbn [bind fst snd].
    rewrite dict_of_fresh; [reflexivity|].
    rewrite map_map. change (NoDup (map fst xitems)).
    rewrite Hkeys. now apply nodupb_NoDup.
Qed.

(** [split] on the raw value of a single array leaf with at least one
    dimension: the slice along the first axis keeps every element. *)
Lemma split_single_array (key : string) (l : leaf_space) (a : ndarray)
  (d0 : nat) (rest : list nat) :
  is_discrete l = false ->
  shape a = space_shape l ->
  space_shape l = d0 :: rest ->
  dtype_of a = space_dtype l ->
  length (data a) = leaf_count l ->
  map (cast (space_dtype l)) (data a) = data a ->
  split (NdArray a) [(key, l)] false = Ok [(key, returned_leaf (NdArray a))].
Proof.
  intros Hd Hs Hshape Ht Hl Hc. destruct a as [shp typ xs]. simpl in *.
  subst shp typ. unfold split, split_leaf, leaf_count in *.
  cbn [bind for_each]. rewrite Hd. unfold getitem_slice. cbn [shape].
  rewrite Hshape in *. cbn [dtype_of data].
  set (row := np_prod rest) in *.
  assert (Hsz : np_prod (d0 :: rest) = d0 * row) by reflexivity.
  rewrite Hsz in *. cbn [Nat.min Nat.max Nat.add Nat.mul skipn].
  rewrite Nat.sub_0_r.
  assert (Hm : Nat.min (d0 * row) d0 * row = d0 * row).
  { destruct (Nat.min_spec (d0 * row) d0) as [[Hlt ->]|[Hle ->]]; [|reflexivity].
    destruct row; [lia | nia]. }
  rewrite Hm. rewrite firstn_all2 by lia. cbn [bind].
  unfold reshape, size. cbn [shape returned_shape np_prod fold_right].
  fold (np_prod rest). fold row. rewrite Hm, Nat.eqb_refl. cbn [bind].
  unfold astype. cbn [shape data dtype_of]. rewrite Hc. reflexivity.
Qed.

(** C1, as amended. For a schema whose mapping keys are distinct, whose flat
    keys are distinct and which has two leaves or more (or a single array leaf
    with at least one dimension), and for a sample that conforms to it and
    whose leaves are exact for the dtype of its flat vector (its integers are
    int64 numbers and, where the sample also has a floating leaf so that the
    vector is float64, float64 numbers), unflattening the split of the
    concatenated flattened sample (the leaf values of the split taken in
    order) gives the sample back: every categorical leaf as a plain integer,
    every array with its shape, dtype and elements, an array of scalar shape
    [()] with shape [(1,)]. *)
Theorem round_trip_correct :
  forall (s : space) (x : pyobj),
    wf_space s = true ->
    distinct_keys s = true ->
    splittable s = true ->
    conforms s x = true ->
    exact_sample x = true ->
    round_trip s x = Ok (as_returned x).
Proof.
  intros s x Hwf Hdistinct Hsplit Hx Hexact.
  pose proof (conforms_items s x Hx) as Hitems.
  pose proof (conforming_items_keys Hitems) as Hkeys.
  apply nodupb_NoDup in Hdistinct.
  assert (Hflat_space : flatten_space s = spec_items s)
    by now apply flatten_space_distinct.
  assert (Hflat : flatten x = sample_items x).
  { rewrite flatten_spec. apply dict_of_fresh. now rewrite Hkeys. }
  assert (Hunflatten :
            python_unflatten (map returned_leaf (sample_leaves x)) s
            = Ok (as_returned x)).
  { unfold python_unflatten.
    rewrite (@unflatten_helper_conforms s x Hwf Hx [] []); [reflexivity|].
    simpl. now rewrite app_nil_r. }
  unfold round_trip. rewrite Hflat, Hflat_space.
  unfold exact_sample in Hexact. cbv zeta in Hexact.
  rewrite <- sample_items_leaves in Hunflatten, Hexact.
  unfold splittable, spec_keys in *.
  destruct Hitems as [|[k l] [k' v] items sitems [Hk Hc] Hrest].
  - discriminate.
  - cbn [fst snd] in Hk, Hc.
    destruct Hrest as [|[k2 l2] [k2' v2] items sitems [Hk2 Hc2] Hrest];
      cbn [fst snd] in *.
    + (* one leaf *)
      destruct (leaf_conforms_inv _ _ Hc) as [(n & z & -> & ->)|(a & -> & Hd & Hs & Ht & Hl & Hcast)];
        [discriminate|].
      destruct (space_shape l) as [|d0 rest] eqn:Hshape; [discriminate|].
      cbn [concatenate length Nat.eqb dvalues map snd bind].
      rewrite (@split_single_array k l a d0 rest) by (assumption || congruence).
      cbn [bind]. exact Hunflatten.
    + (* two leaves or more *)
      set (sall := (k', v) :: (k2', v2) :: sitems) in *.
      set (iall := (k, l) :: (k2, l2) :: items) in *.
      assert (Hall : conforming_items iall sall).
      { constructor; [now split|]. constructor; [now split | assumption]. }
      destruct (conforming_items_size Hall) as [Hlen Hsum].
      pose proof (concatenate_many k' k2' v v2 sitems) as Hcat.
      cbv zeta in Hcat. rewrite promote_all_common in Hcat.
      change (v :: dvalues ((k2', v2) :: sitems)) with (dvalues sall) in Hcat.
      fold sall in Hcat.
      rewrite (promoted_exact_all _ _ Hexact) in Hcat.
      rewrite Hcat. cbn [bind].
      rewrite split_vector by (rewrite ?Hlen, ?Hsum; auto).
      cbn [bind].
      pose proof (@decode_conforming iall sall Hall [] []) as Hdec.
      rewrite app_nil_l, app_nil_r in Hdec.
      change (length (@nil Q)) with 0 in Hdec.
      rewrite Hdec.
      rewrite dict_of_fresh.
      2:{ rewrite map_map. change (NoDup (map fst sall)). now rewrite Hkeys. }
      unfold dvalues at 1. rewrite map_map. cbn [snd].
      unfold dvalues in Hunflatten. rewrite map_map in Hunflatten.
      exact Hunflatten.
Qed.

Lemma round_trip_correct_witness :
  let s := Dict [("pos", Leaf (Box NegInf PosInf [2] float32));
                 ("hp", Leaf (Discrete 10))] in
  let x := PyDict [("pos", PyLeaf (NdArray (mk_ndarray [2] float32 [1; 2]%Q)));
                   ("hp", PyLeaf (PyInt 7))] in
  round_trip s x = Ok x.
Proof.
  exact (@round_trip_correct
           (Dict [("pos", Leaf (Box NegInf PosInf [2] float32));
                  ("hp", Leaf (Discrete 10))])
           (PyDict [("pos", PyLeaf (NdArray (mk_ndarray [2] float32 [1; 2]%Q)));
                    ("hp", PyLeaf (PyInt 7))])
           eq_refl eq_refl eq_refl eq_refl eq_refl).
Defined.

(** The scenario of the specification: the flat form is the vector
    [1.0, 2.0, 7.0], and unflattening it gives the sample back with [hp] a
    plain integer. *)
Example round_trip_scenario :
  let s := Dict [("pos", Leaf (Box NegInf PosInf [2] float32));
                 ("hp", Leaf (Discrete 10))] in
  let x := PyDict [("pos", PyLeaf (NdArray (mk_ndarray [2] float32 [1; 2]%Q)));
                   ("hp", PyLeaf (PyInt 7))] in
  concatenate (flatten x) = Ok (NdArray (mk_ndarray [3] float64 [1; 2; 7]%Q)) /\
  (leaves <- split (NdArray (mk_ndarray [3] float64 [1; 2; 7]%Q))
               (flatten_space s) false ;;
   python_unflatten (dvalues leaves) s) = Ok x.
Proof. split; reflexivity. Qed.

(** The round trip does not hold for every schema: on a schema that is one
    leaf-range of scalar shape the single leaf is handed to [split] as it is,
    and a zero-dimensional array cannot be sliced. *)
Lemma round_trip_counterexample :
  let s := Leaf (Box NegInf PosInf [] float32) in
  let x := PyLeaf (NdArray (mk_ndarray [] float32 [3 # 2]%Q)) in
  conforms s x = true /\
  round_trip s x = Raise (IndexError "too many indices for array") /\
  round_trip s x <> Ok x.
Proof. repeat split. discriminate. Qed.

(** Nor does it hold for every sample of a splittable schema: beside a
    floating leaf, the integer 2^53 + 1 is rounded when the flat vector is
    built, and the round trip returns 2^53. The sample conforms, but is not
    exact for the dtype of its flat vector. *)
Example round_trip_rounds_large_integer :
  let s := Dict [("pos", Leaf (Box NegInf PosInf [1] float32));
                 ("n", Leaf (Discrete (2 ^ 60)))] in
  let x := PyDict [("pos", PyLeaf (NdArray (mk_ndarray [1] float32 [3 # 2]%Q)));
                   ("n", PyLeaf (PyInt (2 ^ 53 + 1)))] in
  conforms s x = true /\ splittable s = true /\ exact_sample x = false /\
  round_trip s x
  = Ok (PyDict [("pos", PyLeaf (NdArray (mk_ndarray [1] float32 [3 # 2]%Q)));
                ("n", PyLeaf (PyInt (2 ^ 53)))]).
Proof. repeat split. Qed.

(** Two more schemas on which the round trip raises: a schema without leaves,
    and a schema that is one categorical leaf. *)
Example round_trip_no_leaf :
  conforms (Tuple []) (PyTuple []) = true /\
  round_trip (Tuple []) (PyTuple [])
  = Raise (ValueError "need at least one array to concatenate").
Proof. split; reflexivity. Qed.

Example round_trip_single_discrete :
  conforms (Leaf (Discrete 10)) (PyLeaf (PyInt 7)) = true /\
  round_trip (Leaf (Discrete 10)) (PyLeaf (PyInt 7))
  = Raise (TypeError "object is not subscriptable").
Proof. split; reflexivity. Qed.

(** Two leaves with the same flat key: the leaf map has one entry for both. *)
Example round_trip_key_collision :
  let s := Dict [("a", Dict [("b", Leaf (Discrete 3))]);
                 ("a.Db", Leaf (Discrete 4)); ("c", Leaf (Discrete 4))] in
  let x := PyDict [("a", PyDict [("b", PyLeaf (PyInt 1))]);
                   ("a.Db", PyLeaf (PyInt 2)); ("c", PyLeaf (PyInt 3))] in
  conforms s x = true /\ wf_space s = true /\
  dkeys (flatten_space s) = ["Da.Db.V"; "Dc.V"] /\
  round_trip s x = Raise (IndexError "list index out of range").
Proof. repeat split. Qed.

(* ------------------------------------------------------------------------- *)
(** ** The adapters *)

Lemma mbind_inv (S A B : Type) (m : M S A) (k : A -> M S B) (s s' : S)
  (r : result B) :
  mbind m k s = (s', r) ->
  (exists e, m s = (s', Raise e) /\ r = Raise e) \/
  (exists s1 a, m s = (s1, Ok a) /\ k a s1 = (s', r)).
Proof.
  unfold mbind. destruct (m s) as [s1 [a|e]]; intros H.
  - right. now exists s1, a.
  - left. exists e. now inversion H.
Qed.

Section GymFacts.

Context `{R : Runtime} `{E : !GymEnvironment}.

Import GymPufferEnv.

Lemma gym_frame_on_cache (A : Type) (m : M space_cache A) :
  gym_frame (on_cache m).
Proof.
  intros self self' r. unfold on_cache.
  destruct (m (cache self)) as [c r']. intros [= <- _]. now repeat split.
Qed.

Lemma gym_frame_observation_space : gym_frame observation_space.
Proof. intros self self' r H. now apply gym_frame_on_cache in H. Qed.

Lemma gym_frame_action_space : gym_frame action_space.
Proof. intros self self' r H. now apply gym_frame_on_cache in H. Qed.

Lemma gym_frame_ret (A : Type) (a : A) : gym_frame (ret a).
Proof. intros self self' r [= <- _]. now repeat split. Qed.

Lemma gym_frame_raise (A : Type) (e : exn) : gym_frame (@raise t A e).
Proof. intros self self' r [= <- _]. now repeat split. Qed.

Lemma gym_frame_lift (A : Type) (x : result A) : gym_frame (lift x).
Proof. intros self self' r [= <- _]. now repeat split. Qed.

Lemma gym_frame_bind (A B : Type) (m : M t A) (k : A -> M t B) :
  gym_frame m -> (forall a, gym_frame (k a)) -> gym_frame (mbind m k).
Proof.
  intros Hm Hk self self' r H.
  destruct (mbind_inv _ _ _ H) as [(e & H1 & _)|(s1 & a & H1 & H2)].
  - now apply Hm in H1.
  - apply Hm in H1. apply Hk in H2.
    destruct H1 as (I1 & D1 & E1 & P1), H2 as (I2 & D2 & E2 & P2).
    repeat split; congruence.
Qed.

Lemma gym_init_flags env env_creator postprocessor_cls self :
  init env env_creator postprocessor_cls = Ok self ->
  initialized self = false /\ done self = true.
Proof.
  unfold init. destruct (make_object env env_creator) as [e|]; [|discriminate].
  cbn [bind].
  destruct ((observation_space;;; action_space) _) as [self' [a|ex]] eqn:Hq;
    [|discriminate].
  intros [= <-].
  apply gym_frame_bind in Hq.
  - simpl in Hq. tauto.
  - apply gym_frame_observation_space.
  - intros _. apply gym_frame_action_space.
Qed.

(** The validation steps of [step] before and after the call of the
    environment only assign cached attributes. *)
Lemma gym_frame_check_action (action : pyval) :
  gym_frame (if py_debug
             then sp <~ action_space ;;
                  if negb (space_contains sp action)
                  then raise (ValueError "Action not in space")
                  else ret tt
             else ret tt).
Proof.
  destruct py_debug; [|apply gym_frame_ret].
  apply gym_frame_bind; [apply gym_frame_action_space|].
  intros sp. destruct (negb _); [apply gym_frame_raise | apply gym_frame_ret].
Qed.

Lemma gym_frame_check_observation (ob : pyval) :
  gym_frame (if py_debug
             then sp <~ observation_space ;;
                  if negb (space_contains sp ob)
                  then raise (ValueError "Observation not in space")
                  else ret tt
             else ret tt).
Proof.
  destruct py_debug; [|apply gym_frame_ret].
  apply gym_frame_bind; [apply gym_frame_observation_space|].
  intros sp. destruct (negb _); [apply gym_frame_raise | apply gym_frame_ret].
Qed.

(** A [step] that returns has called the environment once and has recorded
    the done flag that the environment returned. *)
Lemma gym_step_records_done (self self' : t) (action : pyval)
  (out : pyval * Q * bool * dict Info) :
  step action self = (self', Ok out) ->
  initialized self = true /\ done self = false /\
  exists native, env self' = fst (gym_env_step (env self) native) /\
                 done self' = snd (fst (snd (gym_env_step (env self) native))) /\
                 initialized self' = true.
Proof.
  unfold step. unfold mbind at 1. unfold get at 1.
  destruct (initialized self) eqn:Hi; [|discriminate].
  destruct (done self) eqn:Hd; [discriminate|]. cbn [negb].
  intros H. split; [reflexivity|]. split; [reflexivity|].
  apply mbind_inv in H. destruct H as [(e & _ & [=])|(s1 & [] & Hcheck & H)].
  apply gym_frame_check_action in Hcheck.
  destruct Hcheck as (Hi1 & Hd1 & He1 & Hp1).
  unfold mbind at 1 in H. unfold get at 1 in H.
  apply mbind_inv in H. destruct H as [(e & _ & [=])|(s2 & flat & Hflat & H)].
  unfold lift in Hflat. injection Hflat as <- _.
  apply mbind_inv in H. destruct H as [(e & _ & [=])|(s3 & leaves & Hleaves & H)].
  unfold lift in Hleaves. injection Hleaves as <- _.
  exists (cext_unflatten leaves). rewrite <- He1.
  destruct (gym_env_step (env s1) (cext_unflatten leaves))
    as [e [[[ob reward] d] info]].
  cbn [fst snd].
  apply mbind_inv in H. destruct H as [(ex & _ & [=])|(s4 & [] & Hset & H)].
  unfold modify in Hset. injection Hset as <-.
  apply mbind_inv in H. destruct H as [(ex & _ & [=])|(s5 & [] & Hset & H)].
  unfold modify in Hset. injection Hset as <-.
  apply mbind_inv in H. destruct H as [(ex & _ & [=])|(s6 & r & Hr & H)].
  unfold lift in Hr. injection Hr as <- _.
  destruct r as [[[processed_ob single_reward] single_done] single_info].
  apply mbind_inv in H. destruct H as [(ex & _ & [=])|(s7 & [] & Hcheck & H)].
  apply gym_frame_check_observation in Hcheck.
  destruct Hcheck as (Hi7 & Hd7 & He7 & _).
  unfold ret in H. injection H as <- _.
  rewrite Hi7, Hd7, He7. simpl. repeat split; congruence.
Qed.

End GymFacts.

Section PettingZooFacts.

Context `{R : Runtime} `{E : !PettingZooEnvironment}.

Import PettingZooPufferEnv.

Lemma set_cache_same (self : t) : set_cache (cache self) self = self.
Proof. now destruct self. Qed.

Lemma set_cache_twice (c c' : space_cache) (self : t) :
  set_cache c' (set_cache c self) = set_cache c' self.
Proof. reflexivity. Qed.

Lemma pz_frame_on_cache (A : Type) (m : M space_cache A) : pz_frame (on_cache m).
Proof.
  intros self self' r. unfold on_cache.
  destruct (m (cache self)) as [c r']. intros [= <- _]. now exists c.
Qed.

Lemma pz_frame_same (A : Type) (m : M t A) :
  (forall self, fst (m self) = self) -> pz_frame m.
Proof.
  intros Hm self self' r H. exists (cache self).
  rewrite set_cache_same. specialize (Hm self). rewrite H in Hm. now symmetry.
Qed.

Lemma pz_frame_bind (A B : Type) (m : M t A) (k : A -> M t B) :
  pz_frame m -> (forall a, pz_frame (k a)) -> pz_frame (mbind m k).
Proof.
  intros Hm Hk self self' r H.
  destruct (mbind_inv _ _ _ H) as [(e & H1 & _)|(s1 & a & H1 & H2)].
  - now apply Hm in H1.
  - apply Hm in H1. apply Hk in H2. destruct H1 as [c ->], H2 as [c' ->].
    now exists c'.
Qed.

Lemma pz_frame_observation_space (agent : string) :
  pz_frame (observation_space agent).
Proof.
  intros self self' r. unfold observation_space.
  unfold mbind at 1. unfold get at 1.
  destruct (negb (mem agent (possible_agents self))).
  - now apply (@pz_frame_same _ (raise _)).
  - apply pz_frame_bind; [now apply pz_frame_same|]. intros obs_space.
    apply pz_frame_bind; [now apply pz_frame_same|]. intros pp.
    apply pz_frame_on_cache.
Qed.

Lemma pz_frame_action_space (agent : string) : pz_frame (action_space agent).
Proof.
  intros self self' r. unfold action_space.
  unfold mbind at 1. unfold get at 1.
  destruct (negb (mem agent (possible_agents self))).
  - now apply (@pz_frame_same _ (raise _)).
  - apply pz_frame_bind; [now apply pz_frame_same|]. intros atn_space.
    apply pz_frame_on_cache.
Qed.

Lemma pz_init_flags env env_creator postprocessor_cls teams self :
  init env env_creator postprocessor_cls teams = Ok self ->
  initialized self = false.
Proof.
  unfold init. destruct (make_object env env_creator) as [e|]; [|discriminate].
  cbn [bind].
  destruct (getitem_list _ 0) as [first|]; [|discriminate]. cbn [bind].
  destruct ((observation_space first;;; action_space first) _)
    as [self' [a|ex]] eqn:Hq; [|discriminate].
  intros [= <-].
  apply pz_frame_bind in Hq.
  - destruct Hq as [c ->]. reflexivity.
  - apply pz_frame_observation_space.
  - intros _. apply pz_frame_action_space.
Qed.

Lemma pz_step_before_reset (self : t) (acts : dict pyval) :
  initialized self = false ->
  step acts self = (self, Raise (APIUsageError "step() called before reset()")).
Proof.
  intros H. unfold step. unfold mbind at 1. unfold get at 1. now rewrite H.
Qed.

Lemma pz_step_after_done (self : t) (acts : dict pyval) :
  initialized self = true ->
  env_agents (env self) = [] ->
  step acts self
  = (self, Raise (APIUsageError "step() called after environment is done")).
Proof.
  intros Hi Hd. unfold step. unfold mbind at 1. unfold get at 1.
  unfold done, agents. now rewrite Hi, Hd.
Qed.

Lemma first_unknown_spec (possible keys : list string) (agent : string) :
  first_unknown possible keys = Some agent ->
  In agent keys /\ ~ In agent possible.
Proof.
  unfold first_unknown. intros H. apply find_some in H. destruct H as [Hin Hm].
  split; [assumption|]. apply mem_false. now destruct (mem agent possible).
Qed.

Lemma first_unknown_exists (possible keys : list string) (ghost : string) :
  In ghost keys -> ~ In ghost possible ->
  exists agent, first_unknown possible keys = Some agent.
Proof.
  intros Hin Hout. unfold first_unknown.
  destruct (find _ keys) as [agent|] eqn:Hfind; [now exists agent|].
  exfalso. apply (find_none _ _ Hfind) in Hin.
  apply mem_false in Hout. rewrite Hout in Hin. discriminate.
Qed.

Lemma validate_agents (possible named : list string) (acts : dict pyval) :
  for_each (fun (_ : unit) (item : string * pyval) =>
              if negb (mem (fst item) possible)
              then Raise (InvalidAgentError (fst item) named)
              else Ok tt) acts tt
  = match first_unknown possible (dkeys acts) with
    | Some agent => Raise (InvalidAgentError agent named)
    | None => Ok tt
    end.
Proof.
  unfold first_unknown.
  induction acts as [|[k v] acts IH]; simpl; [reflexivity|].
  destruct (negb (mem k possible)); [reflexivity | exact IH].
Qed.

End PettingZooFacts.

(** C8. In both adapters a [step] before the first [reset] (the state in
    which the constructor leaves the adapter) and a [step] after the episode
    has completed (the single-agent environment has returned done, the
    multi-agent environment has no active agent left) raise the API-usage
    error and leave the adapter and its environment as they were: the
    environment's step is not called. *)
Theorem step_usage_errors :
  forall (R : Runtime) (G : GymEnvironment) (P : PettingZooEnvironment),
    (forall (self : GymPufferEnv.t) (action : pyval),
        GymPufferEnv.initialized self = false ->
        GymPufferEnv.step action self
        = (self, Raise (APIUsageError "step() called before reset()"))) /\
    (forall (self : GymPufferEnv.t) (action : pyval),
        GymPufferEnv.initialized self = true ->
        GymPufferEnv.done self = true ->
        GymPufferEnv.step action self
        = (self, Raise (APIUsageError "step() called after environment is done"))) /\
    (forall env env_creator postprocessor_cls (self : GymPufferEnv.t),
        GymPufferEnv.init env env_creator postprocessor_cls = Ok self ->
        GymPufferEnv.initialized self = false) /\
    (forall (self self' : GymPufferEnv.t) action out,
        GymPufferEnv.step action self = (self', Ok out) ->
        exists native,
          GymPufferEnv.env self'
          = fst (gym_env_step (GymPufferEnv.env self) native) /\
          GymPufferEnv.initialized self' = true /\
          GymPufferEnv.done self'
          = snd (fst (snd (gym_env_step (GymPufferEnv.env self) native)))) /\
    (forall (self : PettingZooPufferEnv.t) (acts : dict pyval),
        PettingZooPufferEnv.initialized self = false ->
        PettingZooPufferEnv.step acts self
        = (self, Raise (APIUsageError "step() called before reset()"))) /\
    (forall (self : PettingZooPufferEnv.t) (acts : dict pyval),
        PettingZooPufferEnv.initialized self = true ->
        env_agents (PettingZooPufferEnv.env self) = [] ->
        PettingZooPufferEnv.step acts self
        = (self, Raise (APIUsageError "step() called after environment is done"))) /\
    (forall env env_creator postprocessor_cls teams (self : PettingZooPufferEnv.t),
        PettingZooPufferEnv.init env env_creator postprocessor_cls teams = Ok self ->
        PettingZooPufferEnv.initialized self = false).
Proof.
  intros R G P. repeat split.
  - intros self action H. unfold GymPufferEnv.step.
    unfold mbind at 1. unfold get at 1. now rewrite H.
  - intros self action Hi Hd. unfold GymPufferEnv.step.
    unfold mbind at 1. unfold get at 1. now rewrite Hi, Hd.
  - intros env env_creator cls self H.
    now apply gym_init_flags in H.
  - intros self self' action out H.
    apply gym_step_records_done in H. destruct H as (_ & _ & native & He & Hd & Hi).
    now exists native.
  - apply pz_step_before_reset.
  - apply pz_step_after_done.
  - intros env env_creator cls teams self. apply pz_init_flags.
Qed.

Lemma step_usage_errors_witness :
  let action := NdArray (mk_ndarray [1] int64 [1%Q]) in
  let fresh := GymPufferEnv.mk (E := demo_gym true) 0 Postprocessor false true
                 empty_cache in
  let ready := GymPufferEnv.mk (E := demo_gym true) 0 Postprocessor true false
                 empty_cache in
  let finished := GymPufferEnv.mk (E := demo_gym true) 1 Postprocessor true true
                    empty_cache in
  let acts := [("a", action)] in
  let pz_fresh := PettingZooPufferEnv.mk (E := demo_pz true)
                    (mk_demo ["a"; "b"] 0) false ["a"; "b"] None [] empty_cache in
  let pz_finished := PettingZooPufferEnv.mk (E := demo_pz true)
                       (mk_demo [] 1) true ["a"; "b"] None [] empty_cache in
  GymPufferEnv.step action fresh
  = (fresh, Raise (APIUsageError "step() called before reset()")) /\
  GymPufferEnv.step action finished
  = (finished, Raise (APIUsageError "step() called after environment is done")) /\
  (exists self, GymPufferEnv.init (E := demo_gym true) (Some 0) None
                  (fun _ => Postprocessor) = Ok self /\
                GymPufferEnv.initialized self = false) /\
  (exists self' out,
      GymPufferEnv.step action ready = (self', Ok out) /\
      GymPufferEnv.env self' = 1 /\ GymPufferEnv.done self' = true) /\
  PettingZooPufferEnv.step acts pz_fresh
  = (pz_fresh, Raise (APIUsageError "step() called before reset()")) /\
  PettingZooPufferEnv.step acts pz_finished
  = (pz_finished, Raise (APIUsageError "step() called after environment is done")) /\
  (exists self, PettingZooPufferEnv.init (E := demo_pz true)
                  (Some (mk_demo ["a"; "b"] 0)) None (fun _ => Postprocessor) None
                = Ok self /\
                PettingZooPufferEnv.initialized self = false).
Proof.
  cbv zeta.
  destruct (@step_usage_errors (demo_runtime true) (demo_gym true) (demo_pz true))
    as (H1 & H2 & H3 & H4 & H5 & H6 & H7).
  split; [apply H1; reflexivity|].
  split; [apply H2; reflexivity|].
  split.
  { eexists. split; [reflexivity|].
    apply (H3 (Some 0) None (fun _ => Postprocessor)). reflexivity. }
  split.
  { destruct (GymPufferEnv.step (E := demo_gym true)
                (NdArray (mk_ndarray [1] int64 [1%Q]))
                (GymPufferEnv.mk (E := demo_gym true) 0 Postprocessor true false
                   empty_cache)) as [self' [out|e]] eqn:Hstep.
    - exists self', out. split; [reflexivity|].
      destruct (H4 _ _ _ _ Hstep) as (native & He & _ & Hd).
      split; [exact He | exact Hd].
    - vm_compute in Hstep. discriminate Hstep. }
  split; [apply H5; reflexivity|].
  split; [apply H6; reflexivity|].
  eexists. split; [reflexivity|].
  apply (H7 (Some (mk_demo ["a"; "b"] 0)) None (fun _ => Postprocessor) None).
  reflexivity.
Defined.

(** C9, as amended. With validation enabled, after a [reset] and while some
    agent is active, a [step] whose actions mapping has a key outside the
    possible agents raises the unknown-agent error naming the first such key,
    and leaves the adapter as it was. [observation_space] and [action_space]
    queried for an agent outside the possible agents raise the unknown-agent
    error naming that agent and the possible agents, in every state of the
    adapter and whether validation is enabled or not. *)
Theorem unknown_agent_error :
  forall (R : Runtime) (P : PettingZooEnvironment) (self : PettingZooPufferEnv.t),
    (forall (acts : dict pyval) (ghost : string),
        py_debug = true ->
        PettingZooPufferEnv.initialized self = true ->
        PettingZooPufferEnv.done self = false ->
        In ghost (dkeys acts) ->
        ~ In ghost (PettingZooPufferEnv.possible_agents self) ->
        exists agent named,
          first_unknown (PettingZooPufferEnv.possible_agents self) (dkeys acts)
          = Some agent /\
          In agent (dkeys acts) /\
          ~ In agent (PettingZooPufferEnv.possible_agents self) /\
          PettingZooPufferEnv.step acts self
          = (self, Raise (InvalidAgentError agent named))) /\
    (forall ghost : string,
        ~ In ghost (PettingZooPufferEnv.possible_agents self) ->
        PettingZooPufferEnv.observation_space ghost self
        = (self, Raise (InvalidAgentError ghost
                          (PettingZooPufferEnv.possible_agents self))) /\
        PettingZooPufferEnv.action_space ghost self
        = (self, Raise (InvalidAgentError ghost
                          (PettingZooPufferEnv.possible_agents self)))).
Proof.
  intros R P self. split.
  - intros acts ghost Hdebug Hinit Hdone Hin Hout.
    destruct (@first_unknown_exists _ _ _ Hin Hout) as [agent Hfirst].
    destruct (@first_unknown_spec _ _ _ Hfirst) as [Hagent Hnot].
    exists agent, (PettingZooPufferEnv.agents self).
    repeat split; try assumption.
    unfold PettingZooPufferEnv.step. unfold mbind at 1. unfold get at 1.
    rewrite Hinit, Hdone, Hdebug. cbn [negb].
    rewrite validate_agents, Hfirst. reflexivity.
  - intros ghost Hout. apply mem_false in Hout. split.
    + unfold PettingZooPufferEnv.observation_space.
      unfold mbind at 1. unfold get at 1. now rewrite Hout.
    + unfold PettingZooPufferEnv.action_space.
      unfold mbind at 1. unfold get at 1. now rewrite Hout.
Qed.

(** The step clause on a reset adapter with validation enabled; the query
    clause on an adapter that has not been reset, with validation disabled. *)
Lemma unknown_agent_error_witness :
  let action := NdArray (mk_ndarray [1] int64 [1%Q]) in
  let self := PettingZooPufferEnv.mk (E := demo_pz true)
                (mk_demo ["a"; "b"] 0) true ["a"; "b"] None
                [("a", Postprocessor); ("b", Postprocessor)] empty_cache in
  let fresh := PettingZooPufferEnv.mk (E := demo_pz false)
                 (mk_demo [] 0) false ["a"; "b"] None
                 [("a", Postprocessor); ("b", Postprocessor)] empty_cache in
  let acts := [("a", action); ("ghost", action)] in
  (exists agent named,
      first_unknown ["a"; "b"] (dkeys acts) = Some agent /\
      In agent (dkeys acts) /\
      ~ In agent ["a"; "b"] /\
      PettingZooPufferEnv.step acts self
      = (self, Raise (InvalidAgentError agent named))) /\
  PettingZooPufferEnv.observation_space "ghost" fresh
  = (fresh, Raise (InvalidAgentError "ghost" ["a"; "b"])) /\
  PettingZooPufferEnv.action_space "ghost" fresh
  = (fresh, Raise (InvalidAgentError "ghost" ["a"; "b"])).
Proof.
  cbv zeta.
  destruct (@unknown_agent_error (demo_runtime true) (demo_pz true)
              (PettingZooPufferEnv.mk (E := demo_pz true)
                 (mk_demo ["a"; "b"] 0) true ["a"; "b"] None
                 [("a", Postprocessor); ("b", Postprocessor)] empty_cache))
    as [Hstep _].
  destruct (@unknown_agent_error (demo_runtime false) (demo_pz false)
              (PettingZooPufferEnv.mk (E := demo_pz false)
                 (mk_demo [] 0) false ["a"; "b"] None
                 [("a", Postprocessor); ("b", Postprocessor)] empty_cache))
    as [_ Hquery].
  split.
  - apply (Hstep [("a", NdArray (mk_ndarray [1] int64 [1%Q]));
                  ("ghost", NdArray (mk_ndarray [1] int64 [1%Q]))] "ghost").
    + reflexivity.
    + reflexivity.
    + reflexivity.
    + simpl. tauto.
    + simpl. intros [H|[H|[]]]; discriminate.
  - apply (Hquery "ghost"). simpl. intros [H|[H|[]]]; discriminate.
Defined.

(** The unknown-agent error is not raised for every actions mapping with an
    unknown key: with validation disabled the key is not examined and the
    lookup of its postprocessor raises [KeyError]; before the first [reset]
    the usage error comes first. *)
Lemma unknown_agent_counterexample :
  let action := NdArray (mk_ndarray [1] int64 [1%Q]) in
  let unchecked := PettingZooPufferEnv.mk (E := demo_pz false)
                     (mk_demo ["a"; "b"] 0) true ["a"; "b"] None
                     [("a", Postprocessor); ("b", Postprocessor)] empty_cache in
  let fresh := PettingZooPufferEnv.mk (E := demo_pz true)
                 (mk_demo ["a"; "b"] 0) false ["a"; "b"] None
                 [("a", Postprocessor); ("b", Postprocessor)] empty_cache in
  PettingZooPufferEnv.step [("ghost", action)] unchecked
  = (unchecked, Raise (KeyError "ghost")) /\
  PettingZooPufferEnv.step [("ghost", action)] fresh
  = (fresh, Raise (APIUsageError "step() called before reset()")) /\
  snd (PettingZooPufferEnv.step [("ghost", action)] unchecked)
  <> Raise (InvalidAgentError "ghost" ["a"; "b"]).
Proof. repeat split. discriminate. Qed.

(** Where validation is enabled, the set named by [step] is the set of the
    agents that are still active, not the set of possible agents. *)
Example step_names_active_agents :
  let action := NdArray (mk_ndarray [1] int64 [1%Q]) in
  let self := PettingZooPufferEnv.mk (E := demo_pz true)
                (mk_demo ["a"] 3) true ["a"; "b"] None
                [("a", Postprocessor); ("b", Postprocessor)] empty_cache in
  PettingZooPufferEnv.step [("ghost", action)] self
  = (self, Raise (InvalidAgentError "ghost" ["a"])).
Proof. reflexivity. Qed.

(** C5. The constructor of the multi-agent adapter accepts a team
    configuration that does not cover the possible agents, although
    [check_teams] rejects that configuration: the constructor never calls
    it. *)
Theorem init_accepts_invalid_teams :
  let env := mk_demo ["a"; "b"] 0 in
  let teams := [("t1", ["a"])] in
  env_possible_agents (PettingZooEnvironment := demo_pz true) env = ["a"; "b"] /\
  check_teams ["a"; "b"] teams = Raise (ValueError "Invalid teams") /\
  exists self,
    PettingZooPufferEnv.init (E := demo_pz true) (Some env) None
      (fun _ => Postprocessor) (Some teams) = Ok self /\
    PettingZooPufferEnv.teams self = Some teams /\
    PettingZooPufferEnv.possible_agents self = ["t1"].
Proof.
  split; [reflexivity|]. split; [reflexivity|].
  eexists. split; [reflexivity|]. split; reflexivity.
Qed.

(** [check_teams] compares sets, so an agent that is a member of two teams
    is not detected by it either. *)
Example check_teams_ignores_duplicates :
  check_teams ["a"; "b"] [("t1", ["a"; "b"]); ("t2", ["a"])] = Ok tt.
Proof. reflexivity. Qed.

(* ------------------------------------------------------------------------- *)
(** ** The pure-Python flattener and the batched split *)

(** [python_flatten] lists the leaves of the same traversal, each as an
    array. *)
Lemma python_flatten_helper_leaves (x : pyobj) : forall flat,
  python_flatten_helper x flat = flat ++ map np_array1 (sample_leaves x).
Proof.
  induction x as [v|elems IH|items IH] using pyobj_ind'; intros flat.
  - now destruct v.
  - simpl. revert flat.
    induction IH as [|elem elems Helem _ IHelems]; intros flat; simpl.
    + now rewrite app_nil_r.
    + now rewrite IHelems, Helem, map_app, app_assoc.
  - simpl. revert flat.
    induction IH as [|[k value] items Hvalue _ IHitems]; intros flat; simpl.
    + now rewrite app_nil_r.
    + simpl in Hvalue. now rewrite IHitems, Hvalue, map_app, app_assoc.
Qed.

Lemma python_flatten_leaves (x : pyobj) :
  python_flatten x = map np_array1 (sample_leaves x).
Proof. apply python_flatten_helper_leaves. Qed.

(** Batched [split] keeps the leading batch dimension of every leaf and
    neither casts nor unwraps a categorical leaf. *)
Example split_batched :
  split (NdArray (mk_ndarray [2; 3] float64 [1; 2; 7; 3; 4; 8]%Q))
    (flatten_space (Dict [("pos", Leaf (Box NegInf PosInf [2] float32));
                          ("hp", Leaf (Discrete 10))]))
    true
  = Ok [("Dpos.V", NdArray (mk_ndarray [2; 2] float64 [1; 2; 3; 4]%Q));
        ("Dhp.V", NdArray (mk_ndarray [2; 1] float64 [7; 8]%Q))].
Proof. reflexivity. Qed.

(* ========================================================================= *)
(** * Further properties of the module *)

(* ------------------------------------------------------------------------- *)
(** ** Grouping and padding *)

Lemma dget_map_values (A B : Type) (f : A -> B) (k : string) (d : dict A) :
  dget k (map (fun item => (fst item, f (snd item))) d)
  = option_map f (dget k d).
Proof.
  induction d as [|[k0 v0] d IH]; simpl; [reflexivity|].
  now destruct (String.eqb k k0).
Qed.

Lemma dget_dict_of (V : Type) (k : string) (kvs : list (string * V)) :
  dget k (dict_of kvs) = dget k (rev kvs).
Proof.
  unfold dict_of. rewrite dget_dupdate. simpl. now destruct (dget k (rev kvs)).
Qed.

Lemma dget_present (V : Type) (agent_data : dict V) (team : list string)
  (k : string) :
  dget k (dict_of (present agent_data team))
  = if mem k team then dget k agent_data else None.
Proof.
  rewrite dget_dict_of.
  destruct (dget k (rev (present agent_data team))) as [v|] eqn:E.
  - apply dget_Some_In in E. apply in_rev in E. apply present_In in E.
    destruct E as [Hin Hv]. apply mem_In in Hin. now rewrite Hin.
  - destruct (mem k team) eqn:Hk; [|reflexivity].
    destruct (dget k agent_data) as [v|] eqn:Hv; [|reflexivity].
    exfalso. apply dget_None in E. apply E.
    unfold dkeys. rewrite map_rev. apply in_rev. rewrite rev_involutive.
    apply in_map_iff. exists (k, v). split; [reflexivity|].
    apply present_In. split; [now apply mem_In | assumption].
Qed.

Lemma group_loop (V : Type) (debug : bool) (teams : teams_t)
  (args : list (dict V)) : forall grouped_data,
  for_each (group_one debug teams) args grouped_data =
  if debug && existsb (fun agent_data => negb (same_agents teams agent_data)) args
  then Raise (ValueError "Invalid teams")
  else Ok (grouped_data ++ map (grouped_of teams) args).
Proof.
  induction args as [|agent_data args IH]; intros grouped_data; simpl.
  - rewrite andb_false_r. now rewrite app_nil_r.
  - unfold group_one at 1. fold (same_agents teams agent_data).
    destruct debug; simpl.
    + destruct (same_agents teams agent_data); simpl; [|reflexivity].
      rewrite IH. simpl. rewrite group_all_eq. fold (grouped_of teams agent_data).
      now rewrite <- app_assoc.
    + rewrite IH. simpl. rewrite group_all_eq. fold (grouped_of teams agent_data).
      now rewrite <- app_assoc.
Qed.

Lemma group_into_teams_eq (V : Type) (debug : bool) (teams : teams_t)
  (args : list (dict V)) :
  group_into_teams debug teams args =
  if debug && existsb (fun agent_data => negb (same_agents teams agent_data)) args
  then Raise (ValueError "Invalid teams")
  else match args with
       | [agent_data] => Ok (GroupedOne (grouped_of teams agent_data))
       | _ => Ok (GroupedMany (map (grouped_of teams) args))
       end.
Proof.
  unfold group_into_teams. rewrite group_loop.
  destruct (debug && existsb _ args); [reflexivity|]. cbn [bind app].
  destruct args as [|a [|b rest]]; reflexivity.
Qed.

(** X1. [group_into_teams] in strict mode ([__debug__]) fails with the
    invalid-teams error exactly when the agent set of some argument differs
    from the set of team members, whatever the other arguments are; otherwise,
    and always without the strict mode, it returns one grouped mapping per
    argument, in order, and the bare mapping when there is one argument. *)
Theorem group_into_teams_strict :
  forall (V : Type) (debug : bool) (teams : teams_t) (args : list (dict V)),
    group_into_teams debug teams args =
    if debug && existsb (fun agent_data => negb (same_agents teams agent_data)) args
    then Raise (ValueError "Invalid teams")
    else match args with
         | [agent_data] => Ok (GroupedOne (grouped_of teams agent_data))
         | _ => Ok (GroupedMany (map (grouped_of teams) args))
         end.
Proof. intros V debug teams args. apply group_into_teams_eq. Qed.

Lemma grouped_of_fresh (V : Type) (teams : teams_t) (agent_data : dict V) :
  wf_dict teams ->
  grouped_of teams agent_data
  = map (fun item => (fst item, dict_of (present agent_data (snd item)))) teams.
Proof.
  intros Hwf. unfold grouped_of. apply dict_of_fresh. now rewrite map_map.
Qed.

Lemma grouped_of_entries (V : Type) (teams : teams_t) (agent_data : dict V) :
  wf_dict teams ->
  dkeys (grouped_of teams agent_data) = dkeys teams /\
  forall team_id team,
    dget team_id teams = Some team ->
    exists inner,
      dget team_id (grouped_of teams agent_data) = Some inner /\
      forall agent,
        dget agent inner = if mem agent team then dget agent agent_data else None.
Proof.
  intros Hwf. rewrite grouped_of_fresh by assumption. split.
  - unfold dkeys. now rewrite map_map.
  - intros team_id team Hteam.
    exists (dict_of (present agent_data team)). split.
    + rewrite (dget_map_values (fun team => dict_of (present agent_data team))).
      now rewrite Hteam.
    + intros agent. apply dget_present.
Qed.

Lemma ungroup_grouped_of (V : Type) (teams : teams_t) (agent_data : dict V) :
  wf_dict teams ->
  forall agent,
    dget agent (ungroup_from_teams (grouped_of teams agent_data))
    = if mem agent (team_members teams) then dget agent agent_data else None.
Proof.
  intros Hwf agent.
  rewrite ungroup_from_teams_eq.
  rewrite grouped_of_fresh by assumption.
  assert (Hvals : dvalues (map (fun item : string * list string =>
                                  (fst item, dict_of (present agent_data (snd item))))
                               teams)
                  = map (fun team => dict_of (present agent_data team))
                        (dvalues teams)).
  { unfold dvalues. now rewrite !map_map. }
  rewrite Hvals. clear Hvals.
  set (kvs := concat (map (fun team => dict_of (present agent_data team))
                          (dvalues teams))).
  assert (Hsound : forall k v, In (k, v) kvs ->
                               In k (team_members teams) /\
                               dget k agent_data = Some v).
  { intros k v Hin. unfold kvs in Hin. apply in_concat in Hin.
    destruct Hin as [inner [Hinner Hin]]. apply in_map_iff in Hinner.
    destruct Hinner as [team [<- Hteam]].
    apply In_dupdate in Hin. destruct Hin as [[]|Hin].
    apply present_In in Hin. destruct Hin as [Hk Hv]. split; [|assumption].
    unfold team_members. apply in_concat. now exists team. }
  assert (Hcomplete : forall k v, In k (team_members teams) ->
                                  dget k agent_data = Some v -> In k (dkeys kvs)).
  { intros k v Hk Hv. unfold team_members in Hk. apply in_concat in Hk.
    destruct Hk as [team [Hteam Hk]].
    unfold dkeys, kvs. rewrite concat_map, map_map. apply in_concat.
    exists (dkeys (dict_of (present agent_data team))). split.
    - apply in_map_iff. now exists team.
    - rewrite dict_of_keys, first_occurrences_In.
      apply in_map_iff. exists (k, v). split; [reflexivity|].
      apply present_In. now split. }
  rewrite dget_dict_of.
  destruct (dget agent (rev kvs)) as [v|] eqn:E.
  - apply dget_Some_In in E. apply in_rev in E.
    destruct (Hsound _ _ E) as [Hk Hv]. apply mem_In in Hk. now rewrite Hk.
  - destruct (mem agent (team_members teams)) eqn:Hk; [|reflexivity].
    destruct (dget agent agent_data) as [v|] eqn:Hv; [|reflexivity].
    exfalso. apply dget_None in E. apply E.
    unfold dkeys. rewrite map_rev. apply in_rev. rewrite rev_involutive.
    apply (Hcomplete agent v); [now apply mem_In | assumption].
Qed.

(** X2. In both modes: with validation on ([__debug__]) and a mapping whose
    agent set is not the set of the team members, [group_into_teams] raises
    the invalid-teams error; in every other case (validation off, or the two
    sets equal) it returns a mapping with the team ids as keys, in the order
    of the team configuration, in which the entry of a team holds exactly the
    agents of the team that the input has, each with its input value. So an
    agent absent from the input is left out, not filled in, which can only
    be seen with validation off. *)
Theorem group_into_teams_entries :
  forall (V : Type) (debug : bool) (teams : teams_t) (agent_data : dict V),
    wf_dict teams ->
    if debug && negb (same_agents teams agent_data)
    then group_into_teams debug teams [agent_data]
         = Raise (ValueError "Invalid teams")
    else exists team_data,
        group_into_teams debug teams [agent_data] = Ok (GroupedOne team_data) /\
        dkeys team_data = dkeys teams /\
        forall team_id team,
          dget team_id teams = Some team ->
          exists inner,
            dget team_id team_data = Some inner /\
            forall agent,
              dget agent inner
              = if mem agent team then dget agent agent_data else None.
Proof.
  intros V debug teams agent_data Hwf.
  rewrite group_into_teams_eq. cbn [existsb]. rewrite orb_false_r.
  destruct (debug && negb (same_agents teams agent_data)); [reflexivity|].
  exists (grouped_of teams agent_data).
  split; [reflexivity|]. now apply grouped_of_entries.
Qed.

(** Validation off and a partial mapping: the absent member [a] is left out;
    validation on and the same mapping: the call raises. *)
Lemma group_into_teams_entries_witness :
  let teams := [("red", ["a"; "b"]); ("blue", ["c"])] in
  let agent_data := [("b", 2%Z); ("c", 3%Z)] in
  (exists team_data inner,
      group_into_teams false teams [agent_data] = Ok (GroupedOne team_data) /\
      dkeys team_data = ["red"; "blue"] /\
      dget "red" team_data = Some inner /\
      dget "a" inner = None /\ dget "b" inner = Some 2%Z /\ dget "c" inner = None) /\
  group_into_teams true teams [agent_data] = Raise (ValueError "Invalid teams").
Proof.
  cbv zeta.
  assert (Hwf : wf_dict [("red", ["a"; "b"]); ("blue", ["c"])]).
  { unfold wf_dict. simpl. repeat constructor; simpl; intuition discriminate. }
  split.
  - destruct (@group_into_teams_entries Z false
                [("red", ["a"; "b"]); ("blue", ["c"])] [("b", 2%Z); ("c", 3%Z)] Hwf)
      as (team_data & Hgroup & Hkeys & Hentries).
    destruct (Hentries "red" ["a"; "b"] eq_refl) as (inner & Hinner & Hagents).
    exists team_data, inner.
    split; [exact Hgroup|]. split; [exact Hkeys|]. split; [exact Hinner|].
    split; [apply (Hagents "a")|]. split; [apply (Hagents "b") | apply (Hagents "c")].
  - exact (@group_into_teams_entries Z true
             [("red", ["a"; "b"]); ("blue", ["c"])] [("b", 2%Z); ("c", 3%Z)] Hwf).
Defined.

(** X3. In both modes: whenever [group_into_teams] accepts a mapping
    (validation off, or the mapping's agent set equal to the set of the team
    members), ungrouping what it returns gives the mapping restricted to the
    team members: an agent of some team keeps its value, an agent of no team
    is dropped. With validation on, a mapping with another agent set is
    rejected with the invalid-teams error. *)
Theorem ungroup_group_restricts :
  forall (V : Type) (debug : bool) (teams : teams_t) (agent_data : dict V),
    wf_dict teams ->
    if debug && negb (same_agents teams agent_data)
    then group_into_teams debug teams [agent_data]
         = Raise (ValueError "Invalid teams")
    else exists team_data,
        group_into_teams debug teams [agent_data] = Ok (GroupedOne team_data) /\
        forall agent,
          dget agent (ungroup_from_teams team_data)
          = if mem agent (team_members teams) then dget agent agent_data else None.
Proof.
  intros V debug teams agent_data Hwf.
  rewrite group_into_teams_eq. cbn [existsb]. rewrite orb_false_r.
  destruct (debug && negb (same_agents teams agent_data)); [reflexivity|].
  exists (grouped_of teams agent_data).
  split; [reflexivity|]. now apply ungroup_grouped_of.
Qed.

(** Validation off: the agent [z] of no team is dropped and the absent
    member [a] stays absent; validation on: the same mapping is rejected. *)
Lemma ungroup_group_restricts_witness :
  let teams := [("red", ["a"; "b"]); ("blue", ["c"])] in
  let agent_data := [("b", 2%Z); ("z", 9%Z)] in
  (exists team_data,
      group_into_teams false teams [agent_data] = Ok (GroupedOne team_data) /\
      dget "b" (ungroup_from_teams team_data) = Some 2%Z /\
      dget "z" (ungroup_from_teams team_data) = None /\
      dget "a" (ungroup_from_teams team_data) = None) /\
  group_into_teams true teams [agent_data] = Raise (ValueError "Invalid teams").
Proof.
  cbv zeta.
  assert (Hwf : wf_dict [("red", ["a"; "b"]); ("blue", ["c"])]).
  { unfold wf_dict. simpl. repeat constructor; simpl; intuition discriminate. }
  split.
  - destruct (@ungroup_group_restricts Z false
                [("red", ["a"; "b"]); ("blue", ["c"])] [("b", 2%Z); ("z", 9%Z)] Hwf)
      as (team_data & Hgroup & Hget).
    exists team_data. split; [exact Hgroup|].
    split; [apply (Hget "b")|]. split; [apply (Hget "z") | apply (Hget "a")].
  - exact (@ungroup_group_restricts Z true
             [("red", ["a"; "b"]); ("blue", ["c"])] [("b", 2%Z); ("z", 9%Z)] Hwf).
Defined.

(** X4. [check_teams] accepts a team configuration exactly when every
    possible agent is a member of some team and every member of a team is a
    possible agent; how often or in how many teams an agent is listed plays
    no part. *)
Theorem check_teams_sets :
  forall (possible_agents : list string) (teams : teams_t),
    check_teams possible_agents teams = Ok tt <->
    (forall agent,
        In agent possible_agents <->
        exists team_id team, In (team_id, team) teams /\ In agent team).
Proof.
  intros possible_agents teams. unfold check_teams.
  assert (Hmembers : forall agent,
             In agent (team_members teams) <->
             exists team_id team, In (team_id, team) teams /\ In agent team).
  { intros agent. unfold team_members, dvalues. rewrite in_concat. split.
    - intros [team [Hteam Hin]]. apply in_map_iff in Hteam.
      destruct Hteam as [[team_id team'] [Heq Hitem]]. simpl in Heq. subst team'.
      now exists team_id, team.
    - intros [team_id [team [Hitem Hin]]]. exists team. split; [|assumption].
      apply in_map_iff. now exists (team_id, team). }
  destruct (set_eqb possible_agents (team_members teams)) eqn:E; simpl.
  - split; [|reflexivity]. intros _ agent.
    rewrite <- Hmembers. now apply set_eqb_spec.
  - split; [discriminate|]. intros H. exfalso.
    assert (Ht : set_eqb possible_agents (team_members teams) = true).
    { apply set_eqb_spec. intros agent. now rewrite H, Hmembers. }
    congruence.
Qed.

(** X5. Padding is idempotent: padding a padded mapping over the same agents
    changes nothing, whatever the second pad value is. *)
Theorem pad_agent_data_idempotent :
  forall (V : Type) (data : dict V) (agents : list string) (pad_value other : V),
    pad_agent_data (pad_agent_data data agents pad_value) agents other
    = pad_agent_data data agents pad_value.
Proof.
  intros V data agents pad_value other.
  unfold pad_agent_data at 1 3. f_equal. apply map_ext_in.
  intros agent Hin. rewrite pad_agent_data_get.
  apply mem_In in Hin. now rewrite Hin.
Qed.

(* ------------------------------------------------------------------------- *)
(** ** The pure-Python flattener and unflattener *)

Lemma python_unflatten_helper_conforms (s : space) : forall x,
  wf_space s = true ->
  conforms s x = true ->
  forall pre post flat_sample,
    flat_sample
    = pre ++ map (fun v => NdArray (np_array1 v)) (sample_leaves x) ++ post ->
    unflatten_helper flat_sample s (length pre)
    = Ok (x, length pre + length (sample_leaves x)).
Proof.
  induction s as [l|elems IH|items IH] using space_ind';
    intros x Hwf Hx pre post flat_sample Hflat.
  - destruct x as [v| |]; try discriminate. simpl in Hx, Hflat. subst flat_sample.
    destruct (leaf_conforms_inv _ _ Hx) as [(n & z & -> & ->)|(a & -> & Hd & _)].
    + simpl. rewrite getitem_list_middle. simpl. now rewrite Qtrunc_inject_Z.
    + destruct l; try discriminate; simpl; now rewrite getitem_list_middle.
  - destruct x as [|xs|]; try discriminate.
    cbn [unflatten_helper]. cbn [conforms wf_space] in Hx, Hwf.
    cbn [sample_leaves] in *.
    assert (Hloop :
      collect (fun subspace idx => unflatten_helper flat_sample subspace idx)
        elems (length pre)
      = Ok (xs, length pre + length (flat_map sample_leaves xs))).
    { clear -IH Hwf Hx Hflat. revert xs pre post Hx Hflat.
      induction IH as [|elem elems Helem _ IHelems]; intros [|x xs] pre post Hx Hflat;
        simpl in Hx, Hwf; try discriminate.
      - simpl. now rewrite Nat.add_0_r.
      - apply andb_true_iff in Hx. destruct Hx as [Hx Hxs].
        apply andb_true_iff in Hwf. destruct Hwf as [Hwe Hwes].
        cbn [collect flat_map map] in *.
        rewrite (Helem x Hwe Hx pre
                   (map (fun v => NdArray (np_array1 v))
                        (flat_map sample_leaves xs) ++ post)).
        2:{ rewrite Hflat, map_app, <- app_assoc. reflexivity. }
        cbn [bind fst snd].
        replace (length pre + length (sample_leaves x))
          with (length (pre ++ map (fun v => NdArray (np_array1 v))
                                   (sample_leaves x)))
          by (now rewrite length_app, length_map).
        rewrite (IHelems Hwes xs
                   (pre ++ map (fun v => NdArray (np_array1 v)) (sample_leaves x))
                   post Hxs).
        2:{ rewrite Hflat, map_app, <- !app_assoc. reflexivity. }
        cbn [bind fst snd]. rewrite !length_app, length_map.
        f_equal. f_equal. lia. }
    rewrite Hloop. reflexivity.
  - destruct x as [| |xitems]; try discriminate.
    cbn [unflatten_helper]. cbn [conforms wf_space] in Hx, Hwf.
    cbn [sample_leaves] in *.
    apply andb_true_iff in Hwf. destruct Hwf as [Hnodup Hwf].
    assert (Hkeys : map fst xitems = map fst items).
    { clear -Hx. revert xitems Hx.
      induction items as [|[k v] items IHi]; intros [|[k' x] xitems] Hx;
        simpl in *; try discriminate; [reflexivity|].
      rewrite !andb_true_iff in Hx. destruct Hx as [[Hk _] Hxs].
      apply String.eqb_eq in Hk. subst. f_equal. now apply IHi. }
    assert (Hloop :
      collect (fun (kv : string * space) idx =>
                 r <- unflatten_helper flat_sample (snd kv) idx ;;
                 Ok ((fst kv, fst r), snd r))
        items (length pre)
      = Ok (xitems,
            length pre
            + length (flat_map (fun kv => sample_leaves (snd kv)) xitems))).
    { clear -IH Hwf Hx Hflat. revert xitems pre post Hx Hflat.
      induction IH as [|[k value] items Hvalue _ IHitems];
        intros [|[k' x] xitems] pre post Hx Hflat;
        simpl in Hx, Hwf; try discriminate.
      - simpl. now rewrite Nat.add_0_r.
      - rewrite !andb_true_iff in Hx. destruct Hx as [[Hk Hx] Hxs].
        apply String.eqb_eq in Hk. subst k'.
        apply andb_true_iff in Hwf. destruct Hwf as [Hwe Hwes].
        cbn [collect flat_map map fst snd] in *.
        rewrite (Hvalue x Hwe Hx pre
                   (map (fun v => NdArray (np_array1 v))
                      (flat_map (fun kv => sample_leaves (snd kv)) xitems) ++ post)).
        2:{ rewrite Hflat, map_app, <- app_assoc. reflexivity. }
        cbn [bind fst snd].
        replace (length pre + length (sample_leaves x))
          with (length (pre ++ map (fun v => NdArray (np_array1 v))
                                   (sample_leaves x)))
          by (now rewrite length_app, length_map).
        rewrite (IHitems Hwes xitems
                   (pre ++ map (fun v => NdArray (np_array1 v)) (sample_leaves x))
                   post Hxs).
        2:{ rewrite Hflat, map_app, <- !app_assoc. reflexivity. }
        cbn [bind fst snd]. rewrite !length_app, length_map.
        f_equal. f_equal. lia. }
    rewrite Hloop. cbn [bind fst snd].
    rewrite dict_of_fresh; [reflexivity|].
    rewrite Hkeys. now apply nodupb_NoDup.
Qed.

(** X6. The pure-Python pair round-trips exactly: for every schema with
    distinct mapping keys and every conforming sample,
    [python_unflatten(python_flatten(sample), schema)] is the sample, with
    every categorical leaf a plain integer and every array as it was (a
    zero-dimensional array included). No condition on the number of leaves
    or on the flat keys is needed. *)
Theorem python_round_trip :
  forall (s : space) (x : pyobj),
    wf_space s = true ->
    conforms s x = true ->
    python_unflatten (map NdArray (python_flatten x)) s = Ok x.
Proof.
  intros s x Hwf Hx. unfold python_unflatten.
  rewrite (@python_unflatten_helper_conforms s x Hwf Hx [] []).
  - reflexivity.
  - rewrite python_flatten_leaves, map_map. simpl. now rewrite app_nil_r.
Qed.

Lemma python_round_trip_witness :
  let s := Tuple [Leaf (Box NegInf PosInf [] float32); Leaf (Discrete 10)] in
  let x := PyTuple [PyLeaf (NdArray (mk_ndarray [] float32 [3 # 2]%Q));
                    PyLeaf (PyInt 7)] in
  python_unflatten (map NdArray (python_flatten x)) s = Ok x.
Proof.
  exact (@python_round_trip
           (Tuple [Leaf (Box NegInf PosInf [] float32); Leaf (Discrete 10)])
           (PyTuple [PyLeaf (NdArray (mk_ndarray [] float32 [3 # 2]%Q));
                     PyLeaf (PyInt 7)])
           eq_refl eq_refl).
Defined.

(* ------------------------------------------------------------------------- *)
(** ** More on [split], [concatenate] and the merged description *)

Lemma flat_size_cons (key : string) (subspace : leaf_space)
  (items : list (string * leaf_space)) :
  flat_size ((key, subspace) :: items) = leaf_count subspace + flat_size items.
Proof. reflexivity. Qed.

Lemma split_leaf_short (n : nat) (typ : dtype) (xs : list Q) (batch ptr : nat)
  (leaves : dict pyval) (key : string) (subspace : leaf_space) :
  ptr <= n ->
  n < ptr + leaf_count subspace ->
  split_leaf (NdArray (mk_ndarray [n] typ xs)) false batch (leaves, ptr)
    (key, subspace)
  = Raise (ValueError "cannot reshape array").
Proof.
  intros Hptr Hshort. unfold split_leaf.
  fold (leaf_count subspace). fold (returned_shape (space_shape subspace)).
  unfold getitem_slice. cbn [shape dtype_of data bind].
  rewrite (Nat.min_l ptr n) by lia.
  rewrite (Nat.min_r (ptr + leaf_count subspace) n) by lia.
  rewrite (Nat.max_r ptr n) by lia.
  unfold reshape, size. cbn [shape np_prod fold_right].
  rewrite np_prod_returned_shape. fold (leaf_count subspace).
  rewrite Nat.mul_1_r.
  assert (Hne : (leaf_count subspace =? n - ptr) = false)
    by (apply Nat.eqb_neq; lia).
  now rewrite Hne.
Qed.

Lemma split_loop_short (n : nat) (typ : dtype) (xs : list Q) (batch : nat)
  (items : list (string * leaf_space)) :
  length xs = n ->
  forall ptr leaves,
    ptr <= n ->
    n < ptr + flat_size items ->
    for_each (split_leaf (NdArray (mk_ndarray [n] typ xs)) false batch) items
      (leaves, ptr)
    = Raise (ValueError "cannot reshape array").
Proof.
  intros Hlen.
  induction items as [|[key subspace] items IH]; intros ptr leaves Hptr Hshort.
  - unfold flat_size in Hshort. simpl in Hshort. lia.
  - rewrite flat_size_cons in Hshort. cbn [for_each].
    destruct (le_lt_dec (ptr + leaf_count subspace) n) as [Hfits|Hover].
    + rewrite (@split_leaf_vector n typ xs Hlen) by assumption. cbn [bind].
      apply IH; lia.
    + now rewrite split_leaf_short.
Qed.

(** X7. A flat vector with fewer elements than the leaves of the map count
    together is rejected: unbatched [split] raises the reshape error at the
    first leaf that the vector cannot fill. (A longer vector is accepted, see
    C10.) *)
Theorem split_short_vector :
  forall (flat_space : dict leaf_space) (n : nat) (typ : dtype) (xs : list Q),
    length xs = n ->
    n < flat_size flat_space ->
    split (NdArray (mk_ndarray [n] typ xs)) flat_space false
    = Raise (ValueError "cannot reshape array").
Proof.
  intros flat_space n typ xs Hlen Hshort. unfold split. cbn [bind].
  rewrite split_loop_short; [reflexivity | assumption | lia | simpl; lia].
Qed.

Lemma split_short_vector_witness :
  split (NdArray (mk_ndarray [2] float64 [1; 2]%Q))
    (flatten_space (Dict [("pos", Leaf (Box NegInf PosInf [2] float32));
                          ("hp", Leaf (Discrete 10))]))
    false
  = Raise (ValueError "cannot reshape array").
Proof.
  apply (@split_short_vector
           (flatten_space (Dict [("pos", Leaf (Box NegInf PosInf [2] float32));
                                 ("hp", Leaf (Discrete 10))]))
           2 float64 [1; 2]%Q eq_refl).
  vm_compute. lia.
Defined.

(** X8. The flat form of a conforming sample with two leaves or more is a
    one-dimensional array with exactly as many elements as the leaf map of
    the schema counts, so it is a vector that [split] accepts in full. *)
Theorem concatenate_flat_size :
  forall (s : space) (x : pyobj),
    distinct_keys s = true ->
    conforms s x = true ->
    2 <= length (spec_items s) ->
    exists a,
      concatenate (flatten x) = Ok (NdArray a) /\
      shape a = [flat_size (flatten_space s)] /\
      length (data a) = flat_size (flatten_space s).
Proof.
  intros s x Hdistinct Hx Htwo.
  pose proof (conforms_items s x Hx) as Hitems.
  pose proof (conforming_items_keys Hitems) as Hkeys.
  apply nodupb_NoDup in Hdistinct.
  rewrite (flatten_space_distinct s Hdistinct).
  assert (Hflat : flatten x = sample_items x).
  { rewrite flatten_spec. apply dict_of_fresh. unfold spec_keys in Hdistinct.
    now rewrite Hkeys. }
  rewrite Hflat.
  destruct (conforming_items_size Hitems) as [Hlen Hsum].
  assert (Hlength : length (sample_items x) = length (spec_items s)).
  { symmetry. eapply Forall2_length. exact Hitems. }
  destruct (sample_items x) as [|[k v] [|[k' v'] rest]] eqn:E;
    simpl in Hlength; try lia.
  pose proof (concatenate_many k k' v v' rest) as Hcat. cbv zeta in Hcat.
  eexists. split; [exact Hcat|].
  cbn [shape data]. rewrite promoted_length, Hsum, Hlen. now split.
Qed.

Lemma concatenate_flat_size_witness :
  let s := Dict [("pos", Leaf (Box NegInf PosInf [2] float32));
                 ("hp", Leaf (Discrete 10))] in
  let x := PyDict [("pos", PyLeaf (NdArray (mk_ndarray [2] float32 [1; 2]%Q)));
                   ("hp", PyLeaf (PyInt 7))] in
  exists a,
    concatenate (flatten x) = Ok (NdArray a) /\
    shape a = [flat_size (flatten_space s)] /\
    length (data a) = flat_size (flatten_space s).
Proof.
  apply (@concatenate_flat_size
           (Dict [("pos", Leaf (Box NegInf PosInf [2] float32));
                  ("hp", Leaf (Discrete 10))])
           (PyDict [("pos", PyLeaf (NdArray (mk_ndarray [2] float32 [1; 2]%Q)));
                    ("hp", PyLeaf (PyInt 7))])
           eq_refl eq_refl).
  simpl. lia.
Defined.

Lemma cardinalities_count (l : list leaf_space) :
  forallb is_categorical l = true ->
  length (flat_map cardinalities l) = list_sum (map leaf_count l).
Proof.
  induction l as [|e l IH]; simpl; [reflexivity|].
  intros H. apply andb_true_iff in H. destruct H as [He Hl].
  rewrite length_app, IH by assumption. f_equal.
  destruct e; try discriminate; unfold leaf_count; simpl; lia.
Qed.

(** X9. The merged vector-categorical description has one cardinality per
    element that [split] reads: when [convert_to_multidiscrete] succeeds, the
    length of its cardinality vector is the element count of the leaf map, so
    unbatched [split] succeeds on every action vector of that length. *)
Theorem multidiscrete_matches_split :
  forall (flat_space : dict leaf_space) (lens : list Z),
    convert_to_multidiscrete flat_space = Ok (MultiDiscrete lens) ->
    length lens = flat_size flat_space /\
    forall (typ : dtype) (xs : list Q),
      length xs = length lens ->
      split (NdArray (mk_ndarray [length lens] typ xs)) flat_space false
      = Ok (dict_of (decode xs 0 flat_space)).
Proof.
  intros flat_space lens H.
  rewrite convert_to_multidiscrete_eq in H.
  destruct (forallb is_categorical (dvalues flat_space)) eqn:Hcat; [|discriminate].
  injection H as <-.
  assert (Hlen : length (flat_map cardinalities (dvalues flat_space))
                 = flat_size flat_space) by now apply cardinalities_count.
  split; [exact Hlen|].
  intros typ xs Hxs. apply split_vector; [assumption | lia].
Qed.

Lemma multidiscrete_matches_split_witness :
  let flat_space := flatten_space (Dict [("a", Leaf (Discrete 5));
                                         ("b", Leaf (MultiDiscrete [3; 2]%Z))]) in
  length [5; 3; 2]%Z = flat_size flat_space /\
  split (NdArray (mk_ndarray [3] int64 [4; 2; 1]%Q)) flat_space false
  = Ok (dict_of (decode [4; 2; 1]%Q 0 flat_space)).
Proof.
  cbv zeta.
  destruct (@multidiscrete_matches_split
              (flatten_space (Dict [("a", Leaf (Discrete 5));
                                    ("b", Leaf (MultiDiscrete [3; 2]%Z))]))
              [5; 3; 2]%Z eq_refl) as [Hlen Hsplit].
  split; [exact Hlen|]. apply (Hsplit int64 [4; 2; 1]%Q). reflexivity.
Defined.

(* ------------------------------------------------------------------------- *)
(** ** When the flat keys are distinct *)

Lemma append_inj (p a b : string) : (p ++ a)%string = (p ++ b)%string -> a = b.
Proof.
  induction p as [|c p IH]; simpl; intros H; [assumption|].
  injection H as H. now apply IH.
Qed.

Lemma NoDup_map_append (p : string) (l : list string) :
  NoDup l -> NoDup (map (String.append p) l).
Proof.
  induction 1 as [|a l Ha _ IH]; simpl; constructor; [|assumption].
  intros Hin. apply in_map_iff in Hin. destruct Hin as [b [Hb Hin]].
  apply append_inj in Hb. now subst.
Qed.

(** A path component ends at the first dot. *)
Lemma component_inj (k1 k2 a b : string) :
  dot_free k1 = true -> dot_free k2 = true ->
  (k1 ++ "." ++ a)%string = (k2 ++ "." ++ b)%string ->
  k1 = k2 /\ a = b.
Proof.
  revert k2. induction k1 as [|c k1 IH]; intros [|c2 k2] H1 H2 H; simpl in *.
  - injection H as H. now split.
  - injection H as Hc _. subst c2. discriminate.
  - injection H as Hc _. subst c. discriminate.
  - injection H as Hc H. subst c2.
    apply andb_true_iff in H1. apply andb_true_iff in H2.
    destruct (IH k2) as [-> ->]; tauto.
Qed.

Lemma digits_dot_free (d : Decimal.uint) :
  dot_free (NilEmpty.string_of_uint d) = true.
Proof. induction d; simpl; auto. Qed.

Lemma str_of_nat_dot_free (n : nat) : dot_free (str_of_nat n) = true.
Proof.
  unfold str_of_nat, NilZero.string_of_uint.
  destruct (Nat.to_uint n); try reflexivity; apply digits_dot_free.
Qed.

Lemma str_of_nat_inj (n m : nat) : str_of_nat n = str_of_nat m -> n = m.
Proof.
  unfold str_of_nat. intros H.
  assert (Hnonnil : forall k, Nat.to_uint k <> Decimal.Nil).
  { intros k. rewrite <- (DecimalNat.Unsigned.of_to k) at 1.
    rewrite DecimalNat.Unsigned.to_of. apply DecimalFacts.unorm_nonnil. }
  apply DecimalNat.Unsigned.to_uint_inj.
  pose proof (NilZero.usu _ (Hnonnil n)) as Hn.
  pose proof (NilZero.usu _ (Hnonnil m)) as Hm.
  rewrite H in Hn. congruence.
Qed.

Lemma keys_under (V : Type) (prefix : string) (l : list (string * V)) :
  map fst (map (under prefix) l) = map (String.append prefix) (map fst l).
Proof. rewrite !map_map. reflexivity. Qed.

Lemma tuple_key_append (idx : nat) (a : string) :
  (tuple_key "" idx ++ a)%string
  = String "T" (str_of_nat idx ++ "." ++ a)%string.
Proof. unfold tuple_key. simpl. now rewrite append_assoc. Qed.

Lemma dict_key_append (k a : string) :
  (dict_key "" k ++ a)%string = String "D" (k ++ "." ++ a)%string.
Proof. unfold dict_key. simpl. now rewrite append_assoc. Qed.

Lemma tuple_children_keys (elems : list space) : forall idx key,
  In key (map fst (enumerate_flat_map
                     (fun idx elem =>
                        map (under (tuple_key "" idx)) (spec_items elem))
                     elems idx)) ->
  exists j a, idx <= j /\ key = (tuple_key "" j ++ a)%string.
Proof.
  induction elems as [|elem elems IH]; intros idx key Hin; simpl in Hin.
  - contradiction.
  - rewrite map_app in Hin. apply in_app_or in Hin. destruct Hin as [Hin|Hin].
    + rewrite keys_under in Hin. apply in_map_iff in Hin.
      destruct Hin as [a [<- _]]. exists idx, a. split; [lia | reflexivity].
    + destruct (IH _ _ Hin) as (j & a & Hj & ->). exists j, a. split; [lia | reflexivity].
Qed.

Lemma dict_children_keys (items : list (string * space)) : forall key,
  In key (map fst (flat_map
                     (fun kv =>
                        map (under (dict_key "" (fst kv))) (spec_items (snd kv)))
                     items)) ->
  exists k a, In k (map fst items) /\ key = (dict_key "" k ++ a)%string.
Proof.
  induction items as [|[k value] items IH]; intros key Hin; simpl in Hin.
  - contradiction.
  - rewrite map_app in Hin. apply in_app_or in Hin. destruct Hin as [Hin|Hin].
    + rewrite keys_under in Hin. apply in_map_iff in Hin.
      destruct Hin as [a [<- _]]. exists k, a. split; [now left | reflexivity].
    + destruct (IH _ Hin) as (k' & a & Hk & ->). exists k', a.
      split; [now right | reflexivity].
Qed.

Lemma spec_keys_distinct (s : space) :
  wf_space s = true -> plain_keys s = true -> NoDup (spec_keys s).
Proof.
  unfold spec_keys.
  induction s as [l|elems IH|items IH] using space_ind'; intros Hwf Hplain.
  - simpl. repeat constructor. intros [].
  - cbn [spec_items wf_space plain_keys] in *. generalize 0 as idx.
    induction IH as [|elem elems Helem _ IHelems]; intros idx; simpl.
    + constructor.
    + simpl in Hwf, Hplain.
      apply andb_true_iff in Hwf. destruct Hwf as [Hwe Hwes].
      apply andb_true_iff in Hplain. destruct Hplain as [Hpe Hpes].
      rewrite map_app. apply NoDup_app.
      * rewrite keys_under. apply NoDup_map_append. now apply Helem.
      * now apply IHelems.
      * intros key Hin1 Hin2. rewrite keys_under in Hin1.
        apply in_map_iff in Hin1. destruct Hin1 as [a [<- _]].
        apply tuple_children_keys in Hin2. destruct Hin2 as (j & b & Hj & Heq).
        rewrite !tuple_key_append in Heq. injection Heq as Heq.
        apply component_inj in Heq; try apply str_of_nat_dot_free.
        destruct Heq as [Heq _]. apply str_of_nat_inj in Heq. lia.
  - cbn [spec_items wf_space plain_keys] in *.
    apply andb_true_iff in Hwf. destruct Hwf as [Hnodup Hwf].
    apply nodupb_NoDup in Hnodup.
    induction IH as [|[k value] items Hvalue _ IHitems]; simpl.
    + constructor.
    + simpl in Hwf, Hplain, Hnodup, Hvalue.
      apply andb_true_iff in Hwf. destruct Hwf as [Hwe Hwes].
      apply andb_true_iff in Hplain. destruct Hplain as [Hpe Hpes].
      apply andb_true_iff in Hpe. destruct Hpe as [Hk Hpe].
      inversion Hnodup as [|? ? Hnotin Hnodup']. subst.
      rewrite map_app. apply NoDup_app.
      * rewrite keys_under. apply NoDup_map_append. now apply Hvalue.
      * now apply IHitems.
      * intros key Hin1 Hin2. rewrite keys_under in Hin1.
        apply in_map_iff in Hin1. destruct Hin1 as [a [<- _]].
        apply dict_children_keys in Hin2. destruct Hin2 as (k' & b & Hk' & Heq).
        rewrite !dict_key_append in Heq. injection Heq as Heq.
        assert (Hk'free : dot_free k' = true).
        { rewrite forallb_forall in Hpes. apply in_map_iff in Hk'.
          destruct Hk' as [[k0 v0] [Hk0 Hin0]]. simpl in Hk0. subst k0.
          specialize (Hpes _ Hin0). simpl in Hpes.
          apply andb_true_iff in Hpes. tauto. }
        apply component_inj in Heq; try assumption.
        destruct Heq as [-> _]. contradiction.
Qed.

Lemma NoDup_nodupb (l : list string) : NoDup l -> nodupb l = true.
Proof.
  induction 1 as [|k l Hk _ IH]; simpl; [reflexivity|].
  apply mem_false in Hk. now rewrite Hk, IH.
Qed.

(** X10. When the keys of every mapping container are distinct and none of
    them contains a dot, no two leaves of the schema get the same flat key:
    the leaf map of [flatten_space] has one entry per leaf, in traversal
    order. (With a dot in a key two paths can coincide and the later leaf
    replaces the earlier one.) *)
Theorem flatten_space_one_entry_per_leaf :
  forall s : space,
    wf_space s = true ->
    plain_keys s = true ->
    distinct_keys s = true /\
    flatten_space s = spec_items s /\
    length (flatten_space s) = length (spec_items s).
Proof.
  intros s Hwf Hplain.
  pose proof (spec_keys_distinct s Hwf Hplain) as Hdistinct.
  split; [now apply NoDup_nodupb|].
  rewrite (flatten_space_distinct s Hdistinct). now split.
Qed.

Lemma flatten_space_one_entry_per_leaf_witness :
  let s := Tuple [Leaf (Discrete 3);
                  Dict [("a", Leaf (MultiDiscrete [2%Z; 2%Z]));
                        ("b", Tuple [Leaf (Discrete 4)])]] in
  distinct_keys s = true /\
  flatten_space s = spec_items s /\
  length (flatten_space s) = length (spec_items s).
Proof.
  exact (@flatten_space_one_entry_per_leaf
           (Tuple [Leaf (Discrete 3);
                   Dict [("a", Leaf (MultiDiscrete [2%Z; 2%Z]));
                         ("b", Tuple [Leaf (Discrete 4)])]])
           eq_refl eq_refl).
Defined.

(* ------------------------------------------------------------------------- *)
(** ** Batched [split] *)

Lemma split_leaf_batched (batch n : nat) (typ : dtype) (xs : list Q)
  (ptr : nat) (leaves : dict pyval) (key : string) (subspace : leaf_space) :
  ptr + leaf_count subspace <= n ->
  split_leaf (NdArray (mk_ndarray [batch; n] typ xs)) true batch (leaves, ptr)
    (key, subspace)
  = Ok (dset key (decode_leaf_batched batch n typ xs ptr subspace) leaves,
        ptr + leaf_count subspace).
Proof.
  intros H. unfold split_leaf.
  fold (leaf_count subspace). fold (returned_shape (space_shape subspace)).
  unfold getitem_slice1. cbn [shape dtype_of data bind np_prod fold_right].
  rewrite (Nat.min_l ptr n) by lia.
  rewrite (Nat.min_l (ptr + leaf_count subspace) n) by lia.
  rewrite (Nat.max_r ptr (ptr + leaf_count subspace)) by lia.
  replace (ptr + leaf_count subspace - ptr) with (leaf_count subspace) by lia.
  rewrite !Nat.mul_1_r.
  unfold reshape, size. cbn [shape np_prod fold_right bind].
  rewrite np_prod_returned_shape. fold (leaf_count subspace).
  rewrite Nat.mul_1_r, Nat.eqb_refl. cbn [bind dtype_of data].
  reflexivity.
Qed.

Lemma split_loop_batched (batch n : nat) (typ : dtype) (xs : list Q)
  (items : list (string * leaf_space)) :
  forall ptr leaves,
    ptr + flat_size items <= n ->
    for_each (split_leaf (NdArray (mk_ndarray [batch; n] typ xs)) true batch)
      items (leaves, ptr)
    = Ok (dupdate (decode_batched batch n typ xs ptr items) leaves,
          ptr + flat_size items).
Proof.
  induction items as [|[key subspace] items IH]; intros ptr leaves H.
  - simpl. unfold flat_size. simpl. now rewrite Nat.add_0_r.
  - rewrite flat_size_cons in *.
    cbn [for_each]. rewrite split_leaf_batched by lia. cbn [bind].
    rewrite IH by lia.
    cbn [decode_batched]. unfold dupdate. cbn [fold_left fst snd].
    f_equal. f_equal. lia.
Qed.

(** X11. Batched [split] on a [batch] by [n] array whose rows are at least as
    long as the leaves of the map count together succeeds; every leaf keeps
    the leading batch dimension and holds, row by row, the columns that the
    unbatched call would read; the elements are not cast and a categorical
    leaf stays an array of shape [(batch, 1)]. On a one-dimensional vector
    and a non-empty leaf map it raises [IndexError]. *)
Theorem split_batched_correct :
  forall (flat_space : dict leaf_space) (batch n : nat) (typ : dtype)
         (xs : list Q),
    (flat_size flat_space <= n ->
     split (NdArray (mk_ndarray [batch; n] typ xs)) flat_space true
     = Ok (dict_of (decode_batched batch n typ xs 0 flat_space))) /\
    (flat_space <> [] ->
     split (NdArray (mk_ndarray [n] typ xs)) flat_space true
     = Raise (IndexError "too many indices for array")).
Proof.
  intros flat_space batch n typ xs. split.
  - intros H. unfold split. cbn [shape0 shape bind].
    now rewrite split_loop_batched.
  - intros H. destruct flat_space as [|[key subspace] rest]; [congruence|].
    reflexivity.
Qed.

Lemma split_batched_correct_witness :
  let flat_space := flatten_space
                      (Dict [("pos", Leaf (Box NegInf PosInf [2] float32));
                             ("hp", Leaf (Discrete 10))]) in
  split (NdArray (mk_ndarray [2; 3] float64 [1; 2; 7; 3; 4; 8]%Q)) flat_space true
  = Ok (dict_of (decode_batched 2 3 float64 [1; 2; 7; 3; 4; 8]%Q 0 flat_space)) /\
  split (NdArray (mk_ndarray [3] float64 [1; 2; 7]%Q)) flat_space true
  = Raise (IndexError "too many indices for array").
Proof.
  cbv zeta. split.
  - apply (@split_batched_correct
             (flatten_space
                (Dict [("pos", Leaf (Box NegInf PosInf [2] float32));
                       ("hp", Leaf (Discrete 10))]))
             2 3 float64 [1; 2; 7; 3; 4; 8]%Q).
    vm_compute. lia.
  - apply (@split_batched_correct
             (flatten_space
                (Dict [("pos", Leaf (Box NegInf PosInf [2] float32));
                       ("hp", Leaf (Discrete 10))]))
             0 3 float64 [1; 2; 7]%Q).
    discriminate.
Defined.

(* ------------------------------------------------------------------------- *)
(** ** Schema inference and the flat observation description *)






Section Inference.

Context `{R : Runtime}.




End Inference.


(** The order does differ on that sample, and with it the layout: the flat
    observation has the two elements of [pos] first, the leaf map that the
    adapters store as [flat_observation_space] has [hp] first. *)
Example make_space_like_sorts_keys :
  let ob := PyDict [("pos", PyLeaf (NdArray (mk_ndarray [2] float32 [1; 2]%Q)));
                    ("hp", PyLeaf (PyInt 7))] in
  dkeys (flatten ob) = ["Dpos.V"; "Dhp.V"] /\
  dkeys (flatten_space (make_space_like (R := demo_runtime true) ob))
  = ["Dhp.V"; "Dpos.V"] /\
  concatenate (flatten ob)
  = Ok (NdArray (mk_ndarray [3] float64 [1; 2; 7]%Q)).
Proof. repeat split. Qed.

(* ------------------------------------------------------------------------- *)
(** ** Validation and the adapters *)




(** *** No usage error after a reset *)

Lemma not_usage_bind (A B : Type) (r : result A) (k : A -> result B) :
  not_usage r -> (forall a, not_usage (k a)) -> not_usage (bind r k).
Proof.
  intros Hr Hk. destruct r as [a|e]; simpl; [apply Hk|].
  intros msg Heq. apply (Hr msg). congruence.
Qed.

Lemma not_usage_for_each (A St : Type) (body : St -> A -> result St)
  (l : list A) :
  (forall s x, not_usage (body s x)) -> forall s, not_usage (for_each body l s).
Proof.
  intros Hbody. induction l as [|x l IH]; intros s; simpl.
  - intros msg. discriminate.
  - apply not_usage_bind; [apply Hbody | exact IH].
Qed.

Ltac not_usage_step :=
  match goal with
  | |- not_usage (bind _ _) => apply not_usage_bind; [|intro]
  | |- not_usage (Ok _) => intros ?; discriminate
  | |- not_usage (Raise _) => intros ?; discriminate
  | |- not_usage (if ?b then _ else _) => destruct b
  | |- not_usage (match ?x with _ => _ end) => destruct x
  end.

Lemma not_usage_np_concatenate (arrs : list ndarray) :
  not_usage (np_concatenate arrs).
Proof. unfold np_concatenate. repeat not_usage_step. Qed.

Lemma not_usage_concatenate (flat_sample : dict pyval) :
  not_usage (concatenate flat_sample).
Proof.
  unfold concatenate. destruct (length flat_sample =? 1).
  - destruct (dvalues flat_sample); intros msg; discriminate.
  - apply not_usage_bind; [apply not_usage_np_concatenate|].
    intros a msg. discriminate.
Qed.

Lemma not_usage_split (stacked_sample : pyval) (flat_space : dict leaf_space)
  (batched : bool) :
  not_usage (split stacked_sample flat_space batched).
Proof.
  unfold split. apply not_usage_bind.
  { destruct batched; [|intros msg; discriminate].
    unfold shape0. repeat not_usage_step. }
  intros batch. apply not_usage_bind; [|intros st msg; discriminate].
  apply not_usage_for_each. intros [leaves ptr] [key subspace].
  unfold split_leaf. apply not_usage_bind; [|intros samp msg; discriminate].
  destruct batched.
  - apply not_usage_bind; [unfold getitem_slice1; repeat not_usage_step|].
    intros sl. apply not_usage_bind; [unfold reshape; repeat not_usage_step|].
    intros r msg. discriminate.
  - apply not_usage_bind; [unfold getitem_slice; repeat not_usage_step|].
    intros sl. apply not_usage_bind; [unfold reshape; repeat not_usage_step|].
    intros r. destruct (is_discrete subspace); [|intros msg; discriminate].
    apply not_usage_bind; [unfold getitem_index; repeat not_usage_step|].
    intros e. apply not_usage_bind; [unfold py_int; repeat not_usage_step|].
    intros z msg. discriminate.
Qed.

Lemma not_usage_convert_to_multidiscrete (flat_space : dict leaf_space) :
  not_usage (convert_to_multidiscrete flat_space).
Proof.
  unfold convert_to_multidiscrete.
  apply not_usage_bind; [|intros lens msg; discriminate].
  apply not_usage_for_each. intros lens e.
  unfold multidiscrete_leaf. destruct e; intros msg; discriminate.
Qed.

Section NoUsageError.

Context `{R : Runtime}.

Lemma not_usage_make_flat_and_box (obs_space : space) (obs : pyobj) :
  not_usage (make_flat_and_box_obs_space obs_space obs).
Proof.
  unfold make_flat_and_box_obs_space.
  apply not_usage_bind; [apply not_usage_concatenate|].
  intros [z|q|a]; try (intros msg; discriminate).
  destruct (get_dtype_bounds (dtype_of a)). intros msg. discriminate.
Qed.

Lemma not_usage_postprocess_and_flatten (ob : pyobj) (pp : postprocessor)
  (reward : Q) (done : bool) (info : dict Info) :
  not_usage (postprocess_and_flatten ob pp reward done info).
Proof.
  unfold postprocess_and_flatten.
  destruct (rewards_dones_infos pp reward done info) as [[reward' done'] info'].
  apply not_usage_bind; [apply not_usage_concatenate|].
  intros flat_ob msg. discriminate.
Qed.

Lemma no_usage_bind (S A B : Type) (m : M S A) (k : A -> M S B) :
  no_usage_error m -> (forall a, no_usage_error (k a)) ->
  no_usage_error (mbind m k).
Proof.
  intros Hm Hk s. unfold mbind. specialize (Hm s).
  destruct (m s) as [s' [a|e]]; [apply Hk|].
  simpl in *. intros msg Heq. apply (Hm msg). congruence.
Qed.

Lemma no_usage_lift (S A : Type) (r : result A) :
  not_usage r -> no_usage_error (@lift S A r).
Proof. intros Hr s. exact Hr. Qed.

Lemma no_usage_ret (S A : Type) (a : A) : no_usage_error (@ret S A a).
Proof. intros s msg. discriminate. Qed.

Lemma no_usage_modify (S : Type) (f : S -> S) : no_usage_error (modify f).
Proof. intros s msg. discriminate. Qed.

Lemma no_usage_cache_observation_space (obs_space : space) (pp : postprocessor) :
  no_usage_error (cache_observation_space obs_space pp).
Proof.
  intros c. unfold cache_observation_space.
  destruct (make_featurized_obs_and_space obs_space pp) as [featurized obs].
  pose proof (not_usage_make_flat_and_box featurized obs) as H.
  destruct (make_flat_and_box_obs_space featurized obs) as [[[flat box] pad]|e];
    simpl; intros msg Heq; [discriminate|].
  apply (H msg). congruence.
Qed.

Lemma no_usage_cache_action_space (keep : bool) (atn_space : space) :
  no_usage_error (cache_action_space keep atn_space).
Proof.
  intros c. unfold cache_action_space, make_flat_and_multidiscrete_atn_space.
  pose proof (not_usage_convert_to_multidiscrete (flatten_space atn_space)) as H.
  destruct (convert_to_multidiscrete (flatten_space atn_space)) as [md|e];
    simpl; intros msg Heq; [discriminate|].
  apply (H msg). congruence.
Qed.

Context `{G : !GymEnvironment}.

Import GymPufferEnv.

Lemma no_usage_on_cache (A : Type) (m : M space_cache A) :
  no_usage_error m -> no_usage_error (on_cache m).
Proof.
  intros Hm self. unfold on_cache. specialize (Hm (cache self)).
  now destruct (m (cache self)).
Qed.

Lemma no_usage_observation_space : no_usage_error observation_space.
Proof.
  unfold observation_space. apply no_usage_bind; [intros s msg; discriminate|].
  intros self. apply no_usage_on_cache, no_usage_cache_observation_space.
Qed.

Lemma no_usage_action_space : no_usage_error action_space.
Proof.
  unfold action_space. apply no_usage_bind; [intros s msg; discriminate|].
  intros self. apply no_usage_on_cache, no_usage_cache_action_space.
Qed.

(** Past its two guards, [step] raises no usage error. *)
Lemma gym_step_no_usage (self : t) (action : pyval) :
  initialized self = true -> done self = false ->
  not_usage (snd (step action self)).
Proof.
  intros Hi Hd. unfold step. unfold mbind at 1. unfold get at 1.
  rewrite Hi, Hd. cbn [negb].
  match goal with
  | |- not_usage (snd (?m self)) =>
      assert (H : no_usage_error m); [|exact (H self)]
  end.
  apply no_usage_bind.
  { destruct py_debug; [|apply no_usage_ret].
    apply no_usage_bind; [apply no_usage_action_space|].
    intros sp. destruct (negb _); [intros s msg; discriminate | apply no_usage_ret]. }
  intros _. apply no_usage_bind; [intros s msg; discriminate|].
  intros self1. apply no_usage_bind.
  { apply no_usage_lift. unfold getattr.
    destruct (flat_action_space (cache self1)); intros msg; discriminate. }
  intros flat. apply no_usage_bind; [apply no_usage_lift, not_usage_split|].
  intros leaves.
  destruct (gym_env_step (env self1) (cext_unflatten leaves))
    as [e [[[ob reward] done'] info]].
  apply no_usage_bind; [apply no_usage_modify|]. intros _.
  apply no_usage_bind; [apply no_usage_modify|]. intros _.
  apply no_usage_bind;
    [apply no_usage_lift, not_usage_postprocess_and_flatten|].
  intros [[[processed_ob single_reward] single_done] single_info].
  apply no_usage_bind; [|intros _; apply no_usage_ret].
  destruct py_debug; [|apply no_usage_ret].
  apply no_usage_bind; [apply no_usage_observation_space|].
  intros sp. destruct (negb _); [intros s msg; discriminate | apply no_usage_ret].
Qed.

End NoUsageError.

(** X15. [GymPufferEnv.reset] marks the adapter initialized and not done
    before it calls the environment, and the environment is the object that
    [_seed_and_reset] has acted on: when the reset of the environment raises,
    the exception is passed on, the marks stay, and the environment is as the
    failed calls have left it (seeded, if [env.seed] succeeded). So a [step]
    that follows a [reset], failed or not, is never refused with a usage
    error. *)
Theorem gym_reset_flags :
  forall (R : Runtime) (G : GymEnvironment) (self self' : GymPufferEnv.t)
         (seed : option Z) (r : result pyval),
    GymPufferEnv.reset seed self = (self', r) ->
    GymPufferEnv.initialized self' = true /\
    GymPufferEnv.done self' = false /\
    GymPufferEnv.env self'
    = fst (GymPufferEnv._seed_and_reset (GymPufferEnv.env self) seed) /\
    (forall e,
        snd (GymPufferEnv._seed_and_reset (GymPufferEnv.env self) seed) = Raise e ->
        r = Raise e) /\
    (forall action msg,
        snd (GymPufferEnv.step action self') <> Raise (APIUsageError msg)).
Proof.
  intros R G self self' seed r. unfold GymPufferEnv.reset.
  unfold mbind at 1. unfold modify at 1.
  unfold mbind at 1. unfold get at 1.
  unfold mbind at 1. cbn [GymPufferEnv.env GymPufferEnv.set_flags].
  destruct (GymPufferEnv._seed_and_reset (GymPufferEnv.env self) seed)
    as [env' [ob|e]]; unfold lift; cbn [fst snd]; intros [= <- <-].
  - split; [reflexivity|]. split; [reflexivity|]. split; [reflexivity|].
    split; [discriminate|].
    intros action. now apply gym_step_no_usage.
  - split; [reflexivity|]. split; [reflexivity|]. split; [reflexivity|].
    split; [now intros e' [= ->]|].
    intros action. now apply gym_step_no_usage.
Qed.

(** An environment whose [seed] succeeds and whose [reset] raises: after the
    failed reset the adapter holds the seeded environment and is marked
    initialized, and its [step] is not refused as a call before [reset]. *)
Lemma gym_reset_flags_witness :
  let self := GymPufferEnv.mk (E := failing_gym false) 5%Z Postprocessor false true
                empty_cache in
  let self' := fst (GymPufferEnv.reset (Some 42%Z) self) in
  snd (GymPufferEnv.reset (Some 42%Z) self) = Raise (ValueError "reset failed") /\
  GymPufferEnv.initialized self' = true /\
  GymPufferEnv.done self' = false /\
  GymPufferEnv.env self' = 42%Z /\
  snd (GymPufferEnv.step (NdArray (mk_ndarray [1] int64 [1%Q])) self')
  <> Raise (APIUsageError "step() called before reset()").
Proof.
  cbv zeta.
  destruct (@gym_reset_flags (demo_runtime false) (failing_gym false)
              (GymPufferEnv.mk (E := failing_gym false) 5%Z Postprocessor false true
                 empty_cache)
              _ (Some 42%Z) _ (surjective_pairing _)) as (Hi & Hd & He & Hr & Hs).
  split; [apply Hr; reflexivity|].
  split; [exact Hi|]. split; [exact Hd|]. split; [exact He|].
  apply Hs.
Defined.

Section PettingZooMore.

Context `{R : Runtime} `{E : !PettingZooEnvironment}.

Import PettingZooPufferEnv.

Lemma pz_frame_check_spaces (V : Type) (contains : leaf_space -> V -> bool)
  (spaces : string -> M t leaf_space) (data : dict V) :
  (forall k, pz_frame (spaces k)) ->
  pz_frame (check_spaces contains data spaces).
Proof.
  intros Hspaces. unfold check_spaces.
  induction data as [|[k v] data IH].
  - now apply pz_frame_same.
  - cbn [mfor_each]. apply pz_frame_bind; [|intros _; exact IH].
    intros self self' r H. cbn [fst snd] in H.
    destruct (spaces k self) as [s1 res] eqn:Hq.
    apply Hspaces in Hq. destruct Hq as [c ->].
    exists c. destruct res as [sp|ex].
    + destruct (contains sp v); now injection H as <- _.
    + now injection H as <- _.
Qed.



Lemma unpack_loop_keys (flat : option (dict leaf_space)) (active : list string)
  (acts : dict pyval) : forall acc out,
  for_each (fun unpacked_actions (item : string * pyval) =>
              if mem (fst item) active
              then flat <- getattr "flat_action_space" flat ;;
                   leaves <- split (snd item) flat false ;;
                   Ok (dset (fst item) (cext_unflatten leaves) unpacked_actions)
              else Ok unpacked_actions) acts acc = Ok out ->
  forall agent, In agent (dkeys out) -> In agent (dkeys acc) \/ In agent active.
Proof.
  induction acts as [|[k v] acts IH]; intros acc out H agent Hin; simpl in H.
  - injection H as <-. now left.
  - destruct (mem k active) eqn:Hk.
    + destruct (getattr "flat_action_space" flat) as [f|]; [|discriminate].
      cbn [bind] in H.
      destruct (split v f false) as [leaves|]; [|discriminate]. cbn [bind] in H.
      destruct (IH _ _ H agent Hin) as [Hacc|Hact]; [|now right].
      rewrite dkeys_dset in Hacc. destruct (mem k (dkeys acc)); [now left|].
      apply in_app_or in Hacc. destruct Hacc as [Hacc|[<-|[]]]; [now left|].
      right. now apply mem_In.
    + cbn [bind] in H. exact (IH _ _ H agent Hin).
Qed.

(** The part of [step] up to the call of the environment only assigns cached
    attributes; it ends with the actions unpacked for the active agents. *)
Lemma pz_step_prefix (A : Type) (self self' : t) (acts : dict pyval)
  (k : dict pyobj -> M t A) (r : result A) :
  ((if py_debug
    then lift (for_each (fun (_ : unit) (item : string * pyval) =>
                           if negb (mem (fst item) (possible_agents self))
                           then Raise (InvalidAgentError (fst item) (agents self))
                           else Ok tt) acts tt)
    else ret tt) ;;;
   acts <~ lift (for_each (fun acts agent =>
                             pp <- getitem (postprocessors self) agent ;;
                             atn <- getitem acts agent ;;
                             Ok (dset agent (actions pp atn) acts))
                          (dkeys acts) acts) ;;
   (if py_debug then check_spaces space_contains acts action_space else ret tt) ;;;
   self <~ get ;;
   unpacked_actions <~
     lift (for_each (fun unpacked_actions (item : string * pyval) =>
                       if mem (fst item) (agents self)
                       then flat <- getattr "flat_action_space"
                                      (flat_action_space (cache self)) ;;
                            leaves <- split (snd item) flat false ;;
                            Ok (dset (fst item) (cext_unflatten leaves)
                                  unpacked_actions)
                       else Ok unpacked_actions) acts []) ;;
   k unpacked_actions) self = (self', r) ->
  (exists c e, self' = set_cache c self /\ r = Raise e) \/
  (exists c unpacked_actions,
      (forall agent, In agent (dkeys unpacked_actions) -> In agent (agents self)) /\
      k unpacked_actions (set_cache c self) = (self', r)).
Proof.
  intros H.
  apply mbind_inv in H. destruct H as [(e & H & ->)|(s1 & [] & H1 & H)].
  { left. exists (cache self), e. rewrite set_cache_same. split; [|reflexivity].
    destruct py_debug; [|discriminate]. unfold lift in H. now injection H as <-. }
  assert (Hs1 : s1 = self).
  { destruct py_debug; unfold lift, ret in H1; now injection H1 as <-. }
  subst s1. clear H1.
  apply mbind_inv in H. destruct H as [(e & H & ->)|(s1 & acts' & H1 & H)].
  { left. exists (cache self), e. rewrite set_cache_same. split; [|reflexivity].
    unfold lift in H. now injection H as <-. }
  unfold lift in H1. injection H1 as <- _.
  apply mbind_inv in H. destruct H as [(e & H & ->)|(s1 & [] & H1 & H)].
  { left. destruct py_debug; [|discriminate].
    apply pz_frame_check_spaces in H; [|apply pz_frame_action_space].
    destruct H as [c ->]. now exists c, e. }
  assert (Hs1 : exists c, s1 = set_cache c self).
  { destruct py_debug.
    - apply pz_frame_check_spaces in H1; [exact H1 | apply pz_frame_action_space].
    - unfold ret in H1. injection H1 as <-. exists (cache self).
      now rewrite set_cache_same. }
  destruct Hs1 as [c ->]. clear H1.
  unfold mbind at 1 in H. unfold get at 1 in H.
  apply mbind_inv in H. destruct H as [(e & H & ->)|(s1 & unpacked & H1 & H)].
  { left. exists c, e. unfold lift in H. now injection H as <-. }
  unfold lift in H1. injection H1 as <- Hloop.
  right. exists c, unpacked. split; [|exact H].
  intros agent Hin.
  destruct (unpack_loop_keys _ _ _ _ Hloop agent Hin) as [[]|Hact]. exact Hact.
Qed.


Lemma pz_step_without_teams (self self' : t) (acts : dict pyval)
  (obs : dict pyobj) (rewards : dict Q) (dones : dict bool)
  (infos : dict (dict Info)) :
  step acts self = (self', Ok (obs, rewards, dones, infos)) ->
  teams self = None /\
  (exists unpacked_actions,
      (forall agent, In agent (dkeys unpacked_actions) ->
                     In agent (env_agents (env self))) /\
      env self' = fst (env_step (env self) unpacked_actions)) /\
  dkeys obs = first_occurrences (env_possible_agents (env self')) /\
  dkeys rewards = first_occurrences (env_possible_agents (env self')) /\
  dkeys dones = first_occurrences (env_possible_agents (env self')) /\
  dkeys infos = first_occurrences (env_possible_agents (env self')).
Proof.
  unfold step. unfold mbind at 1. unfold get at 1.
  destruct (negb (initialized self)); [discriminate|].
  destruct (done self); [discriminate|].
  intros H. apply pz_step_prefix in H.
  destruct H as [(c & e & _ & [=])|(c & unpacked & Hactive & H)].
  cbn [teams set_cache env] in H.
  destruct (teams self) as [team_config|]; [discriminate|].
  split; [reflexivity|].
  destruct (env_step (env self) unpacked) as [e [[[obs0 rewards0] dones0] infos0]] eqn:Hstep.
  apply mbind_inv in H. destruct H as [(ex & _ & [=])|(s1 & [] & H1 & H)].
  unfold modify in H1. injection H1 as <-.
  apply mbind_inv in H. destruct H as [(ex & _ & [=])|(s1 & st & H1 & H)].
  unfold lift in H1. injection H1 as <- _.
  destruct st as [[[obs1 rewards1] dones1] infos1].
  unfold mbind at 1 in H. unfold get at 1 in H.
  apply mbind_inv in H. destruct H as [(ex & _ & [=])|(s1 & pad & H1 & H)].
  unfold lift in H1. injection H1 as <- _.
  cbn [env set_env set_cache] in H.
  unfold pad_to_const_num_agents in H.
  apply mbind_inv in H. destruct H as [(ex & _ & [=])|(s1 & [] & H1 & H)].
  assert (Hs1 : exists c', s1 = set_cache c' (set_env e (set_cache c self))).
  { destruct py_debug.
    - apply pz_frame_check_spaces in H1;
        [exact H1 | apply pz_frame_observation_space].
    - unfold ret in H1. injection H1 as <-.
      exists (cache (set_env e (set_cache c self))). reflexivity. }
  destruct Hs1 as [c' ->].
  unfold ret in H. injection H as <- <- <- <- <-.
  cbn [env set_cache set_env]. split.
  - exists unpacked. split; [exact Hactive | now rewrite Hstep].
  - now rewrite !pad_agent_data_keys.
Qed.

End PettingZooMore.





(** X18. Without teams, a [step] that returns has called the environment
    once, with actions of agents that were active only, and returns
    observations, rewards, dones and infos for every possible agent of the
    environment, in their order, whether or not the environment reported
    them. *)
Theorem pz_step_returns_all_agents :
  forall (R : Runtime) (P : PettingZooEnvironment)
         (self self' : PettingZooPufferEnv.t) (acts : dict pyval)
         (obs : dict pyobj) (rewards : dict Q) (dones : dict bool)
         (infos : dict (dict Info)),
    PettingZooPufferEnv.step acts self = (self', Ok (obs, rewards, dones, infos)) ->
    PettingZooPufferEnv.teams self = None /\
    (exists unpacked_actions,
        (forall agent, In agent (dkeys unpacked_actions) ->
                       In agent (env_agents (PettingZooPufferEnv.env self))) /\
        PettingZooPufferEnv.env self'
        = fst (env_step (PettingZooPufferEnv.env self) unpacked_actions)) /\
    dkeys obs
    = first_occurrences (env_possible_agents (PettingZooPufferEnv.env self')) /\
    dkeys rewards
    = first_occurrences (env_possible_agents (PettingZooPufferEnv.env self')) /\
    dkeys dones
    = first_occurrences (env_possible_agents (PettingZooPufferEnv.env self')) /\
    dkeys infos
    = first_occurrences (env_possible_agents (PettingZooPufferEnv.env self')).
Proof. intros R P self self' acts obs rewards dones infos. apply pz_step_without_teams. Qed.

Lemma pz_step_returns_all_agents_witness :
  let action := NdArray (mk_ndarray [1] int64 [1%Q]) in
  let self := PettingZooPufferEnv.mk (E := demo_pz false)
                (mk_demo ["a"] 0) true ["a"; "b"] None
                [("a", Postprocessor); ("b", Postprocessor)]
                (mk_cache None None None
                   (Some (NdArray (mk_ndarray [2] float32 [0; 0]%Q)))
                   None (Some [("V", Discrete 3)]) None) in
  exists self' obs rewards dones infos,
    PettingZooPufferEnv.step [("a", action); ("b", action)] self
    = (self', Ok (obs, rewards, dones, infos)) /\
    dkeys obs = ["a"; "b"] /\ dkeys rewards = ["a"; "b"] /\
    dkeys dones = ["a"; "b"] /\ dkeys infos = ["a"; "b"].
Proof.
  cbv zeta.
  destruct (PettingZooPufferEnv.step (E := demo_pz false)
              [("a", NdArray (mk_ndarray [1] int64 [1%Q]));
               ("b", NdArray (mk_ndarray [1] int64 [1%Q]))]
              (PettingZooPufferEnv.mk (E := demo_pz false)
                 (mk_demo ["a"] 0) true ["a"; "b"] None
                 [("a", Postprocessor); ("b", Postprocessor)]
                 (mk_cache None None None
                    (Some (NdArray (mk_ndarray [2] float32 [0; 0]%Q)))
                    None (Some [("V", Discrete 3)]) None)))
    as [self' [[[[obs rewards] dones] infos]|e]] eqn:Hstep.
  - exists self', obs, rewards, dones, infos. split; [reflexivity|].
    destruct (pz_step_returns_all_agents _ _ Hstep)
      as (_ & _ & Ho & Hr & Hd & Hi).
    assert (Henv : PettingZooPufferEnv.env self' = mk_demo [] 1).
    { vm_compute in Hstep. now injection Hstep as <- _. }
    rewrite Henv in Ho, Hr, Hd, Hi.
    repeat split; assumption.
  - vm_compute in Hstep. discriminate Hstep.
Defined.
